(** * DEAPLearningSystem: a shallow embedding of
      [src/LearningSystems/DEAPLearningSystem.py]

    The learner drives DEAP's tree-based genetic programming: it builds a
    toolbox, evaluates individuals row by row over a pandas frame, trains
    with one of three evolutionary strategies and keeps the best individual
    in a hall of fame of size one.

    Conventions of the embedding
    - Python calls that may raise return a [result]; [try]/[except] is a
      [match] on it.
    - Numbers (Python and numpy floats, with the literals [0], [9999] and
      [-1.0] injected) are an abstract type with the operations the source
      uses, class [Numeric]; nothing below relies on rounding.  A rational
      instance is given at the end for running the definitions.
    - A [pandas.DataFrame] is its row count and its ordered, named columns;
      a [Series] is the list of its values in index order.  An object the
      caller shares with the learner (the frame [X]) is passed in and handed
      back: a function that may change it returns its contents afterwards.
    - [self] is a record of the attributes the source assigns; methods are
      state transformers over it, printing to an explicit [stdout].
    - Of DEAP, pandas and numpy the operations the source calls are
      embedded by what they do; the library's random choices are left open
      (section variables), so every property holds for any behaviour of
      theirs. *)

From Stdlib Require Import ZArith QArith List String Bool Lia.
From stdpp Require Import base option list gmap strings.

Set Warnings "-register-all".

Local Open Scope string_scope.
Local Open Scope list_scope.
Local Open Scope nat_scope.

(** ** Python results *)

Inductive exn : Type :=
| AttributeError (what : string)
| IndexError
| KeyError (key : string)
| TypeError
| NameError (name : string)
| AssertionError
| ZeroDivisionError
| Exception (msg : string).

Inductive result (A : Type) : Type :=
| Return (a : A)
| Raise (e : exn).
Arguments Return {A} a.
Arguments Raise {A} e.

Definition rbind {A B} (r : result A) (k : A -> result B) : result B :=
  match r with
  | Return a => k a
  | Raise e => Raise e
  end.

Definition returns {A} (r : result A) : Prop := exists a, r = Return a.

(** [[f(x) for x in l]], stopping at the first exception. *)
Definition rmap {A B} (f : A -> result B) : list A -> result (list B) :=
  fix go (l : list A) : result (list B) :=
    match l with
    | [] => Return []
    | x :: l' => rbind (f x) (fun v => rbind (go l') (fun vs => Return (v :: vs)))
    end.

(** ** Numbers *)

Class Numeric (num : Type) : Type := {
  of_Z : Z -> num;               (* a literal: 0, 9999, -1.0 *)
  add : num -> num -> num;       (* a + b *)
  sub : num -> num -> num;       (* a - b *)
  mul : num -> num -> num;       (* a * b *)
  mean : list num -> num;        (* np.mean *)
  eqb : num -> num -> bool;      (* a == b *)
  ltb : num -> num -> bool;      (* a < b *)
  leb : num -> num -> bool       (* a <= b *)
}.

Section Model.
Context {num : Type} {N : Numeric num}.

(** ** Frames and series *)

Definition Series : Type := list num.

Record DataFrame : Type := mkFrame {
  index : nat;                          (* number of rows *)
  columns : list (string * Series)      (* label and values, in order *)
}.

Definition labels (X : DataFrame) : list string := map fst (columns X).

Definition has_column (X : DataFrame) (label : string) : bool :=
  existsb (String.eqb label) (labels X).

(** Row [i]: the cells of every column at position [i], in column order
    (a frame is rectangular: every column has [index X] cells). *)
Definition row_at (X : DataFrame) (i : nat) : list num :=
  omap (fun c : string * Series => snd c !! i) (columns X).

Definition rows (X : DataFrame) : list (list num) :=
  map (row_at X) (seq 0 (index X)).

(** [X.copy()]: an independent frame with the same contents. *)
Definition copy (X : DataFrame) : DataFrame := X.

(** [X.apply(f, axis=1)]: [f] on every row, as a series (pandas builds the
    series from the values returned for a frame that has rows). *)
Definition apply_rows (X : DataFrame) (f : list num -> num) : Series :=
  map f (rows X).

(** [X[label] = s]: overwrite the column(s) carrying [label] in place, or
    append a new last column when there is none. *)
Definition setitem (X : DataFrame) (label : string) (s : Series) : DataFrame :=
  if has_column X label
  then mkFrame (index X)
         (map (fun c : string * Series =>
                 if String.eqb label (fst c) then (fst c, s) else c) (columns X))
  else mkFrame (index X) (columns X ++ [(label, s)]).

(** [X[label]]: [KeyError] when no column carries [label]. *)
Definition getitem (X : DataFrame) (label : string) : result Series :=
  match List.find (fun c : string * Series => String.eqb label (fst c)) (columns X) with
  | Some c => Return (snd c)
  | None => Raise (KeyError label)
  end.

(** [X.drop(label, axis=1, inplace=True)]: remove the column(s) carrying
    [label]; [KeyError] when there is none. *)
Definition drop (X : DataFrame) (label : string) : result DataFrame :=
  if has_column X label
  then Return (mkFrame (index X)
         (List.filter (fun c : string * Series => negb (String.eqb label (fst c))) (columns X)))
  else Raise (KeyError label).

(** ** Row-wise evaluation: [get_result] and [_mse] *)

(** A compiled individual, called as [func( *row )]. *)
Definition Callable : Type := list num -> result num.

(** The inner [temp(row)] of [get_result]: the bare [except] turns every
    exception of [func] into the value [9999] (the traceback goes to
    stderr, which is not modelled). *)
Definition temp (func : Callable) (row : list num) : num :=
  match func row with
  | Return val => val
  | Raise _ => of_Z 9999
  end.

(** [get_result(self, func, X, y)].  [X] is the caller's object: the second
    component is its state after the call. On [KeyError] the frame is left
    as it was when the exception was raised. *)
Definition get_result (func : Callable) (X : DataFrame) (y : Series)
  : result Series * DataFrame :=
  let X1 := setitem X "result" (apply_rows (copy X) (temp func)) in
  match getitem X1 "result" with
  | Raise e => (Raise e, X1)
  | Return to_return =>
      match drop X1 "result" with
      | Raise e => (Raise e, X1)
      | Return X2 => (Return to_return, X2)
      end
  end.

(** [preds - y] and [diff**2], elementwise; [y] is taken index-aligned with
    the frame (the data set interface: a parallel target of equal row
    count). *)
Definition series_sub (a b : Series) : Series := zip_with sub a b.
Definition series_sq (a : Series) : Series := map (fun d => mul d d) a.

(** [_mse(self, func, X, y)]. *)
Definition _mse (func : Callable) (X : DataFrame) (y : Series)
  : result num * DataFrame :=
  match get_result func X y with
  | (Raise e, X') => (Raise e, X')
  | (Return preds, X') =>
      let diff := series_sub preds y in
      (Return (mean (series_sq diff)), X')
  end.

(** ** Expression trees and primitive sets *)

(** An individual's expression: a primitive applied to sub-expressions, or
    the input variable [ARGi]. *)
Inductive Node : Type :=
| Prim (name : string) (args : list Node)
| Arg (i : nat).

(** A registered primitive: its declared arity and what calling the Python
    function on a list of arguments does. *)
Record Primitive : Type := mkPrimitive {
  arity : nat;
  call : list num -> result num
}.

(** [gp.PrimitiveSet("MAIN", arity)]: the number of input variables and
    the name space the compiled expression is evaluated in. *)
Record PrimitiveSet : Type := mkPset {
  pset_arity : nat;
  context : gmap string Primitive
}.

(** [pset.addPrimitive(primitive, arity, name=name)]. *)
Definition addPrimitive (ps : PrimitiveSet) (name : string) (p : Primitive) : PrimitiveSet :=
  mkPset (pset_arity ps) (<[name := p]> (context ps)).

(** Evaluation of the expression with [ARG0 .. ARGn-1] bound to [env]:
    the callee is looked up, the arguments are evaluated left to right,
    then the primitive is called; the first exception propagates. *)
Fixpoint eval (ctx : gmap string Primitive) (env : list num) (t : Node) : result num :=
  match t with
  | Arg i =>
      match env !! i with
      | Some v => Return v
      | None => Raise (NameError "ARG")
      end
  | Prim name ts =>
      match ctx !! name with
      | None => Raise (NameError name)
      | Some p => rbind (rmap (eval ctx env) ts) (call p)
      end
  end.

(** [gp.compile(ind, pset)]: a function of [pset_arity] positional
    arguments; any other number of arguments is a [TypeError]. *)
Definition compile (ind : Node) (ps : PrimitiveSet) : Callable :=
  fun row =>
    if length row =? pset_arity ps then eval (context ps) row ind
    else Raise TypeError.

(** [ind.height]: the depth of the deepest node, the root being at
    depth 0 (a node without arguments adds no level). *)
Fixpoint height (t : Node) : nat :=
  match t with
  | Arg _ => 0
  | Prim _ [] => 0
  | Prim _ ts => S (list_max (List.map height ts))
  end.

(** [ind1 == ind2] on trees: node by node. *)
Fixpoint tree_eqb (a b : Node) : bool :=
  match a, b with
  | Arg i, Arg j => i =? j
  | Prim f xs, Prim g ys =>
      String.eqb f g &&
      (fix go (xs ys : list Node) : bool :=
         match xs, ys with
         | [], [] => true
         | x :: xs', y :: ys' => tree_eqb x y && go xs' ys'
         | _, _ => false
         end) xs ys
  | _, _ => false
  end.

(** ** Individuals, fitness and the hall of fame *)

(** An individual: its tree and [fitness.values] (the empty tuple while
    the fitness is invalid). *)
Record Individual : Type := mkInd {
  tree : Node;
  fitness : list num
}.

(** [creator.create("Fitness", base.Fitness, weights=(-1.0,))]. *)
Definition weights : list num := [of_Z (-1)].

Definition wvalues (ind : Individual) : list num :=
  zip_with mul (fitness ind) weights.

Definition valid (ind : Individual) : bool :=
  negb (length (wvalues ind) =? 0).

(** Python's comparison of tuples: decided at the first position where
    the items differ, by length when there is none. *)
Fixpoint tuple_le (a b : list num) : bool :=
  match a, b with
  | [], _ => true
  | _ :: _, [] => false
  | x :: a', y :: b' => if eqb x y then tuple_le a' b' else leb x y
  end.

Fixpoint tuple_lt (a b : list num) : bool :=
  match a, b with
  | [], [] => false
  | [], _ :: _ => true
  | _ :: _, [] => false
  | x :: a', y :: b' => if eqb x y then tuple_lt a' b' else ltb x y
  end.

(** [base.Fitness]: [__le__] and [__lt__] compare the weighted values,
    [__gt__] is [not __le__]. *)
Definition fitness_le (a b : Individual) : bool := tuple_le (wvalues a) (wvalues b).
Definition fitness_lt (a b : Individual) : bool := tuple_lt (wvalues a) (wvalues b).
Definition fitness_gt (a b : Individual) : bool := negb (fitness_le a b).

(** Modelled from the spec: DEAP's [tools.HallOfFame] (library code, not
    among the sources), the "bounded" record of "the best individual(s)
    ever seen", "updated after every generation's evaluation".  [items]
    are kept best first; the definitions that follow are its [__getitem__],
    [insert], [remove] and [update]. *)
Record HallOfFame : Type := mkHof {
  maxsize : nat;
  items : list Individual
}.

Definition HallOfFame_new (maxsize : nat) : HallOfFame := mkHof maxsize [].

(** [hof[i]] for [i >= 0]. *)
Definition hof_getitem (h : HallOfFame) (i : nat) : result Individual :=
  match items h !! i with
  | Some ind => Return ind
  | None => Raise IndexError
  end.

(** [bisect_right(keys, x)] on the ascending keys: the first position
    whose key is greater than [x]. *)
Fixpoint bisect_right (keys : list Individual) (x : Individual) : nat :=
  match keys with
  | [] => 0
  | k :: ks => if fitness_lt x k then 0 else S (bisect_right ks x)
  end.

(** [hof.insert(item)]: a copy of [item] goes after the items that are
    strictly better. *)
Definition hof_insert (h : HallOfFame) (item : Individual) : HallOfFame :=
  let i := bisect_right (rev (items h)) item in
  let at_ := length (items h) - i in
  mkHof (maxsize h) (take at_ (items h) ++ item :: List.skipn at_ (items h)).

(** [hof.remove(-1)]: drop the worst item. *)
Definition hof_remove_last (h : HallOfFame) : HallOfFame :=
  mkHof (maxsize h) (removelast (items h)).

(** One iteration of the loop of [hof.update(population)]: an empty hall
    takes the first individual of the population; otherwise an individual
    enters when it is strictly better than the worst item (or there is
    room) and no item has the same tree, the worst item leaving when the
    hall is full. *)
Definition hof_update_step (population : list Individual) (h : HallOfFame)
    (ind : Individual) : result HallOfFame :=
  if (length (items h) =? 0) && negb (maxsize h =? 0) then
    match population with
    | p0 :: _ => Return (hof_insert h p0)
    | [] => Raise IndexError
    end
  else
    match List.last (List.map Some (items h)) None with
    | None => Raise IndexError              (* self[-1] on an empty hall *)
    | Some worst =>
        if fitness_gt ind worst || (length (items h) <? maxsize h) then
          if existsb (fun hofer => tree_eqb (tree ind) (tree hofer)) (items h)
          then Return h                     (* a similar individual is there *)
          else
            let h1 := if maxsize h <=? length (items h)
                      then hof_remove_last h else h in
            Return (hof_insert h1 ind)
        else Return h
    end.

(** [hof.update(population)]. With [maxsize >= 1] it does not raise. *)
Definition hof_update (h : HallOfFame) (population : list Individual)
  : result HallOfFame :=
  fold_left (fun acc ind => rbind acc (fun h' => hof_update_step population h' ind))
            population (Return h).

(** ** The toolbox *)

(** A data generator: a callable with its own state that returns a fresh
    sample [(X, y)] on every call ([no_samples] is the optional keyword
    argument). *)
Variable Generator : Type.
Variable generate : Generator -> option nat -> (DataFrame * Series) * Generator.

(** [gp.staticLimit(key=operator.attrgetter("height"), max_value=...)]. *)
Inductive Decorator : Type :=
| staticLimit_height (max_value : nat).

(** What [toolbox.register(alias, function, ...)] binds: the library
    function with the arguments fixed at registration.  The evaluator
    holds the caller's [X] (or the generator): the contents of that shared
    object are kept here and written back after each call. *)
Inductive Function : Type :=
| deepcopy                                            (* "clone" *)
| builtin_map                                         (* "map" *)
| genHalfAndHalf (ps : PrimitiveSet) (min_ max_ : nat)
| genFull (min_ max_ : nat)
| initIterate (expr : Function)
| initRepeat (individual : Function)
| selTournament (tournsize : nat)
| mutUniform (expr : Function) (ps : PrimitiveSet)
| cxOnePoint
| eval_helper_on (X : DataFrame) (y : Series)         (* reg_eval *)
| eval_gen (gen : Generator).                         (* reg_gen_eval *)

Record Registration : Type := mkReg {
  function : Function;
  decorators : list Decorator
}.

(** [base.Toolbox()]: [clone] and [map] are registered from the start. *)
Definition Toolbox_new : gmap string Registration :=
  <["clone" := mkReg deepcopy []]> (<["map" := mkReg builtin_map []]> ∅).

Definition register (alias : string) (f : Function) (tb : gmap string Registration)
  : gmap string Registration :=
  <[alias := mkReg f []]> tb.

(** ** The learner *)

(** The parameters of [__init__]. *)
Record Config : Type := mkConfig {
  path : string;
  verbose : bool;
  population_size : nat;
  crossover_prob : num;
  mutation_prob : num;
  ngens : nat;
  algorithm : string;
  func_list : list string
}.

(** The attributes of [self] (apart from [add_func]); [None] is an
    attribute that does not exist. *)
Record Attributes : Type := mkAttrs {
  config : Config;
  toolbox : gmap string Registration;
  Fitness : option (list num);           (* the fitness class: its weights *)
  pset : option PrimitiveSet;
  hof : option HallOfFame;
  func : option Callable
}.

(** [self]: [add_func(dls, X, y)] receives the learner itself and may read
    any of its attributes. It is taken to be a function of what it reads
    (it assigns no attribute and leaves [X] as it is). *)
Record Learner : Type := mkLearner {
  attrs : Attributes;
  add_func : Attributes -> DataFrame -> Series -> result num
}.

Definition with_config (c : Config) (a : Attributes) : Attributes :=
  mkAttrs c (toolbox a) (Fitness a) (pset a) (hof a) (func a).
Definition with_toolbox (tb : gmap string Registration) (a : Attributes) : Attributes :=
  mkAttrs (config a) tb (Fitness a) (pset a) (hof a) (func a).
Definition with_Fitness (f : option (list num)) (a : Attributes) : Attributes :=
  mkAttrs (config a) (toolbox a) f (pset a) (hof a) (func a).
Definition with_pset (ps : option PrimitiveSet) (a : Attributes) : Attributes :=
  mkAttrs (config a) (toolbox a) (Fitness a) ps (hof a) (func a).
Definition with_hof (h : option HallOfFame) (a : Attributes) : Attributes :=
  mkAttrs (config a) (toolbox a) (Fitness a) (pset a) h (func a).
Definition with_func (f : option Callable) (a : Attributes) : Attributes :=
  mkAttrs (config a) (toolbox a) (Fitness a) (pset a) (hof a) f.

Definition update_attrs (f : Attributes -> Attributes) (s : Learner) : Learner :=
  mkLearner (f (attrs s)) (add_func s).

(** [lambda dls, x, y : 0], the default of [self.add_func]. *)
Definition default_add_func : Attributes -> DataFrame -> Series -> result num :=
  fun dls x y => Return (of_Z 0).

(** [DEAPLearningSystem.__init__]: the zero function is the default
    auxiliary penalty. *)
Definition init (path : string) (verbose : bool) (population_size : nat)
    (crossover_prob mutation_prob : num) (ngens : nat) (algorithm : string)
    (func_list : list string) : Learner :=
  mkLearner
    (mkAttrs (mkConfig path verbose population_size crossover_prob mutation_prob
                       ngens algorithm func_list)
             Toolbox_new None None None None)
    default_add_func.

(** [set_add_func], [set_algorithm], [set_func_list]. *)
Definition set_add_func (s : Learner)
    (f : Attributes -> DataFrame -> Series -> result num) : Learner :=
  mkLearner (attrs s) f.

Definition set_algorithm (s : Learner) (algorithm : string) : Learner :=
  let c := config (attrs s) in
  update_attrs (with_config
    (mkConfig (path c) (verbose c) (population_size c) (crossover_prob c)
              (mutation_prob c) (ngens c) algorithm (func_list c))) s.

Definition set_func_list (s : Learner) (func_list : list string) : Learner :=
  let c := config (attrs s) in
  update_attrs (with_config
    (mkConfig (path c) (verbose c) (population_size c) (crossover_prob c)
              (mutation_prob c) (ngens c) (algorithm c) func_list)) s.

(** ** Fitness evaluation: [eval_helper] and [ind_score] *)

(** [eval_helper(self, ind, X, y)]: the value, the learner afterwards
    ([self.func] is assigned) and the caller's [X] afterwards. *)
Definition eval_helper (s : Learner) (ind : Node) (X : DataFrame) (y : Series)
  : result (list num) * Learner * DataFrame :=
  match pset (attrs s) with
  | None => (Raise (AttributeError "pset"), s, X)
  | Some ps =>
      let f := compile ind ps in
      let s1 := update_attrs (with_func (Some f)) s in
      match _mse f X y with
      | (Raise e, X1) => (Raise e, s1, X1)
      | (Return mse, X1) =>
          match add_func s1 (attrs s1) X1 y with
          | Raise e => (Raise e, s1, X1)
          | Return a => (Return [add mse a], s1, X1)
          end
      end
  end.

(** [ind_score(self, ind, X, y)]. *)
Definition ind_score (s : Learner) (ind : Node) (X : DataFrame) (y : Series)
  : result (list num) * Learner * DataFrame :=
  match pset (attrs s) with
  | None => (Raise (AttributeError "pset"), s, X)
  | Some ps =>
      let f := compile ind ps in
      let s1 := update_attrs (with_func (Some f)) s in
      match _mse f X y with
      | (Raise e, X1) => (Raise e, s1, X1)
      | (Return mse, X1) =>
          match add_func s1 (attrs s1) X1 y with
          | Raise e => (Raise e, s1, X1)
          | Return violation => (Return [mse; violation], s1, X1)
          end
      end
  end.

(** ** The world: the learner, the console and Python's random state *)

Variable Rng : Type.

Record World : Type := mkWorld {
  self : Learner;
  stdout : list string;                  (* the lines printed, oldest first *)
  random : Rng;
  seen : list (list Individual)          (* ghost: every population handed to
                                            [halloffame.update], newest first *)
}.

(** Methods: state transformers that return or raise. *)
Definition M (A : Type) : Type := World -> result A * World.

Definition mret {A} (a : A) : M A := fun w => (Return a, w).
Definition mraise {A} (e : exn) : M A := fun w => (Raise e, w).
Definition mbind {A B} (m : M A) (k : A -> M B) : M B :=
  fun w =>
    match m w with
    | (Return a, w') => k a w'
    | (Raise e, w') => (Raise e, w')
    end.

Notation "'let*' x <- m 'in' k" := (mbind m (fun x => k))
  (at level 10, x name, m at level 100, k at level 200).
Notation "'do*' m 'in' k" := (mbind m (fun _ => k))
  (at level 10, m at level 100, k at level 200).

(** [try: m except: handler] with a bare [except]. *)
Definition try_except {A} (m : M A) (handler : M A) : M A :=
  fun w =>
    match m w with
    | (Return a, w') => (Return a, w')
    | (Raise _, w') => handler w'
    end.

(** [self.<field>], read. *)
Definition gets {A} (field : Attributes -> A) : M A :=
  fun w => (Return (field (attrs (self w))), w).
Definition modify_attrs (f : Attributes -> Attributes) : M unit :=
  fun w => (Return tt, mkWorld (update_attrs f (self w)) (stdout w) (random w) (seen w)).
Definition print (line : string) : M unit :=
  fun w => (Return tt, mkWorld (self w) (stdout w ++ [line]) (random w) (seen w)).
Definition with_random {A} (f : Rng -> A * Rng) : M A :=
  fun w => let (a, g) := f (random w) in
           (Return a, mkWorld (self w) (stdout w) g (seen w)).
Definition lift {A} (r : result A) : M A := fun w => (r, w).
Definition record_seen (population : list Individual) : M unit :=
  fun w => (Return tt, mkWorld (self w) (stdout w) (random w) (population :: seen w)).

(** [self.<name>] for an attribute that may be missing. *)
Definition getattr {A} (name : string) (field : Attributes -> option A) : M A :=
  let* v <- gets field in
  match v with
  | Some v => mret v
  | None => mraise (AttributeError name)
  end.

(** [self.toolbox.<alias>]. *)
Definition toolbox_get (alias : string) : M Registration :=
  let* r <- gets (fun a => toolbox a !! alias) in
  match r with
  | Some r => mret r
  | None => mraise (AttributeError alias)
  end.

Definition toolbox_register (alias : string) (f : Function) : M unit :=
  modify_attrs (fun a => with_toolbox (register alias f (toolbox a)) a).

(** [self.toolbox.decorate(alias, decorator)]. *)
Definition toolbox_decorate (alias : string) (d : Decorator) : M unit :=
  let* r <- toolbox_get alias in
  modify_attrs (fun a =>
    with_toolbox (<[alias := mkReg (function r) (decorators r ++ [d])]> (toolbox a)) a).

(** ** Building the model *)

(** [Customization.func_dict]: the primitives by name. *)
Variable func_dict : gmap string Primitive.

(** [create_fitness]: a single objective, minimised. *)
Definition create_fitness : M unit :=
  modify_attrs (with_Fitness (Some weights)).

(** The loop over [self.func_list] of [create_and_reg_individual]:
    [self.pset] is updated in place, a missing name is a [KeyError]. *)
Fixpoint add_primitives (names : list string) : M unit :=
  match names with
  | [] => mret tt
  | name :: rest =>
      match func_dict !! name with
      | None => mraise (KeyError name)
      | Some p =>
          do* modify_attrs (fun a => with_pset ((fun ps => addPrimitive ps name p) <$> pset a) a) in
          add_primitives rest
      end
  end.

(** [create_and_reg_individual(problem_arity)]: the primitive set, the
    individual class (which reads [self.Fitness]) and the generators. *)
Definition create_and_reg_individual (problem_arity : nat) : M unit :=
  do* modify_attrs (with_pset (Some (mkPset problem_arity ∅))) in
  let* names <- gets (fun a => func_list (config a)) in
  do* add_primitives names in
  let* _ <- getattr "Fitness" Fitness in
  let* ps <- getattr "pset" pset in
  do* toolbox_register "expr" (genHalfAndHalf ps 1 2) in
  let* expr <- toolbox_get "expr" in
  toolbox_register "individual" (initIterate (function expr)).

Definition create_and_reg_population : M unit :=
  let* individual <- toolbox_get "individual" in
  toolbox_register "population" (initRepeat (function individual)).

Definition reg_selection (tournsize : nat) : M unit :=
  toolbox_register "select" (selTournament tournsize).

Definition reg_mutation : M unit :=
  do* toolbox_register "expr_mut" (genFull 0 2) in
  let* expr_mut <- toolbox_get "expr_mut" in
  let* ps <- getattr "pset" pset in
  do* toolbox_register "mutate" (mutUniform (function expr_mut) ps) in
  toolbox_decorate "mutate" (staticLimit_height 17).

Definition reg_mating : M unit :=
  do* toolbox_register "mate" cxOnePoint in
  toolbox_decorate "mate" (staticLimit_height 17).

Definition reg_eval (X : DataFrame) (y : Series) : M unit :=
  toolbox_register "evaluate" (eval_helper_on X y).

Definition reg_gen_eval (generator : Generator) : M unit :=
  toolbox_register "evaluate" (eval_gen generator).

Definition get_arity_from_X (X : DataFrame) : nat := length (columns X).

Definition invariant_build_model (arity tournsize : nat) : M unit :=
  do* create_fitness in
  do* create_and_reg_individual arity in
  do* create_and_reg_population in
  do* reg_selection tournsize in
  do* reg_mutation in
  reg_mating.

Definition build_model (X : DataFrame) (y : Series) (tournsize : nat) : M unit :=
  let arity := get_arity_from_X X in
  do* invariant_build_model arity tournsize in
  reg_eval X y.

Definition build_gen_model (generator : Generator) (tournsize : nat) : M unit :=
  let '((smallx, smally), generator') := generate generator (Some 1) in
  let arity := get_arity_from_X smallx in
  do* invariant_build_model arity tournsize in
  reg_gen_eval generator'.

(** [del self.<name>]: [AttributeError] when the attribute is missing. *)
Definition delattr {A} (name : string) (field : Attributes -> option A)
    (clear : Attributes -> Attributes) : M unit :=
  do* getattr name field in
  modify_attrs clear.

(** [reset(self)]: the three [del]s share one [try]; the first missing
    attribute ends it with the message. *)
Definition reset : M unit :=
  do* modify_attrs (with_toolbox Toolbox_new) in
  try_except
    (do* delattr "Fitness" Fitness (with_Fitness None) in
     do* delattr "pset" pset (with_pset None) in
     delattr "hof" hof (with_hof None))
    (print "Already Reset").

(** ** Variation operators behind the height guard *)

(** The library's random operators, for any behaviour of theirs:
    [gp.mutUniform(individual, expr, pset)], [gp.cxOnePoint(ind1, ind2)]
    and the integer draw behind [random.choice]. *)
Variable gp_mutUniform :
  Individual -> Function -> PrimitiveSet -> Rng -> result (list Individual) * Rng.
Variable gp_cxOnePoint :
  Individual -> Individual -> Rng -> result (list Individual) * Rng.
Variable randbelow : nat -> Rng -> nat * Rng.

(** [random.choice(seq)]: the item at the drawn index (taken below the
    length, whatever the draw). *)
Definition random_choice {A} (l : list A) (g : Rng) : result A * Rng :=
  match l with
  | [] => (Raise IndexError, g)
  | _ =>
      let (i, g') := randbelow (length l) g in
      match l !! (i mod length l) with
      | Some x => (Return x, g')
      | None => (Raise IndexError, g')
      end
  end.

Definition Operator : Type := list Individual -> Rng -> result (list Individual) * Rng.

(** The loop of the guard over the operator's results: a result over the
    limit is replaced by a random choice among the kept parents. *)
Fixpoint limit_each (key : Individual -> nat) (max_value : nat)
    (keep_inds new_inds : list Individual) (g : Rng) : result (list Individual) * Rng :=
  match new_inds with
  | [] => (Return [], g)
  | ind :: rest =>
      if max_value <? key ind then
        match random_choice keep_inds g with
        | (Raise e, g1) => (Raise e, g1)
        | (Return parent, g1) =>
            match limit_each key max_value keep_inds rest g1 with
            | (Raise e, g2) => (Raise e, g2)
            | (Return l, g2) => (Return (parent :: l), g2)
            end
        end
      else
        match limit_each key max_value keep_inds rest g with
        | (Raise e, g2) => (Raise e, g2)
        | (Return l, g2) => (Return (ind :: l), g2)
        end
  end.

(** Modelled from the spec: the wrapper that [gp.staticLimit(key,
    max_value)] puts around an operator (DEAP's code is not among the
    sources).  "After producing an offspring, if [height(offspring) >
    max_height], the guard discards the offspring and returns one of the
    original parents unchanged instead": the parents are copied first, the
    operator runs, and each result over the limit is replaced by one of
    the copies. *)
Definition staticLimit (key : Individual -> nat) (max_value : nat) (func : Operator)
  : Operator :=
  fun args g =>
    let keep_inds := args in
    match func args g with
    | (Raise e, g1) => (Raise e, g1)
    | (Return new_inds, g1) => limit_each key max_value keep_inds new_inds g1
    end.

(** [toolbox.decorate]: the decorators wrap the function in order. *)
Definition apply_decorator (func : Operator) (d : Decorator) : Operator :=
  match d with
  | staticLimit_height max_value => staticLimit (fun ind => height (tree ind)) max_value func
  end.

Definition decorated (ds : list Decorator) (func : Operator) : Operator :=
  fold_left apply_decorator ds func.

(** [toolbox.mutate(ind)] and [toolbox.mate(ind1, ind2)] as registered. *)
Definition toolbox_mutate (tb : gmap string Registration) (ind : Individual) (g : Rng)
  : result (list Individual) * Rng :=
  match tb !! "mutate" with
  | None => (Raise (AttributeError "mutate"), g)
  | Some r =>
      match function r with
      | mutUniform expr ps =>
          decorated (decorators r)
            (fun args g' =>
               match args with
               | [i] => gp_mutUniform i expr ps g'
               | _ => (Raise TypeError, g')
               end) [ind] g
      | _ => (Raise TypeError, g)
      end
  end.

Definition toolbox_mate (tb : gmap string Registration) (ind1 ind2 : Individual) (g : Rng)
  : result (list Individual) * Rng :=
  match tb !! "mate" with
  | None => (Raise (AttributeError "mate"), g)
  | Some r =>
      match function r with
      | cxOnePoint =>
          decorated (decorators r)
            (fun args g' =>
               match args with
               | [i1; i2] => gp_cxOnePoint i1 i2 g'
               | _ => (Raise TypeError, g')
               end) [ind1; ind2] g
      | _ => (Raise TypeError, g)
      end
  end.

(** ** The strategies: class [Algorithms] *)

Inductive Algo : Type :=
| eaSimple
| eaMuPlusLambda
| eaMuCommaLambda.

Definition mu : nat := 5.
Definition lambda_ : nat := 8.

Definition algo_dict : gmap string Algo :=
  <["simple" := eaSimple]>
    (<["mu+lambda" := eaMuPlusLambda]>
      (<["mu,lambda" := eaMuCommaLambda]> ∅)).

(** The public names of the module [deap.algorithms]; reading any other
    attribute of the module is an [AttributeError]. *)
Definition deap_algorithms : list string :=
  ["varAnd"; "eaSimple"; "varOr"; "eaMuPlusLambda"; "eaMuCommaLambda";
   "eaGenerateUpdate"; "random"; "tools"].

Definition module_getattr (names : list string) (name : string) : result unit :=
  if existsb (String.eqb name) names then Return tt
  else Raise (AttributeError name).

(** [Algorithms.get_algorithm(key)], over the names of the module bound to
    [algorithms]: the statement [algorithms.ea] is an attribute read. *)
Definition get_algorithm_in (algorithms : list string) (key : string) : M (option Algo) :=
  do* (match algo_dict !! key with
       | Some _ => mret tt
       | None =>
           do* print ("Key " ++ key ++
                      " not found out of available algorithm options. Using Simple Algorithm") in
           lift (module_getattr algorithms "ea")
       end) in
  mret (match algo_dict !! key with
        | Some a => Some a
        | None => algo_dict !! "simple"
        end).

Definition get_algorithm (key : string) : M (option Algo) :=
  get_algorithm_in deap_algorithms key.

(** ** Training *)

(** The rest of the library's random machinery, for any behaviour of
    theirs: building the first population from the registered generator
    ([toolbox.population(n)]), tournament selection, and the variation of
    a population ([varAnd], [varOr]: clones of the parents changed by
    [toolbox.mate] and [toolbox.mutate], the fitness of a changed
    individual invalidated); and the rendering of the log. *)
Variable tools_initRepeat : Function -> nat -> Rng -> result (list Individual) * Rng.
Variable tools_selTournament : list Individual -> nat -> nat -> Rng -> list Individual * Rng.
Variable algorithms_varAnd :
  list Individual -> gmap string Registration -> num -> num -> Rng
  -> result (list Individual) * Rng.
Variable algorithms_varOr :
  list Individual -> gmap string Registration -> nat -> num -> num -> Rng
  -> result (list Individual) * Rng.

(** The log: one record [(gen, nevals)] per generation. *)
Definition Logbook : Type := list (nat * nat).
Variable logbook_stream : Logbook -> string.

Definition with_random_result {A} (f : Rng -> result A * Rng) : M A :=
  fun w => let (r, g) := f (random w) in
           (r, mkWorld (self w) (stdout w) g (seen w)).

(** [toolbox.evaluate(ind)]: the registered evaluator on the learner. The
    caller's [X] (or the generator) is written back after the call. *)
Definition toolbox_evaluate (ind : Node) : M (list num) :=
  let* r <- toolbox_get "evaluate" in
  match function r with
  | eval_helper_on X y =>
      fun w =>
        let '(v, s1, X1) := eval_helper (self w) ind X y in
        let s2 := update_attrs (fun a =>
                    with_toolbox (<["evaluate" := mkReg (eval_helper_on X1 y) (decorators r)]>
                                    (toolbox a)) a) s1 in
        (v, mkWorld s2 (stdout w) (random w) (seen w))
  | eval_gen gen =>
      fun w =>
        let '((X, y), gen1) := generate gen None in
        let '(v, s1, _) := eval_helper (self w) ind X y in
        let s2 := update_attrs (fun a =>
                    with_toolbox (<["evaluate" := mkReg (eval_gen gen1) (decorators r)]>
                                    (toolbox a)) a) s1 in
        (v, mkWorld s2 (stdout w) (random w) (seen w))
  | _ => mraise TypeError
  end.

(** The evaluation of the individuals with an invalid fitness, in order:
    the population with the fitness assigned, and [nevals]. *)
Fixpoint evaluate_invalid (population : list Individual) : M (list Individual * nat) :=
  match population with
  | [] => mret ([], 0)
  | ind :: rest =>
      if valid ind then
        let* r <- evaluate_invalid rest in
        mret (ind :: fst r, snd r)
      else
        let* fit <- toolbox_evaluate (tree ind) in
        let* r <- evaluate_invalid rest in
        mret (mkInd (tree ind) fit :: fst r, S (snd r))
  end.

(** [halloffame.update(population)] on the hall of fame handed to the
    algorithm, which is the object [self.hof]. *)
Definition halloffame_update (population : list Individual) : M unit :=
  let* h <- getattr "hof" hof in
  let* h1 <- lift (hof_update h population) in
  do* modify_attrs (with_hof (Some h1)) in
  record_seen population.

Definition toolbox_select (population : list Individual) (k : nat) : M (list Individual) :=
  let* r <- toolbox_get "select" in
  match function r with
  | selTournament tournsize => with_random (tools_selTournament population k tournsize)
  | _ => mraise TypeError
  end.

Definition log_record (gen nevals : nat) (logbook : Logbook) : M Logbook :=
  let logbook1 := logbook ++ [(gen, nevals)] in
  let* verbose <- gets (fun a => verbose (config a)) in
  do* (if verbose then print (logbook_stream logbook1) else mret tt) in
  mret logbook1.

(** Modelled from the spec: what every strategy does before the first
    generation (DEAP's algorithms are not among the sources): "evaluate
    population", update the hall of fame, open the log. *)
Definition ea_start (population : list Individual) : M (list Individual * Logbook) :=
  let* r <- evaluate_invalid population in
  do* halloffame_update (fst r) in
  let* logbook <- log_record 0 (snd r) [] in
  mret (fst r, logbook).

(** Modelled from the spec: one generation of each strategy (DEAP's
    [eaSimple], [eaMuPlusLambda] and [eaMuCommaLambda] are not among the
    sources).  simple: "select [len(population)] parents via tournament,
    apply crossover/mutation per probabilities, evaluate offspring, replace
    population wholesale with offspring, update hall of fame"; mu+lambda:
    [lambda_] offspring from the parents, "the next parent generation is
    the best [mu] individuals from the union of old parents and new
    offspring"; mu,lambda: the same "drawn only from the offspring". *)
Definition ea_generation (algo : Algo) (population : list Individual)
  : M (list Individual * nat) :=
  let* cxpb <- gets (fun a => crossover_prob (config a)) in
  let* mutpb <- gets (fun a => mutation_prob (config a)) in
  let* tb <- gets toolbox in
  let* offspring <-
    match algo with
    | eaSimple =>
        let* selected <- toolbox_select population (length population) in
        with_random_result (algorithms_varAnd selected tb cxpb mutpb)
    | eaMuPlusLambda | eaMuCommaLambda =>
        with_random_result (algorithms_varOr population tb lambda_ cxpb mutpb)
    end in
  let* r <- evaluate_invalid offspring in
  do* halloffame_update (fst r) in
  let* population1 <-
    match algo with
    | eaSimple => mret (fst r)
    | eaMuPlusLambda => toolbox_select (population ++ fst r) mu
    | eaMuCommaLambda => toolbox_select (fst r) mu
    end in
  mret (population1, snd r).

Fixpoint ea_generations (algo : Algo) (gens : list nat)
    (population : list Individual) (logbook : Logbook) : M (list Individual * Logbook) :=
  match gens with
  | [] => mret (population, logbook)
  | gen :: rest =>
      let* r <- ea_generation algo population in
      let* logbook1 <- log_record gen (snd r) logbook in
      ea_generations algo rest (fst r) logbook1
  end.

(** The call of the selected strategy with [ngen=self.ngens]: "training
    terminates after exactly [ngen] generations".  [None] is not callable,
    and [eaMuCommaLambda] asserts [lambda_ >= mu]. *)
Definition run_algorithm (algo : option Algo) (population : list Individual)
  : M (list Individual * Logbook) :=
  match algo with
  | None => mraise TypeError
  | Some algo =>
      let* ngen <- gets (fun a => ngens (config a)) in
      do* (match algo with
           | eaMuCommaLambda => if mu <=? lambda_ then mret tt else mraise AssertionError
           | _ => mret tt
           end) in
      let* r <- ea_start population in
      ea_generations algo (seq 1 ngen) (fst r) (snd r)
  end.

(** [self.hof = tools.HallOfFame(1)]: a new object, to which nothing has
    been handed yet (the ghost trace starts again). *)
Definition new_hof : M unit :=
  fun w => (Return tt,
            mkWorld (update_attrs (with_hof (Some (HallOfFame_new 1))) (self w))
                    (stdout w) (random w) []).

(** [train(self)]. *)
Definition train : M (list Individual * Logbook) :=
  do* new_hof in
  let* key <- gets (fun a => algorithm (config a)) in
  let* algo <- get_algorithm key in
  let* population_fn <- toolbox_get "population" in
  let* size <- gets (fun a => population_size (config a)) in
  let* population <-
    with_random_result (tools_initRepeat (function population_fn) size) in
  run_algorithm algo population.

(** [fit(self, X, y)] and [fit_gen(self, gen)]; [tournsize] takes its
    default 3. *)
Definition fit (X : DataFrame) (y : Series) : M (list Individual * Logbook) :=
  do* reset in
  do* build_model X y 3 in
  train.

Definition fit_gen (gen : Generator) : M (list Individual * Logbook) :=
  do* reset in
  do* build_gen_model gen 3 in
  train.

(** ** Scoring *)

(** What [score] returns: the tuple of [ind_score], or the [int] 0. *)
Inductive pyvalue : Type :=
| PyInt (z : Z)
| PyTuple (t : list num).

(** [score(self, X, y)]: the value, the world afterwards and the caller's
    [X] afterwards. *)
Definition score (X : DataFrame) (y : Series) (w : World)
  : result pyvalue * World * DataFrame :=
  let attempt : result (list num) * Learner * DataFrame :=
    match hof (attrs (self w)) with
    | None => (Raise (AttributeError "hof"), self w, X)
    | Some h =>
        match hof_getitem h 0 with
        | Raise e => (Raise e, self w, X)
        | Return best => ind_score (self w) (tree best) X y
        end
    end in
  match attempt with
  | (Return t, s1, X1) =>
      (Return (PyTuple t), mkWorld s1 (stdout w) (random w) (seen w), X1)
  | (Raise _, s1, X1) =>
      (Return (PyInt 0),
       mkWorld s1 (stdout w ++ ["Could not find Best model"]) (random w) (seen w), X1)
  end.

(** ** The best individual, by reference *)

(** Python variables and containers hold references to objects. For the
    accessor of the best individual the individuals live in a store, the
    hall of fame holds references into it, and changing an object in place
    is an update of the store at its reference. *)

(** Modelled from the spec: [toolbox.clone], which is [copy.deepcopy]
    (library code, not among the sources): "an independent copy of the
    tree", that is a new object with the contents of the given one. *)
Definition clone (store : gmap positive Individual) (r : positive)
  : result positive * gmap positive Individual :=
  match store !! r with
  | Some ind =>
      let r' := fresh (dom store) in
      (Return r', <[r' := ind]> store)
  | None => (Raise (Exception "no such object"), store)
  end.

(** [get_predicted_equation(self)]: [self.toolbox.clone(self.hof[0])],
    with [hof_items] the references the hall of fame holds ([None] when
    there is no hall of fame). *)
Definition get_predicted_equation (tb : gmap string Registration)
    (hof_items : option (list positive)) (store : gmap positive Individual)
  : result positive * gmap positive Individual :=
  match tb !! "clone" with
  | None => (Raise (AttributeError "clone"), store)
  | Some _ =>
      match hof_items with
      | None => (Raise (AttributeError "hof"), store)
      | Some refs =>
          match refs !! 0 with
          | None => (Raise IndexError, store)
          | Some best => clone store best
          end
      end
  end.

(** Any change made in place to the object behind [r]. *)
Definition mutate_object (change : Individual -> Individual) (r : positive)
    (store : gmap positive Individual) : gmap positive Individual :=
  alter change r store.

(** * Vocabulary of the properties *)

(** No hall of fame yet, or one that holds nothing. *)
Definition no_trained_model (w : World) : Prop :=
  match hof (attrs (self w)) with
  | None => True
  | Some h => items h = []
  end.

(** An auxiliary penalty that uses of the learner nothing but the compiled
    function [dls.func] (the documented extension point). *)
Definition reads_only_func (aux : Attributes -> DataFrame -> Series -> result num) : Prop :=
  forall (a a' : Attributes) (X : DataFrame) (y : Series),
    func a = func a' -> aux a X y = aux a' X y.

(** The individuals a run can hold: the founders (the first population),
    whatever [toolbox.mutate] and [toolbox.mate] return on individuals it
    holds, and any of these with another fitness assigned. *)
Inductive bred (tb : gmap string Registration) (founders : list Individual)
  : Individual -> Prop :=
| bred_founder (i : Individual) :
    i ∈ founders -> bred tb founders i
| bred_mutate (parent o : Individual) (g g' : Rng) (out : list Individual) :
    bred tb founders parent ->
    toolbox_mutate tb parent g = (Return out, g') -> o ∈ out ->
    bred tb founders o
| bred_mate (parent1 parent2 o : Individual) (g g' : Rng) (out : list Individual) :
    bred tb founders parent1 -> bred tb founders parent2 ->
    toolbox_mate tb parent1 parent2 g = (Return out, g') -> o ∈ out ->
    bred tb founders o
| bred_evaluated (i : Individual) (values : list num) :
    bred tb founders i -> bred tb founders (mkInd (tree i) values).

(** Projections of updated records. *)
Ltac world_simpl :=
  cbn [attrs self stdout random seen update_attrs with_toolbox with_config
       with_Fitness with_pset with_hof with_func toolbox pset hof func Fitness
       config add_func function decorators fst snd] in *.

(** The hall of fame and what has been handed to it. *)
Definition hof_view (w : World) : option HallOfFame * list (list Individual) :=
  (hof (attrs (self w)), seen w).

Definition keeps_hof {A} (m : M A) : Prop :=
  forall w : World, hof_view (snd (m w)) = hof_view w.

(** The hall of fame that results from handing the populations, in
    order, to a new one of size 1. *)
Definition hof_history (populations : list (list Individual)) : result HallOfFame :=
  fold_left (fun acc population => rbind acc (fun h => hof_update h population))
            populations (Return (HallOfFame_new 1)).

(** Every individual handed to the hall of fame, in order. *)
Definition all_seen (w : World) : list Individual := concat (rev (seen w)).

(** The hall of fame of the learner is the one its history gives. *)
Definition tracks (w : World) : Prop :=
  exists h : HallOfFame,
    hof (attrs (self w)) = Some h /\ hof_history (rev (seen w)) = Return h.

Definition keeps_tracking {A} (m : M A) : Prop :=
  forall w : World, tracks w -> tracks (snd (m w)).

(** The numbers are totally ordered by [<=], and numbers that are [==] are
    [<=] (floats without NaN). *)
Definition ordered_numbers : Prop :=
  (forall a b : num, leb a b = true \/ leb b a = true) /\
  (forall a b c : num, leb a b = true -> leb b c = true -> leb a c = true) /\
  (forall a b : num, eqb a b = true -> leb a b = true).

(** The hall of fame holds nothing when nothing was seen, and otherwise
    exactly one individual, one of those seen, with no individual seen
    strictly better. *)
Definition holds_best (S : list Individual) (h : HallOfFame) : Prop :=
  maxsize h = 1 /\
  ((S = [] /\ items h = []) \/
   exists b : Individual,
     items h = [b] /\ b ∈ S /\ forall i, i ∈ S -> fitness_gt i b = false).

(** The individual kept after [ind] is compared with the holder [b]. *)
Definition keep_better (b ind : Individual) : Individual :=
  if fitness_gt ind b && negb (tree_eqb (tree ind) (tree b)) then ind else b.

(** What a hall of fame of size 1 holds once the individuals of [inds]
    have been handed to it in order: nothing when there is none, otherwise
    the first, replaced by each later one that is strictly better than the
    holder and has another tree. *)
Definition holder (inds : list Individual) : list Individual :=
  match inds with
  | [] => []
  | first :: rest => [fold_left keep_better rest first]
  end.

(** A property of the world that reads the populations handed to the
    hall of fame only. *)
Definition seen_only (P : World -> Prop) : Prop :=
  forall w w' : World, seen w' = seen w -> P w -> P w'.

(** [k] populations have been handed to the hall of fame since it was
    created, every individual of them with its fitness assigned; [last],
    when given, is the one handed over last. *)
Definition handed (k : nat) (last : option (list Individual)) (w : World) : Prop :=
  length (seen w) = k /\
  Forall (Forall (fun ind => valid ind = true)) (seen w) /\
  forall population : list Individual,
    last = Some population ->
    exists earlier : list (list Individual), seen w = population :: earlier.

(** With the strategy 'simple' the population of a generation is the one
    handed to the hall of fame. *)
Definition newest (algo : Algo) (population : list Individual)
  : option (list Individual) :=
  match algo with
  | eaSimple => Some population
  | _ => None
  end.

(** Two worlds with the same parameters, the same auxiliary penalty and
    the same random state; everything else may differ. *)
Definition same_setup (w1 w2 : World) : Prop :=
  config (attrs (self w1)) = config (attrs (self w2)) /\
  add_func (self w1) = add_func (self w2) /\
  random w1 = random w2.

(** Agreement on the toolbox too and, as far as the flags say, on the
    fitness class, the primitive set and the hall of fame with its history.
    [self.func] and the console are never compared. *)
Definition agree (fit_ ps_ hof_ : bool) (w1 w2 : World) : Prop :=
  same_setup w1 w2 /\
  toolbox (attrs (self w1)) = toolbox (attrs (self w2)) /\
  (fit_ = true -> Fitness (attrs (self w1)) = Fitness (attrs (self w2))) /\
  (ps_ = true -> pset (attrs (self w1)) = pset (attrs (self w2))) /\
  (hof_ = true ->
     hof (attrs (self w1)) = hof (attrs (self w2)) /\ seen w1 = seen w2).

(** From worlds related by [R], the method returns or raises the same in
    both, and when it returns it leaves worlds related by [Q]. *)
Definition related (R Q : World -> World -> Prop) {A} (m : M A) : Prop :=
  forall w1 w2 : World, R w1 w2 ->
    fst (m w1) = fst (m w2) /\
    (returns (fst (m w1)) -> Q (snd (m w1)) (snd (m w2))).

Ltac agree_tac :=
  unfold agree, same_setup in *; world_simpl;
  repeat match goal with
         | H : _ /\ _ |- _ => destruct H
         | H : true = true -> _ |- _ => specialize (H eq_refl)
         end;
  repeat split; intros;
  repeat match goal with
         | H : ?b = true -> _, H' : ?b = true |- _ => specialize (H H')
         | H : _ /\ _ |- _ => destruct H
         end;
  try congruence.

(** Learners that differ at most in [self.func] evaluate alike, and leave
    learners that differ at most in [self.func]. *)
Definition learners_agree (s1 s2 : Learner) : Prop :=
  config (attrs s1) = config (attrs s2) /\
  toolbox (attrs s1) = toolbox (attrs s2) /\
  Fitness (attrs s1) = Fitness (attrs s2) /\
  pset (attrs s1) = pset (attrs s2) /\
  hof (attrs s1) = hof (attrs s2) /\
  add_func s1 = add_func s2.

(** The world of a learner just constructed with the parameters, the
    penalty and the random state of [w]. *)
Definition constructed (w : World) : World :=
  mkWorld
    (mkLearner (mkAttrs (config (attrs (self w))) Toolbox_new None None None None)
               (add_func (self w)))
    [] (random w) [].

(** The same value or exception, and on return the same toolbox, fitness
    class, primitive set, hall of fame and random state. *)
Definition same_outcome {A} (r1 r2 : result A * World) : Prop :=
  fst r1 = fst r2 /\
  (returns (fst r1) -> agree true true true (snd r1) (snd r2)).

(** ** Vocabulary of the further properties *)

(** A frame as pandas holds it: every column has one cell per row. *)
Definition rectangular (X : DataFrame) : Prop :=
  Forall (fun c : string * Series => length (snd c) = index X) (columns X).

(** Every name of the list is a key of [func_dict]. *)
Definition all_known (names : list string) : Prop :=
  Forall (fun name => is_Some (func_dict !! name)) names.

(** The toolbox [tb] with the seven registrations of a build for the
    primitive set [ps], the decorated operators included. *)
Definition built_toolbox (ps : PrimitiveSet) (tournsize : nat)
    (tb : gmap string Registration) : gmap string Registration :=
  <["mate" := mkReg cxOnePoint [staticLimit_height 17]]>
  (<["mutate" := mkReg (mutUniform (genFull 0 2) ps) [staticLimit_height 17]]>
  (<["expr_mut" := mkReg (genFull 0 2) []]>
  (<["select" := mkReg (selTournament tournsize) []]>
  (<["population" := mkReg (initRepeat (initIterate (genHalfAndHalf ps 1 2))) []]>
  (<["individual" := mkReg (initIterate (genHalfAndHalf ps 1 2)) []]>
  (<["expr" := mkReg (genHalfAndHalf ps 1 2) []]> tb)))))).

(** The world with the attributes of the learner changed by [f]. *)
Definition with_attrs (f : Attributes -> Attributes) (w : World) : World :=
  mkWorld (update_attrs f (self w)) (stdout w) (random w) (seen w).

(** The primitive set holds the primitives of [names], each as in
    [func_dict], and nothing else. *)
Definition holds_primitives (names : list string) (ps : PrimitiveSet) : Prop :=
  forall name : string,
    context ps !! name = if bool_decide (name ∈ names) then func_dict !! name else None.

(** What a build sets up and training works with: the parameters, the
    fitness class, the primitive set, the penalty, and the toolbox apart
    from the evaluator (which holds the data). *)
Definition model_view (w : World) :=
  (config (attrs (self w)), Fitness (attrs (self w)), pset (attrs (self w)),
   add_func (self w), delete "evaluate" (toolbox (attrs (self w)))).

Definition keeps_model {A} (m : M A) : Prop :=
  forall w : World, model_view (snd (m w)) = model_view w.

(** A call of one of the methods that change the learner, with its
    arguments; [get_result], [_mse], [get_arity_from_X], [__str__] and
    [get_predicted_equation] assign no attribute. *)
Inductive Call : Type :=
| call_create_fitness
| call_create_and_reg_individual (problem_arity : nat)
| call_create_and_reg_population
| call_reg_selection (tournsize : nat)
| call_reg_mutation
| call_reg_mating
| call_eval_helper (ind : Node) (X : DataFrame) (y : Series)
| call_reg_eval (X : DataFrame) (y : Series)
| call_reg_gen_eval (generator : Generator)
| call_ind_score (ind : Node) (X : DataFrame) (y : Series)
| call_set_add_func (f : Attributes -> DataFrame -> Series -> result num)
| call_set_algorithm (algorithm : string)
| call_reset
| call_build_model (X : DataFrame) (y : Series) (tournsize : nat)
| call_build_gen_model (generator : Generator) (tournsize : nat)
| call_invariant_build_model (arity tournsize : nat)
| call_set_func_list (func_list : list string)
| call_train
| call_fit (X : DataFrame) (y : Series)
| call_fit_gen (gen : Generator)
| call_score (X : DataFrame) (y : Series).

Definition with_self (s : Learner) (w : World) : World :=
  mkWorld s (stdout w) (random w) (seen w).

(** The world after the call, whether it returned or raised. *)
Definition after_call (w : World) (c : Call) : World :=
  match c with
  | call_create_fitness => snd (create_fitness w)
  | call_create_and_reg_individual problem_arity =>
      snd (create_and_reg_individual problem_arity w)
  | call_create_and_reg_population => snd (create_and_reg_population w)
  | call_reg_selection tournsize => snd (reg_selection tournsize w)
  | call_reg_mutation => snd (reg_mutation w)
  | call_reg_mating => snd (reg_mating w)
  | call_eval_helper ind X y => with_self (snd (fst (eval_helper (self w) ind X y))) w
  | call_reg_eval X y => snd (reg_eval X y w)
  | call_reg_gen_eval generator => snd (reg_gen_eval generator w)
  | call_ind_score ind X y => with_self (snd (fst (ind_score (self w) ind X y))) w
  | call_set_add_func f => with_self (set_add_func (self w) f) w
  | call_set_algorithm algorithm => with_self (set_algorithm (self w) algorithm) w
  | call_reset => snd (reset w)
  | call_build_model X y tournsize => snd (build_model X y tournsize w)
  | call_build_gen_model generator tournsize => snd (build_gen_model generator tournsize w)
  | call_invariant_build_model arity tournsize =>
      snd (invariant_build_model arity tournsize w)
  | call_set_func_list func_list => with_self (set_func_list (self w) func_list) w
  | call_train => snd (train w)
  | call_fit X y => snd (fit X y w)
  | call_fit_gen gen => snd (fit_gen gen w)
  | call_score X y => snd (fst (score X y w))
  end.

(** The world after the calls, in order. *)
Definition after_calls (w : World) (calls : list Call) : World :=
  fold_left after_call calls w.

(** While individuals can be made or the hall of fame holds one, the
    fitness class and the primitive set exist. *)
Definition consistent (w : World) : Prop :=
  let a := attrs (self w) in
  (is_Some (toolbox a !! "individual") \/ is_Some (toolbox a !! "population") \/
   exists h : HallOfFame, hof a = Some h /\ items h <> []) ->
  is_Some (Fitness a) /\ is_Some (pset a).

Definition keeps_consistent {A} (m : M A) : Prop :=
  forall w : World, consistent w -> consistent (snd (m w)).

(** What [consistent] reads. *)
Definition consistent_view (w : World) :=
  let a := attrs (self w) in
  (toolbox a !! "individual", toolbox a !! "population", hof a, Fitness a, pset a).

(** Methods that leave every registration of the toolbox as it is. *)
Definition keeps_toolbox {A} (m : M A) : Prop :=
  forall w : World, toolbox (attrs (self (snd (m w)))) = toolbox (attrs (self w)).

(** From a world that satisfies [P], the method leaves a world that
    satisfies [Q] (with the value returned) when it returns and [E] when
    it raises. *)
Definition hoare {A} (P : World -> Prop) (m : M A)
    (Q : A -> World -> Prop) (E : World -> Prop) : Prop :=
  forall w : World, P w ->
    match m w with
    | (Return a, w') => Q a w'
    | (Raise _, w') => E w'
    end.

(** A property of the world that reads the toolbox only. *)
Definition toolbox_only (P : World -> Prop) : Prop :=
  forall w w' : World,
    toolbox (attrs (self w')) = toolbox (attrs (self w)) -> P w -> P w'.

Definition toolbox_is (tb : gmap string Registration) (w : World) : Prop :=
  toolbox (attrs (self w)) = tb.

(** The evaluator, if any, is bound to a frame without a column labelled
    'result' (and not to a generator). *)
Definition fixed_data (tb : gmap string Registration) : Prop :=
  match tb !! "evaluate" with
  | Some r =>
      match function r with
      | eval_helper_on X y => has_column X "result" = false
      | eval_gen _ => False
      | _ => True
      end
  | None => True
  end.

(** The generator after [n] calls without argument. *)
Definition draw (gen : Generator) : Generator := snd (generate gen None).
Definition after_draws (n : nat) (gen : Generator) : Generator := Nat.iter n draw gen.

(** The evaluator is bound to the generator [gen] after [n] calls. *)
Definition drawn (gen : Generator) (n : nat) (w : World) : Prop :=
  exists ds : list Decorator,
    toolbox (attrs (self w)) !! "evaluate" = Some (mkReg (eval_gen (after_draws n gen)) ds).

(** The evaluations counted in the log. *)
Definition total_nevals (logbook : Logbook) : nat := list_sum (List.map snd logbook).

(** The method leaves the toolbox [tb] in place, returning or raising. *)
Definition stays (tb : gmap string Registration) {A} (m : M A) : Prop :=
  hoare (toolbox_is tb) m (fun _ => toolbox_is tb) (toolbox_is tb).

(** From the evaluator's generator after [n] calls, the method leaves it
    after [n] and [cost] of the value more when it returns. *)
Definition draws (gen : Generator) {A} (m : M A) (cost : A -> nat) : Prop :=
  forall n : nat,
    hoare (drawn gen n) m (fun a => drawn gen (n + cost a)) (fun _ => True).

(** * Properties *)

(** ** [get_result]: rows that fail, and the caller's frame *)

Lemma find_setitem_present (label : string) (s : Series) (cols : list (string * Series)) :
  existsb (String.eqb label) (List.map fst cols) = true ->
  List.find (fun c : string * Series => String.eqb label (fst c))
    (List.map (fun c : string * Series =>
            if String.eqb label (fst c) then (fst c, s) else c) cols)
  = Some (label, s).
Proof.
  induction cols as [|[l v] cols IH]; simpl; [discriminate|].
  destruct (String.eqb label l) eqn:E; simpl.
  - intros _. rewrite E. apply String.eqb_eq in E. now subst.
  - intros H. rewrite E. now apply IH.
Qed.

Lemma find_setitem_absent (label : string) (s : Series) (cols : list (string * Series)) :
  existsb (String.eqb label) (List.map fst cols) = false ->
  List.find (fun c : string * Series => String.eqb label (fst c)) (cols ++ [(label, s)])
  = Some (label, s).
Proof.
  induction cols as [|[l v] cols IH]; simpl.
  - intros _. now rewrite String.eqb_refl.
  - destruct (String.eqb label l) eqn:E; simpl; [discriminate|]. exact IH.
Qed.

Lemma getitem_setitem (X : DataFrame) (label : string) (s : Series) :
  getitem (setitem X label s) label = Return s.
Proof.
  unfold getitem, setitem, has_column, labels.
  destruct (existsb _ _) eqn:E; simpl.
  - now rewrite find_setitem_present.
  - now rewrite find_setitem_absent.
Qed.

Lemma has_column_setitem (X : DataFrame) (label : string) (s : Series) :
  has_column (setitem X label s) label = true.
Proof.
  unfold setitem, has_column at 1, labels.
  destruct (has_column X label) eqn:E; simpl.
  - unfold has_column, labels in E. rewrite List.map_map.
    induction (columns X) as [|[l v] cols IH]; simpl in *; [discriminate|].
    destruct (String.eqb label l) eqn:El; simpl; [now rewrite El|].
    rewrite El. simpl. now apply IH.
  - rewrite List.map_app, existsb_app. simpl.
    rewrite String.eqb_refl. now rewrite orb_true_r.
Qed.

Lemma filter_setitem (X : DataFrame) (label : string) (s : Series) :
  List.filter (fun c : string * Series => negb (String.eqb label (fst c)))
    (columns (setitem X label s))
  = List.filter (fun c : string * Series => negb (String.eqb label (fst c))) (columns X).
Proof.
  unfold setitem. destruct (has_column X label); simpl.
  - induction (columns X) as [|[l v] cols IH]; simpl; [reflexivity|].
    destruct (String.eqb label l) eqn:El; simpl; rewrite El; simpl; now rewrite IH.
  - rewrite List.filter_app. simpl. rewrite String.eqb_refl. simpl.
    now rewrite app_nil_r.
Qed.

(** What [get_result] computes: the series of [temp] over the rows, and the
    frame without any column labelled 'result'. *)
Lemma get_result_eq (func : Callable) (X : DataFrame) (y : Series) :
  get_result func X y =
    (Return (apply_rows X (temp func)),
     mkFrame (index X)
       (List.filter (fun c : string * Series => negb (String.eqb "result" (fst c)))
                    (columns X))).
Proof.
  unfold get_result, copy.
  rewrite getitem_setitem.
  unfold drop. rewrite has_column_setitem, filter_setitem.
  f_equal. f_equal. unfold setitem. now destruct (has_column X "result").
Qed.

Lemma _mse_eq (func : Callable) (X : DataFrame) (y : Series) :
  _mse func X y =
    (Return (mean (series_sq (series_sub (apply_rows X (temp func)) y))),
     snd (get_result func X y)).
Proof. unfold _mse. now rewrite get_result_eq. Qed.

Lemma filter_absent (label : string) (cols : list (string * Series)) :
  existsb (String.eqb label) (List.map fst cols) = false ->
  List.filter (fun c : string * Series => negb (String.eqb label (fst c))) cols = cols.
Proof.
  induction cols as [|[l v] cols IH]; simpl; [reflexivity|].
  destruct (String.eqb label l); simpl; [discriminate|].
  intros H. now rewrite IH.
Qed.

Lemma filter_present_shorter (label : string) (cols : list (string * Series)) :
  existsb (String.eqb label) (List.map fst cols) = true ->
  length (List.filter (fun c : string * Series => negb (String.eqb label (fst c))) cols)
  < length cols.
Proof.
  induction cols as [|[l v] cols IH]; simpl; [discriminate|].
  destruct (String.eqb label l); simpl.
  - intros _. pose proof (List.filter_length_le
      (fun c : string * Series => negb (String.eqb label (fst c))) cols). lia.
  - intros H. specialize (IH H). lia.
Qed.

Lemma has_column_filter (label : string) (cols : list (string * Series)) :
  existsb (String.eqb label)
    (List.map fst (List.filter (fun c : string * Series => negb (String.eqb label (fst c))) cols))
  = false.
Proof.
  induction cols as [|[l v] cols IH]; simpl; [reflexivity|].
  destruct (String.eqb label l) eqn:E; simpl; [exact IH|].
  now rewrite E.
Qed.

(** C2. For every compiled function and every row of [X]: a row on which
    the function raises gets the prediction 9999 and a row on which it
    returns gets its value; [get_result] itself returns (it never raises),
    with one prediction per row, and [_mse] returns the mean squared
    difference of exactly these predictions, sentinel included. *)
Theorem get_result_substitutes_sentinel (func : Callable) (X : DataFrame) (y : Series) :
  exists preds : Series,
    fst (get_result func X y) = Return preds /\
    length preds = index X /\
    (forall (i : nat) (row : list num), rows X !! i = Some row ->
       match func row with
       | Raise _ => preds !! i = Some (of_Z 9999)
       | Return val => preds !! i = Some val
       end) /\
    fst (_mse func X y) = Return (mean (series_sq (series_sub preds y))).
Proof.
  exists (apply_rows X (temp func)).
  rewrite get_result_eq, _mse_eq. simpl.
  repeat split.
  - unfold apply_rows, rows. now rewrite !length_map, length_seq.
  - intros i row Hrow. unfold apply_rows.
    change (List.map (temp func) (rows X)) with (temp func <$> rows X).
    unfold Series. rewrite list_lookup_fmap, Hrow. simpl. unfold temp.
    now destruct (func row).
Qed.

Lemma get_result_frame_kept (f : Callable) (X : DataFrame) (y : Series) :
  has_column X "result" = false -> snd (get_result f X y) = X.
Proof.
  intros H. rewrite get_result_eq. cbn [snd].
  unfold has_column, labels in H. rewrite filter_absent by exact H.
  now destruct X.
Qed.

(** C10. When [X] has no column labelled 'result', [get_result] leaves the
    caller's frame exactly as it was; when it has one, the frame afterwards
    has lost it (the other columns are kept, in order), so the call has
    changed the caller's frame. *)
Theorem get_result_frame_effect (func : Callable) (X : DataFrame) (y : Series) :
  let X' := snd (get_result func X y) in
  if has_column X "result"
  then has_column X' "result" = false /\
       X' <> X /\
       index X' = index X /\
       columns X' =
         List.filter (fun c : string * Series => negb (String.eqb "result" (fst c)))
                     (columns X)
  else X' = X.
Proof.
  rewrite get_result_eq. cbv zeta. cbn [snd].
  destruct (has_column X "result") eqn:E; unfold has_column, labels in *;
    cbn [columns index].
  - split; [apply has_column_filter|]. split; [|split; reflexivity].
    intros Heq. apply (f_equal columns) in Heq. cbn [columns] in Heq.
    pose proof (filter_present_shorter "result" (columns X) E) as Hlt.
    rewrite Heq in Hlt. lia.
  - fold (labels X) in E. fold (has_column X "result") in E.
    pose proof (get_result_frame_kept func X y E) as K.
    now rewrite get_result_eq in K.
Qed.

(** ** The two shapes of the fitness *)

(** With a primitive set in place, both evaluators compile the individual,
    store it in [self.func], compute the error and then the penalty. *)
Lemma eval_helper_eq (s : Learner) (ind : Node) (X : DataFrame) (y : Series)
    (ps : PrimitiveSet) :
  pset (attrs s) = Some ps ->
  eval_helper s ind X y =
    let f := compile ind ps in
    let s1 := update_attrs (with_func (Some f)) s in
    let X1 := snd (get_result f X y) in
    let mse := mean (series_sq (series_sub (apply_rows X (temp f)) y)) in
    match add_func s (attrs s1) X1 y with
    | Raise e => (Raise e, s1, X1)
    | Return a => (Return [add mse a], s1, X1)
    end.
Proof.
  intros Hps. unfold eval_helper. rewrite Hps, _mse_eq. reflexivity.
Qed.

Lemma ind_score_eq (s : Learner) (ind : Node) (X : DataFrame) (y : Series)
    (ps : PrimitiveSet) :
  pset (attrs s) = Some ps ->
  ind_score s ind X y =
    let f := compile ind ps in
    let s1 := update_attrs (with_func (Some f)) s in
    let X1 := snd (get_result f X y) in
    let mse := mean (series_sq (series_sub (apply_rows X (temp f)) y)) in
    match add_func s (attrs s1) X1 y with
    | Raise e => (Raise e, s1, X1)
    | Return violation => (Return [mse; violation], s1, X1)
    end.
Proof.
  intros Hps. unfold ind_score. rewrite Hps, _mse_eq. reflexivity.
Qed.

(** C5. For every individual and data set, on a learner with its primitive
    set: when the auxiliary penalty returns [a], the training evaluator
    returns the one-element tuple [(mse + a,)] and the scoring call the
    pair [(mse, a)], for the same [mse]; with the default penalty [a] is
    the constant 0, so training returns [(mse + 0,)], which is [(mse,)]
    as soon as adding the literal 0 leaves a number unchanged. *)
Theorem fitness_shapes (s : Learner) (ind : Node) (X : DataFrame) (y : Series)
    (ps : PrimitiveSet) :
  pset (attrs s) = Some ps ->
  let f := compile ind ps in
  let mse := mean (series_sq (series_sub (apply_rows X (temp f)) y)) in
  (forall a : num,
      add_func s (attrs (update_attrs (with_func (Some f)) s))
                 (snd (get_result f X y)) y = Return a ->
      fst (fst (eval_helper s ind X y)) = Return [add mse a] /\
      fst (fst (ind_score s ind X y)) = Return [mse; a]) /\
  (add_func s = default_add_func ->
      fst (fst (eval_helper s ind X y)) = Return [add mse (of_Z 0)] /\
      fst (fst (ind_score s ind X y)) = Return [mse; of_Z 0] /\
      ((forall x : num, add x (of_Z 0) = x) ->
       fst (fst (eval_helper s ind X y)) = Return [mse])).
Proof.
  intros Hps f mse.
  rewrite (eval_helper_eq s ind X y ps Hps), (ind_score_eq s ind X y ps Hps).
  cbv zeta. fold f. fold mse. split.
  - intros a Ha. rewrite Ha. now split.
  - intros Hdef. rewrite Hdef. unfold default_add_func. cbn [fst].
    repeat split. intros H0. now rewrite H0.
Qed.

(** ** Scoring without a trained model *)

(** C3. [score] never raises: it returns the [int] 0 or a tuple, and a
    tuple it returns is a pair [(mse, penalty)].  Before any successful
    training run it prints that no best model was found and returns the
    [int] 0, leaving the learner and the caller's frame as they were; the
    [int] 0 is a different value from every tuple, the pair [(0, 0)]
    included. *)
Theorem score_before_training (X : DataFrame) (y : Series) (w : World) :
  no_trained_model w ->
  score X y w =
    (Return (PyInt 0),
     mkWorld (self w) (stdout w ++ ["Could not find Best model"]) (random w) (seen w),
     X) /\
  (forall t : list num, PyInt 0 <> PyTuple t) /\
  (forall (X0 : DataFrame) (y0 : Series) (w0 : World),
      fst (fst (score X0 y0 w0)) = Return (PyInt 0) \/
      exists mse penalty : num,
        fst (fst (score X0 y0 w0)) = Return (PyTuple [mse; penalty])).
Proof.
  intros Hno. split; [|split].
  - unfold no_trained_model in Hno. unfold score.
    destruct (hof (attrs (self w))) as [h|]; [|reflexivity].
    unfold hof_getitem. now rewrite Hno.
  - discriminate.
  - intros X0 y0 w0. unfold score.
    destruct (hof (attrs (self w0))) as [h|]; [|now left].
    destruct (hof_getitem h 0) as [best|e]; [|now left].
    unfold ind_score.
    destruct (pset (attrs (self w0))) as [ps|]; [|now left].
    rewrite _mse_eq.
    destruct (add_func _ _ _ _) as [violation|e]; [|now left].
    right. eauto.
Qed.

(** ** Selecting the strategy *)

Lemma algo_dict_keys (key : string) :
  algo_dict !! key =
    if String.eqb key "simple" then Some eaSimple
    else if String.eqb key "mu+lambda" then Some eaMuPlusLambda
    else if String.eqb key "mu,lambda" then Some eaMuCommaLambda
    else None.
Proof.
  unfold algo_dict.
  destruct (String.eqb_spec key "simple") as [->|H1]; [apply lookup_insert_eq|].
  rewrite lookup_insert_ne by congruence.
  destruct (String.eqb_spec key "mu+lambda") as [->|H2]; [apply lookup_insert_eq|].
  rewrite lookup_insert_ne by congruence.
  destruct (String.eqb_spec key "mu,lambda") as [->|H3]; [apply lookup_insert_eq|].
  rewrite lookup_insert_ne by congruence.
  apply lookup_empty.
Qed.

(** C1 (what the code does). For a key of the dictionary [get_algorithm]
    returns its strategy and prints nothing; for every other key it prints
    the message and then raises [AttributeError] at the statement
    [algorithms.ea], so the fall-back to [eaSimple] on the next line is
    never reached. *)
Theorem get_algorithm_unknown_key_raises (key : string) (w : World) :
  match algo_dict !! key with
  | Some a => get_algorithm key w = (Return (Some a), w)
  | None =>
      get_algorithm key w =
        (Raise (AttributeError "ea"),
         mkWorld (self w)
           (stdout w ++ [("Key " ++ key ++
              " not found out of available algorithm options. Using Simple Algorithm")%string])
           (random w) (seen w))
  end.
Proof.
  unfold get_algorithm, get_algorithm_in, mbind.
  destruct (algo_dict !! key) as [a|]; reflexivity.
Qed.

(** With the attribute present in the module, the same function falls back
    to [eaSimple]: the fall-back is what the last line is written for. *)
Lemma get_algorithm_in_falls_back (names : list string) (key : string) (w : World) :
  existsb (String.eqb "ea") names = true ->
  algo_dict !! key = None ->
  fst (get_algorithm_in names key w) = Return (Some eaSimple).
Proof.
  intros Hea Hkey. unfold get_algorithm_in, mbind, print, lift, module_getattr.
  rewrite Hkey, Hea. reflexivity.
Qed.

(** ** Repeated evaluation *)

(** C8 (amended). Two evaluations of the same individual on the same
    frame and target give the same value, whatever else differs between
    the two states of the learner, provided the primitive set and the
    auxiliary penalty are the same, the penalty reads only the compiled
    function, and the frame has no column labelled 'result'. The second
    evaluation runs on the frame as the first one left it, which is the
    frame unchanged. *)
Theorem evaluation_repeatable (s1 s2 : Learner) (ind : Node) (X : DataFrame) (y : Series) :
  pset (attrs s1) = pset (attrs s2) ->
  add_func s1 = add_func s2 ->
  reads_only_func (add_func s1) ->
  has_column X "result" = false ->
  let first := eval_helper s1 ind X y in
  let second := eval_helper s2 ind (snd first) y in
  fst (fst first) = fst (fst second) /\ snd first = X /\ snd second = X.
Proof.
  intros Hps Haux Hread Hcol. cbv zeta.
  destruct (pset (attrs s1)) as [ps|] eqn:E1.
  - rewrite (eval_helper_eq s1 ind X y ps E1). cbv zeta.
    rewrite (get_result_frame_kept _ X y Hcol).
    assert (Hsnd : forall (r : result num) (s : Learner) (mse : num),
              snd (match r with
                   | Raise e => (Raise e, s, X)
                   | Return a => (Return [add mse a], s, X)
                   end) = X) by (intros [a|e] ? ?; reflexivity).
    rewrite Hsnd.
    rewrite (eval_helper_eq s2 ind X y ps (eq_sym Hps)). cbv zeta.
    rewrite (get_result_frame_kept _ X y Hcol), Hsnd.
    split; [|split; reflexivity].
    rewrite <- Haux.
    rewrite (Hread (attrs (update_attrs (with_func (Some (compile ind ps))) s2))
                   (attrs (update_attrs (with_func (Some (compile ind ps))) s1)) X y)
      by reflexivity.
    now destruct (add_func s1 _ X y).
  - unfold eval_helper. rewrite E1. cbn [fst snd]. rewrite <- Hps. now cbn.
Qed.

(** ** The height guard *)

Lemma random_choice_elem {A} (l : list A) (g g' : Rng) (x : A) :
  random_choice l g = (Return x, g') -> x ∈ l.
Proof.
  unfold random_choice. destruct l as [|a l]; [discriminate|].
  destruct (randbelow _ g) as [i g1].
  destruct (_ !! _) as [x'|] eqn:E; [|discriminate].
  intros [= <- <-]. eapply list_elem_of_lookup_2, E.
Qed.

Lemma limit_each_bound (key : Individual -> nat) (max_value : nat)
    (keep_inds new_inds out : list Individual) (g g' : Rng) :
  limit_each key max_value keep_inds new_inds g = (Return out, g') ->
  Forall (fun o => key o <= max_value \/ o ∈ keep_inds) out.
Proof.
  revert out g g'. induction new_inds as [|ind rest IH]; intros out g g'; simpl.
  - intros [= <- <-]. constructor.
  - destruct (max_value <? key ind) eqn:E.
    + destruct (random_choice keep_inds g) as [[parent|e] g1] eqn:Ec; [|discriminate].
      destruct (limit_each key max_value keep_inds rest g1) as [[l|e] g2] eqn:El;
        [|discriminate].
      intros [= <- <-]. constructor.
      * right. eapply random_choice_elem, Ec.
      * eapply IH, El.
    + destruct (limit_each key max_value keep_inds rest g) as [[l|e] g2] eqn:El;
        [|discriminate].
      intros [= <- <-]. constructor.
      * left. apply Nat.ltb_ge in E. exact E.
      * eapply IH, El.
Qed.

(** Whatever the wrapped operator does, every individual the guard lets
    out is within the limit or is one of the arguments. *)
Lemma staticLimit_bound (key : Individual -> nat) (max_value : nat) (func : Operator)
    (args out : list Individual) (g g' : Rng) :
  staticLimit key max_value func args g = (Return out, g') ->
  Forall (fun o => key o <= max_value \/ o ∈ args) out.
Proof.
  unfold staticLimit.
  destruct (func args g) as [[new_inds|e] g1]; [|discriminate].
  apply limit_each_bound.
Qed.

Lemma mbind_Return {A B} (m : M A) (k : A -> M B) (w w' : World) (b : B) :
  mbind m k w = (Return b, w') ->
  exists (a : A) (w1 : World), m w = (Return a, w1) /\ k a w1 = (Return b, w').
Proof.
  unfold mbind. destruct (m w) as [[a|e] w1]; [|discriminate].
  intros H. now exists a, w1.
Qed.

(** After [reg_mutation], 'mutate' is [mutUniform] behind the guard at 17. *)
Lemma reg_mutation_registers (w w' : World) :
  reg_mutation w = (Return tt, w') ->
  exists ps : PrimitiveSet,
    toolbox (attrs (self w')) !! "mutate" =
      Some (mkReg (mutUniform (genFull 0 2) ps) [staticLimit_height 17]).
Proof.
  unfold reg_mutation, toolbox_register, toolbox_decorate, toolbox_get,
    getattr, gets, modify_attrs, mbind, mret, mraise, register.
  world_simpl. rewrite lookup_insert_eq. world_simpl.
  destruct (pset (attrs (self w))) as [ps|]; [|discriminate].
  world_simpl. rewrite lookup_insert_eq. world_simpl.
  intros [= <-]. exists ps. world_simpl.
  now rewrite lookup_insert_eq.
Qed.

(** [reg_mating] registers 'mate' as [cxOnePoint] behind the guard at 17
    and keeps 'mutate'. *)
Lemma reg_mating_registers (w w' : World) :
  reg_mating w = (Return tt, w') ->
  toolbox (attrs (self w')) !! "mate" = Some (mkReg cxOnePoint [staticLimit_height 17]) /\
  toolbox (attrs (self w')) !! "mutate" = toolbox (attrs (self w)) !! "mutate".
Proof.
  unfold reg_mating, toolbox_register, toolbox_decorate, toolbox_get,
    gets, modify_attrs, mbind, mret, mraise, register.
  world_simpl. rewrite lookup_insert_eq. world_simpl.
  intros [= <-]. world_simpl.
  split; [now rewrite lookup_insert_eq|].
  now rewrite !lookup_insert_ne by discriminate.
Qed.

Lemma invariant_build_model_registers (arity tournsize : nat) (w w' : World) :
  invariant_build_model arity tournsize w = (Return tt, w') ->
  toolbox (attrs (self w')) !! "mate" = Some (mkReg cxOnePoint [staticLimit_height 17]) /\
  exists ps : PrimitiveSet,
    toolbox (attrs (self w')) !! "mutate" =
      Some (mkReg (mutUniform (genFull 0 2) ps) [staticLimit_height 17]).
Proof.
  unfold invariant_build_model. intros H.
  apply mbind_Return in H as (? & w1 & _ & H).
  apply mbind_Return in H as (? & w2 & _ & H).
  apply mbind_Return in H as (? & w3 & _ & H).
  apply mbind_Return in H as (? & w4 & _ & H).
  apply mbind_Return in H as ([] & w5 & Hmut & Hmate).
  apply reg_mutation_registers in Hmut as [ps Hmut].
  apply reg_mating_registers in Hmate as [Hmate Hkeep].
  split; [exact Hmate|]. exists ps. now rewrite Hkeep.
Qed.

(** What the two registrations give, on any toolbox that has them. *)
Lemma guarded_operators_bound (tb : gmap string Registration) (ps : PrimitiveSet) :
  tb !! "mate" = Some (mkReg cxOnePoint [staticLimit_height 17]) ->
  tb !! "mutate" = Some (mkReg (mutUniform (genFull 0 2) ps) [staticLimit_height 17]) ->
  (forall (ind : Individual) (g g' : Rng) (out : list Individual),
      toolbox_mutate tb ind g = (Return out, g') ->
      Forall (fun o => height (tree o) <= 17 \/ o = ind) out) /\
  (forall (ind1 ind2 : Individual) (g g' : Rng) (out : list Individual),
      toolbox_mate tb ind1 ind2 g = (Return out, g') ->
      Forall (fun o => height (tree o) <= 17 \/ o = ind1 \/ o = ind2) out).
Proof.
  intros Hmate Hmut. split.
  - intros ind g g' out. unfold toolbox_mutate. rewrite Hmut.
    cbn [function decorators decorated fold_left apply_decorator].
    intros H. apply staticLimit_bound in H.
    eapply Forall_impl; [exact H|]. intros o [Ho|Ho]; [now left|right].
    now apply list_elem_of_singleton in Ho.
  - intros ind1 ind2 g g' out. unfold toolbox_mate. rewrite Hmate.
    cbn [function decorators decorated fold_left apply_decorator].
    intros H. apply staticLimit_bound in H.
    eapply Forall_impl; [exact H|]. intros o [Ho|Ho]; [now left|right].
    apply elem_of_cons in Ho as [Ho|Ho]; [now left|right].
    now apply list_elem_of_singleton in Ho.
Qed.

(** C4. On a built model, every individual that [toolbox.mutate] or
    [toolbox.mate] returns has height at most 17 or is one of the parents
    it was called with, unchanged (the guard replaced an offspring over the
    limit); so offspring of parents of height at most 17 have height at
    most 17, and from founders of height at most 17 (the generator of the
    first population is registered with [max_=2]) every individual a run
    can hold, every offspring included, has height at most 17. *)
Theorem offspring_height_bound (arity tournsize : nat) (w w' : World) :
  invariant_build_model arity tournsize w = (Return tt, w') ->
  let tb := toolbox (attrs (self w')) in
  (forall (ind : Individual) (g g' : Rng) (out : list Individual),
      toolbox_mutate tb ind g = (Return out, g') ->
      Forall (fun o => height (tree o) <= 17 \/ o = ind) out /\
      (height (tree ind) <= 17 -> Forall (fun o => height (tree o) <= 17) out)) /\
  (forall (ind1 ind2 : Individual) (g g' : Rng) (out : list Individual),
      toolbox_mate tb ind1 ind2 g = (Return out, g') ->
      Forall (fun o => height (tree o) <= 17 \/ o = ind1 \/ o = ind2) out /\
      (height (tree ind1) <= 17 -> height (tree ind2) <= 17 ->
       Forall (fun o => height (tree o) <= 17) out)) /\
  (forall founders : list Individual,
      Forall (fun i => height (tree i) <= 17) founders ->
      forall i : Individual, bred tb founders i -> height (tree i) <= 17).
Proof.
  intros Hbuild tb.
  apply invariant_build_model_registers in Hbuild as [Hmate [ps Hmut]].
  fold tb in Hmate, Hmut.
  destruct (guarded_operators_bound tb ps Hmate Hmut) as [Gmut Gmate].
  split; [|split].
  - intros ind g g' out H. specialize (Gmut ind g g' out H).
    split; [exact Gmut|]. intros Hind.
    eapply Forall_impl; [exact Gmut|]. intros o [Ho| ->]; assumption.
  - intros ind1 ind2 g g' out H. specialize (Gmate ind1 ind2 g g' out H).
    split; [exact Gmate|]. intros H1 H2.
    eapply Forall_impl; [exact Gmate|]. intros o [Ho|[->| ->]]; assumption.
  - intros founders Hfounders i Hi.
    induction Hi as [i Hin|parent o g g' out _ IH Hcall Hin
                    |parent1 parent2 o g g' out _ IH1 _ IH2 Hcall Hin
                    |i values _ IH].
    + rewrite Forall_forall in Hfounders. now apply Hfounders.
    + specialize (Gmut parent g g' out Hcall). rewrite Forall_forall in Gmut.
      destruct (Gmut o Hin) as [Ho| ->]; assumption.
    + specialize (Gmate parent1 parent2 g g' out Hcall). rewrite Forall_forall in Gmate.
      destruct (Gmate o Hin) as [Ho|[->| ->]]; assumption.
    + exact IH.
Qed.

(** ** The hall of fame through a training run *)

Lemma keeps_mret {A} (a : A) : keeps_hof (mret a).
Proof. now intros w. Qed.

Lemma keeps_mraise {A} (e : exn) : keeps_hof (@mraise A e).
Proof. now intros w. Qed.

Lemma keeps_lift {A} (r : result A) : keeps_hof (lift r).
Proof. now intros w. Qed.

Lemma keeps_mbind {A B} (m : M A) (k : A -> M B) :
  keeps_hof m -> (forall a, keeps_hof (k a)) -> keeps_hof (mbind m k).
Proof.
  intros Hm Hk w. unfold mbind. specialize (Hm w).
  destruct (m w) as [[a|e] w1]; cbn [snd] in *; [|exact Hm].
  now rewrite Hk.
Qed.

Lemma keeps_print (line : string) : keeps_hof (print line).
Proof. now intros w. Qed.

Lemma keeps_gets {A} (field : Attributes -> A) : keeps_hof (gets field).
Proof. now intros w. Qed.

Lemma keeps_getattr {A} (name : string) (field : Attributes -> option A) :
  keeps_hof (getattr name field).
Proof.
  apply keeps_mbind; [apply keeps_gets|].
  intros [v|]; [apply keeps_mret|apply keeps_mraise].
Qed.

Lemma keeps_toolbox_get (alias : string) : keeps_hof (toolbox_get alias).
Proof.
  apply keeps_mbind; [apply keeps_gets|].
  intros [r|]; [apply keeps_mret|apply keeps_mraise].
Qed.

Lemma keeps_with_random {A} (f : Rng -> A * Rng) : keeps_hof (with_random f).
Proof. intros w. unfold with_random. now destruct (f (random w)). Qed.

Lemma keeps_with_random_result {A} (f : Rng -> result A * Rng) :
  keeps_hof (with_random_result f).
Proof. intros w. unfold with_random_result. now destruct (f (random w)). Qed.

Lemma eval_helper_hof (s : Learner) (ind : Node) (X : DataFrame) (y : Series) :
  hof (attrs (snd (fst (eval_helper s ind X y)))) = hof (attrs s).
Proof.
  unfold eval_helper. destruct (pset (attrs s)); [|reflexivity].
  destruct (_mse _ X y) as [[mse|e] X1]; [|reflexivity].
  now destruct (add_func _ _ _ _).
Qed.

Lemma keeps_toolbox_evaluate (ind : Node) : keeps_hof (toolbox_evaluate ind).
Proof.
  apply keeps_mbind; [apply keeps_toolbox_get|].
  intros r w. unfold hof_view.
  destruct (function r); try reflexivity.
  - pose proof (eval_helper_hof (self w) ind X y) as H.
    destruct (eval_helper (self w) ind X y) as [[v s1] X1].
    cbn [fst snd] in *. world_simpl. now rewrite H.
  - destruct (generate gen None) as [[X y] gen1].
    pose proof (eval_helper_hof (self w) ind X y) as H.
    destruct (eval_helper (self w) ind X y) as [[v s1] X1].
    cbn [fst snd] in *. world_simpl. now rewrite H.
Qed.

Lemma keeps_evaluate_invalid (population : list Individual) :
  keeps_hof (evaluate_invalid population).
Proof.
  induction population as [|ind rest IH]; simpl; [apply keeps_mret|].
  destruct (valid ind).
  - apply keeps_mbind; [exact IH|]. intros; apply keeps_mret.
  - apply keeps_mbind; [apply keeps_toolbox_evaluate|]. intros.
    apply keeps_mbind; [exact IH|]. intros; apply keeps_mret.
Qed.

Lemma keeps_toolbox_select (population : list Individual) (k : nat) :
  keeps_hof (toolbox_select population k).
Proof.
  apply keeps_mbind; [apply keeps_toolbox_get|].
  intros r. destruct (function r);
    first [apply keeps_mraise | apply keeps_with_random].
Qed.

Lemma keeps_log_record (gen nevals : nat) (logbook : Logbook) :
  keeps_hof (log_record gen nevals logbook).
Proof.
  apply keeps_mbind; [apply keeps_gets|]. intros v.
  apply keeps_mbind; [|intros; apply keeps_mret].
  destruct v; [apply keeps_print|apply keeps_mret].
Qed.

Lemma keeps_get_algorithm (key : string) : keeps_hof (get_algorithm key).
Proof.
  apply keeps_mbind; [|intros; apply keeps_mret].
  destruct (algo_dict !! key); [apply keeps_mret|].
  apply keeps_mbind; [apply keeps_print|intros; apply keeps_lift].
Qed.

Lemma keeps_hof_tracking {A} (m : M A) : keeps_hof m -> keeps_tracking m.
Proof.
  intros H w (h & Hh & Hhist). specialize (H w). unfold hof_view in H.
  injection H as H1 H2. exists h. now rewrite H1, H2.
Qed.

Lemma tracking_mbind {A B} (m : M A) (k : A -> M B) :
  keeps_tracking m -> (forall a, keeps_tracking (k a)) -> keeps_tracking (mbind m k).
Proof.
  intros Hm Hk w Hw. unfold mbind. specialize (Hm w Hw).
  destruct (m w) as [[a|e] w1]; cbn [snd] in *; [|exact Hm].
  now apply Hk.
Qed.

Lemma tracking_halloffame_update (population : list Individual) :
  keeps_tracking (halloffame_update population).
Proof.
  intros w (h & Hh & Hhist).
  unfold halloffame_update, getattr, gets, mbind, mret, lift,
    modify_attrs, record_seen.
  rewrite Hh.
  destruct (hof_update h population) as [h1|e] eqn:E; cbn [snd].
  - exists h1. world_simpl. split; [reflexivity|].
    unfold hof_history in *. cbn [rev]. rewrite fold_left_app. cbn [fold_left].
    now rewrite Hhist.
  - now exists h.
Qed.

Lemma tracking_ea_start (population : list Individual) :
  keeps_tracking (ea_start population).
Proof.
  apply tracking_mbind; [apply keeps_hof_tracking, keeps_evaluate_invalid|]. intros r.
  apply tracking_mbind; [apply tracking_halloffame_update|]. intros _.
  apply tracking_mbind; [apply keeps_hof_tracking, keeps_log_record|]. intros.
  apply keeps_hof_tracking, keeps_mret.
Qed.

Lemma tracking_ea_generation (algo : Algo) (population : list Individual) :
  keeps_tracking (ea_generation algo population).
Proof.
  apply tracking_mbind; [apply keeps_hof_tracking, keeps_gets|]. intros cxpb.
  apply tracking_mbind; [apply keeps_hof_tracking, keeps_gets|]. intros mutpb.
  apply tracking_mbind; [apply keeps_hof_tracking, keeps_gets|]. intros tb.
  apply tracking_mbind.
  { apply keeps_hof_tracking.
    destruct algo; [|apply keeps_with_random_result..].
    apply keeps_mbind; [apply keeps_toolbox_select|].
    intros; apply keeps_with_random_result. }
  intros offspring.
  apply tracking_mbind; [apply keeps_hof_tracking, keeps_evaluate_invalid|]. intros r.
  apply tracking_mbind; [apply tracking_halloffame_update|]. intros _.
  apply tracking_mbind; [|intros; apply keeps_hof_tracking, keeps_mret].
  apply keeps_hof_tracking.
  destruct algo; first [apply keeps_mret | apply keeps_toolbox_select].
Qed.

Lemma tracking_ea_generations (algo : Algo) (gens : list nat)
    (population : list Individual) (logbook : Logbook) :
  keeps_tracking (ea_generations algo gens population logbook).
Proof.
  revert population logbook.
  induction gens as [|gen rest IH]; intros population logbook; simpl.
  - apply keeps_hof_tracking, keeps_mret.
  - apply tracking_mbind; [apply tracking_ea_generation|]. intros r.
    apply tracking_mbind; [apply keeps_hof_tracking, keeps_log_record|]. intros.
    apply IH.
Qed.

Lemma tracking_run_algorithm (algo : option Algo) (population : list Individual) :
  keeps_tracking (run_algorithm algo population).
Proof.
  destruct algo as [algo|]; [|apply keeps_hof_tracking, keeps_mraise].
  apply tracking_mbind; [apply keeps_hof_tracking, keeps_gets|]. intros ngen.
  apply tracking_mbind.
  { apply keeps_hof_tracking. destruct algo; apply keeps_mret. }
  intros _.
  apply tracking_mbind; [apply tracking_ea_start|]. intros r.
  apply tracking_ea_generations.
Qed.

(** Whatever [train] does after creating the hall of fame, the hall of
    fame of the learner stays the one its history gives. *)
Lemma train_tracks (w : World) : tracks (snd (train w)).
Proof.
  assert (Hrest : forall k : M (list Individual * Logbook),
            keeps_tracking k -> tracks (snd ((do* new_hof in k) w))).
  { intros k Hk. unfold mbind, new_hof. apply Hk. eexists. split; reflexivity. }
  apply Hrest.
  apply tracking_mbind; [apply keeps_hof_tracking, keeps_gets|]. intros key.
  apply tracking_mbind; [apply keeps_hof_tracking, keeps_get_algorithm|]. intros algo.
  apply tracking_mbind; [apply keeps_hof_tracking, keeps_toolbox_get|]. intros f.
  apply tracking_mbind; [apply keeps_hof_tracking, keeps_gets|]. intros size.
  apply tracking_mbind; [apply keeps_hof_tracking, keeps_with_random_result|].
  intros population. apply tracking_run_algorithm.
Qed.

(** *** What a hall of fame of size 1 holds *)

Lemma hof_update_step_holder (population : list Individual) (b ind : Individual) :
  hof_update_step population (mkHof 1 [b]) ind = Return (mkHof 1 [keep_better b ind]).
Proof.
  unfold hof_update_step, keep_better. cbn.
  rewrite !orb_false_r.
  destruct (fitness_gt ind b); cbn; [|reflexivity].
  destruct (tree_eqb (tree ind) (tree b)); reflexivity.
Qed.

Lemma hof_update_holder (population inds : list Individual) (b : Individual) :
  fold_left (fun acc ind => rbind acc (fun h' => hof_update_step population h' ind))
            inds (Return (mkHof 1 [b]))
  = Return (mkHof 1 [fold_left keep_better inds b]).
Proof.
  revert b. induction inds as [|ind rest IH]; intros b; [reflexivity|].
  cbn [fold_left rbind]. rewrite hof_update_step_holder. apply IH.
Qed.

Lemma hof_update_empty (p0 : Individual) (rest : list Individual) :
  hof_update (mkHof 1 []) (p0 :: rest) = Return (mkHof 1 [fold_left keep_better rest p0]).
Proof.
  unfold hof_update. cbn [fold_left rbind].
  change (hof_update_step (p0 :: rest) (mkHof 1 []) p0) with (Return (mkHof 1 [p0])).
  apply hof_update_holder.
Qed.

(** ** [fit] from any prior state *)

Lemma related_mret (R : World -> World -> Prop) {A} (a : A) : related R R (mret a).
Proof. intros w1 w2 H. now split. Qed.

Lemma related_mraise (R Q : World -> World -> Prop) {A} (e : exn) :
  related R Q (@mraise A e).
Proof. intros w1 w2 H. split; [reflexivity|]. intros [a Ha]. discriminate. Qed.

Lemma related_lift (R : World -> World -> Prop) {A} (r : result A) :
  related R R (lift r).
Proof. intros w1 w2 H. now split. Qed.

Lemma related_mbind (R Q S : World -> World -> Prop) {A B} (m : M A) (k : A -> M B) :
  related R Q m -> (forall a, related Q S (k a)) -> related R S (mbind m k).
Proof.
  intros Hm Hk w1 w2 H. unfold mbind.
  destruct (Hm w1 w2 H) as [Hr Hq].
  destruct (m w1) as [[a|e] w1'], (m w2) as [[a'|e'] w2']; cbn [fst snd] in *;
    try discriminate.
  - injection Hr as <-. apply Hk, Hq. now exists a.
  - injection Hr as <-. split; [reflexivity|]. intros [b Hb]. discriminate.
Qed.

Lemma related_gets (R : World -> World -> Prop) {A} (field : Attributes -> A) :
  (forall w1 w2, R w1 w2 -> field (attrs (self w1)) = field (attrs (self w2))) ->
  related R R (gets field).
Proof.
  intros Hf w1 w2 H. unfold gets. cbn [fst snd]. split; [|auto].
  now rewrite (Hf w1 w2 H).
Qed.

Lemma related_print (f p h : bool) (line : string) :
  related (agree f p h) (agree f p h) (print line).
Proof. intros w1 w2 H. unfold print. cbn [fst snd]. split; [reflexivity|]. agree_tac. Qed.

Lemma related_with_random (f p h : bool) {A} (draw : Rng -> A * Rng) :
  related (agree f p h) (agree f p h) (with_random draw).
Proof.
  intros w1 w2 H. unfold with_random.
  assert (Hr : random w1 = random w2) by agree_tac. rewrite Hr.
  destruct (draw (random w2)) as [a g]. cbn [fst snd]. split; [reflexivity|]. agree_tac.
Qed.

Lemma related_with_random_result (f p h : bool) {A} (draw : Rng -> result A * Rng) :
  related (agree f p h) (agree f p h) (with_random_result draw).
Proof.
  intros w1 w2 H. unfold with_random_result.
  assert (Hr : random w1 = random w2) by agree_tac. rewrite Hr.
  destruct (draw (random w2)) as [a g]. cbn [fst snd]. split; [reflexivity|]. agree_tac.
Qed.

Lemma related_toolbox_get (f p h : bool) (alias : string) :
  related (agree f p h) (agree f p h) (toolbox_get alias).
Proof.
  eapply related_mbind.
  - apply related_gets. intros w1 w2 H.
    assert (Ht : toolbox (attrs (self w1)) = toolbox (attrs (self w2))) by agree_tac.
    now rewrite Ht.
  - intros [r|]; [apply related_mret|apply related_mraise].
Qed.

Lemma related_toolbox_register (f p h : bool) (alias : string) (fn : Function) :
  related (agree f p h) (agree f p h) (toolbox_register alias fn).
Proof.
  intros w1 w2 H. unfold toolbox_register, modify_attrs. cbn [fst snd].
  split; [reflexivity|]. intros _. agree_tac.
Qed.

Lemma related_toolbox_decorate (f p h : bool) (alias : string) (d : Decorator) :
  related (agree f p h) (agree f p h) (toolbox_decorate alias d).
Proof.
  eapply related_mbind; [apply related_toolbox_get|].
  intros r w1 w2 H. unfold modify_attrs. cbn [fst snd].
  split; [reflexivity|]. intros _. agree_tac.
Qed.

Lemma related_getattr_Fitness (p h : bool) :
  related (agree true p h) (agree true p h) (getattr "Fitness" Fitness).
Proof.
  eapply related_mbind.
  - apply related_gets. intros w1 w2 H. agree_tac.
  - intros [v|]; [apply related_mret|apply related_mraise].
Qed.

Lemma related_getattr_pset (f h : bool) :
  related (agree f true h) (agree f true h) (getattr "pset" pset).
Proof.
  eapply related_mbind.
  - apply related_gets. intros w1 w2 H. agree_tac.
  - intros [v|]; [apply related_mret|apply related_mraise].
Qed.

Lemma related_getattr_hof (f p : bool) :
  related (agree f p true) (agree f p true) (getattr "hof" hof).
Proof.
  eapply related_mbind.
  - apply related_gets. intros w1 w2 H. agree_tac.
  - intros [v|]; [apply related_mret|apply related_mraise].
Qed.

Lemma related_gets_config (f p h : bool) {A} (field : Config -> A) :
  related (agree f p h) (agree f p h) (gets (fun a => field (config a))).
Proof.
  apply related_gets. intros w1 w2 H.
  assert (Hc : config (attrs (self w1)) = config (attrs (self w2))) by agree_tac.
  now rewrite Hc.
Qed.

(** *** The build phase *)

Lemma related_create_fitness (f p h : bool) :
  related (agree f p h) (agree true p h) create_fitness.
Proof.
  intros w1 w2 H. unfold create_fitness, modify_attrs. cbn [fst snd].
  split; [reflexivity|]. intros _. agree_tac.
Qed.

Lemma related_add_primitives (f h : bool) (names : list string) :
  related (agree f true h) (agree f true h) (add_primitives names).
Proof.
  induction names as [|name rest IH]; simpl; [apply related_mret|].
  destruct (func_dict !! name) as [prim|]; [|apply related_mraise].
  eapply related_mbind; [|intros _; exact IH].
  intros w1 w2 H. unfold modify_attrs. cbn [fst snd].
  split; [reflexivity|]. intros _.
  assert (Hp : pset (attrs (self w1)) = pset (attrs (self w2))) by agree_tac.
  unfold agree, same_setup in *. world_simpl. rewrite Hp. agree_tac.
Qed.

Lemma related_create_and_reg_individual (p h : bool) (problem_arity : nat) :
  related (agree true p h) (agree true true h) (create_and_reg_individual problem_arity).
Proof.
  unfold create_and_reg_individual.
  eapply related_mbind.
  { intros w1 w2 H. unfold modify_attrs. cbn [fst snd].
    split; [reflexivity|]. intros _. instantiate (1 := agree true true h). agree_tac. }
  intros _. eapply related_mbind; [apply (related_gets_config _ _ _ func_list)|].
  intros names. eapply related_mbind; [apply related_add_primitives|].
  intros _. eapply related_mbind; [apply related_getattr_Fitness|].
  intros _. eapply related_mbind; [apply related_getattr_pset|].
  intros ps. eapply related_mbind; [apply related_toolbox_register|].
  intros _. eapply related_mbind; [apply related_toolbox_get|].
  intros expr. apply related_toolbox_register.
Qed.

Lemma related_create_and_reg_population (f p h : bool) :
  related (agree f p h) (agree f p h) create_and_reg_population.
Proof.
  eapply related_mbind; [apply related_toolbox_get|].
  intros individual. apply related_toolbox_register.
Qed.

Lemma related_reg_mutation (f h : bool) :
  related (agree f true h) (agree f true h) reg_mutation.
Proof.
  eapply related_mbind; [apply related_toolbox_register|].
  intros _. eapply related_mbind; [apply related_toolbox_get|].
  intros expr_mut. eapply related_mbind; [apply related_getattr_pset|].
  intros ps. eapply related_mbind; [apply related_toolbox_register|].
  intros _. apply related_toolbox_decorate.
Qed.

Lemma related_reg_mating (f p h : bool) :
  related (agree f p h) (agree f p h) reg_mating.
Proof.
  eapply related_mbind; [apply related_toolbox_register|].
  intros _. apply related_toolbox_decorate.
Qed.

Lemma related_invariant_build_model (f p h : bool) (arity tournsize : nat) :
  related (agree f p h) (agree true true h) (invariant_build_model arity tournsize).
Proof.
  eapply related_mbind; [apply related_create_fitness|].
  intros _. eapply related_mbind; [apply related_create_and_reg_individual|].
  intros _. eapply related_mbind; [apply related_create_and_reg_population|].
  intros _. eapply related_mbind; [apply related_toolbox_register|].
  intros _. eapply related_mbind; [apply related_reg_mutation|].
  intros _. apply related_reg_mating.
Qed.

Lemma related_build_model (f p h : bool) (X : DataFrame) (y : Series) (tournsize : nat) :
  related (agree f p h) (agree true true h) (build_model X y tournsize).
Proof.
  eapply related_mbind; [apply related_invariant_build_model|].
  intros _. apply related_toolbox_register.
Qed.

Lemma related_build_gen_model (f p h : bool) (generator : Generator) (tournsize : nat) :
  related (agree f p h) (agree true true h) (build_gen_model generator tournsize).
Proof.
  unfold build_gen_model.
  destruct (generate generator (Some 1)) as [[smallx smally] generator'].
  eapply related_mbind; [apply related_invariant_build_model|].
  intros _. apply related_toolbox_register.
Qed.

(** [reset] always returns, with a new toolbox; what it prints and which
    attributes it deletes depend on the state it starts from. *)
Lemma reset_returns (w : World) :
  fst (reset w) = Return tt /\
  toolbox (attrs (self (snd (reset w)))) = Toolbox_new /\
  same_setup (snd (reset w)) w.
Proof.
  unfold reset, try_except, delattr, getattr, gets, modify_attrs, mbind, mret,
    mraise, print.
  world_simpl.
  destruct (Fitness (attrs (self w))); world_simpl;
    [destruct (pset (attrs (self w))); world_simpl;
       [destruct (hof (attrs (self w))); world_simpl|]|];
    repeat split.
Qed.

(** On a learner that has all three, [reset] deletes the fitness class, the
    primitive set and the hall of fame, and prints nothing. *)
Lemma reset_discards (w : World) :
  is_Some (Fitness (attrs (self w))) ->
  is_Some (pset (attrs (self w))) ->
  is_Some (hof (attrs (self w))) ->
  reset w =
    (Return tt,
     mkWorld
       (update_attrs
          (fun a => with_hof None (with_pset None (with_Fitness None
                      (with_toolbox Toolbox_new a)))) (self w))
       (stdout w) (random w) (seen w)).
Proof.
  intros [f Hf] [ps Hps] [h Hh].
  unfold reset, try_except, delattr, getattr, gets, modify_attrs, mbind, mret,
    mraise, print.
  world_simpl. rewrite Hf. world_simpl. rewrite Hps. world_simpl. rewrite Hh.
  reflexivity.
Qed.

Lemma related_reset : related same_setup (agree false false false) reset.
Proof.
  intros w1 w2 H.
  destruct (reset_returns w1) as (R1 & T1 & S1), (reset_returns w2) as (R2 & T2 & S2).
  split; [congruence|]. intros _.
  unfold agree, same_setup in *. rewrite T1, T2.
  destruct H as (? & ? & ?), S1 as (? & ? & ?), S2 as (? & ? & ?).
  repeat split; try congruence; discriminate.
Qed.

(** *** The training phase *)

Lemma eval_helper_agree (s1 s2 : Learner) (ind : Node) (X : DataFrame) (y : Series) :
  learners_agree s1 s2 ->
  fst (fst (eval_helper s1 ind X y)) = fst (fst (eval_helper s2 ind X y)) /\
  snd (eval_helper s1 ind X y) = snd (eval_helper s2 ind X y) /\
  learners_agree (snd (fst (eval_helper s1 ind X y))) (snd (fst (eval_helper s2 ind X y))).
Proof.
  intros (Hc & Ht & Hf & Hp & Hh & Ha).
  unfold eval_helper. rewrite <- Hp.
  destruct (pset (attrs s1)) as [ps|] eqn:Eps;
    [|cbn [fst snd]; repeat split; congruence].
  rewrite _mse_eq.
  assert (E : attrs (update_attrs (with_func (Some (compile ind ps))) s1)
            = attrs (update_attrs (with_func (Some (compile ind ps))) s2)).
  { destruct s1 as [[c1 t1 f1 p1 h1 u1] a1], s2 as [[c2 t2 f2 p2 h2 u2] a2].
    cbn in *. unfold with_func. cbn. congruence. }
  cbn [update_attrs add_func]. cbn [update_attrs] in E. rewrite E, Ha.
  destruct (add_func s2 _ _ y); cbn [fst snd attrs];
    repeat split; cbn [attrs add_func]; try assumption;
    now (injection E; intros; subst).
Qed.

Lemma related_toolbox_evaluate (ind : Node) :
  related (agree true true true) (agree true true true) (toolbox_evaluate ind).
Proof.
  eapply related_mbind; [apply related_toolbox_get|].
  intros r.
  destruct (function r); try (now apply related_mraise); intros w1 w2 H;
    assert (Hs : learners_agree (self w1) (self w2))
      by (unfold learners_agree; agree_tac).
  - destruct (eval_helper_agree (self w1) (self w2) ind X y Hs) as (Hv & HX & Hl).
    destruct (eval_helper (self w1) ind X y) as [[v1 s1] X1],
             (eval_helper (self w2) ind X y) as [[v2 s2] X2].
    cbn [fst snd] in *. subst. split; [reflexivity|]. intros _.
    unfold learners_agree in Hl. agree_tac.
  - destruct (generate gen None) as [[X y] gen1].
    destruct (eval_helper_agree (self w1) (self w2) ind X y Hs) as (Hv & HX & Hl).
    destruct (eval_helper (self w1) ind X y) as [[v1 s1] X1],
             (eval_helper (self w2) ind X y) as [[v2 s2] X2].
    cbn [fst snd] in *. subst. split; [reflexivity|]. intros _.
    unfold learners_agree in Hl. agree_tac.
Qed.

Lemma related_evaluate_invalid (population : list Individual) :
  related (agree true true true) (agree true true true) (evaluate_invalid population).
Proof.
  induction population as [|ind rest IH]; simpl; [apply related_mret|].
  destruct (valid ind).
  - eapply related_mbind; [exact IH|]. intros; apply related_mret.
  - eapply related_mbind; [apply related_toolbox_evaluate|]. intros fit0.
    eapply related_mbind; [exact IH|]. intros; apply related_mret.
Qed.

Lemma related_halloffame_update (f p : bool) (population : list Individual) :
  related (agree f p true) (agree f p true) (halloffame_update population).
Proof.
  eapply related_mbind; [apply related_getattr_hof|]. intros h.
  eapply related_mbind; [apply related_lift|]. intros h1.
  eapply related_mbind.
  - intros w1 w2 H. unfold modify_attrs. cbn [fst snd].
    split; [reflexivity|]. intros _. instantiate (1 := agree f p true). agree_tac.
  - intros _ w1 w2 H. unfold record_seen. cbn [fst snd].
    split; [reflexivity|]. intros _. agree_tac.
Qed.

Lemma related_toolbox_select (f p h : bool) (population : list Individual) (k : nat) :
  related (agree f p h) (agree f p h) (toolbox_select population k).
Proof.
  eapply related_mbind; [apply related_toolbox_get|].
  intros r. destruct (function r);
    first [apply related_mraise | apply related_with_random].
Qed.

Lemma related_log_record (f p h : bool) (gen nevals : nat) (logbook : Logbook) :
  related (agree f p h) (agree f p h) (log_record gen nevals logbook).
Proof.
  eapply related_mbind; [apply (related_gets_config _ _ _ verbose)|]. intros v.
  eapply related_mbind; [|intros; apply related_mret].
  destruct v; [apply related_print|apply related_mret].
Qed.

Lemma related_get_algorithm (f p h : bool) (key : string) :
  related (agree f p h) (agree f p h) (get_algorithm key).
Proof.
  eapply related_mbind; [|intros; apply related_mret].
  destruct (algo_dict !! key); [apply related_mret|].
  eapply related_mbind; [apply related_print|intros; apply related_lift].
Qed.

Lemma related_ea_start (population : list Individual) :
  related (agree true true true) (agree true true true) (ea_start population).
Proof.
  eapply related_mbind; [apply related_evaluate_invalid|]. intros r.
  eapply related_mbind; [apply related_halloffame_update|]. intros _.
  eapply related_mbind; [apply related_log_record|]. intros.
  apply related_mret.
Qed.

Lemma related_ea_generation (algo : Algo) (population : list Individual) :
  related (agree true true true) (agree true true true) (ea_generation algo population).
Proof.
  eapply related_mbind; [apply (related_gets_config _ _ _ crossover_prob)|]. intros cxpb.
  eapply related_mbind; [apply (related_gets_config _ _ _ mutation_prob)|]. intros mutpb.
  eapply related_mbind.
  { apply related_gets. intros w1 w2 H. agree_tac. }
  intros tb. eapply related_mbind.
  { destruct algo; [|apply related_with_random_result..].
    eapply related_mbind; [apply related_toolbox_select|].
    intros; apply related_with_random_result. }
  intros offspring.
  eapply related_mbind; [apply related_evaluate_invalid|]. intros r.
  eapply related_mbind; [apply related_halloffame_update|]. intros _.
  eapply related_mbind; [|intros; apply related_mret].
  destruct algo; first [apply related_mret | apply related_toolbox_select].
Qed.

Lemma related_ea_generations (algo : Algo) (gens : list nat)
    (population : list Individual) (logbook : Logbook) :
  related (agree true true true) (agree true true true)
          (ea_generations algo gens population logbook).
Proof.
  revert population logbook.
  induction gens as [|gen rest IH]; intros population logbook; simpl.
  - apply related_mret.
  - eapply related_mbind; [apply related_ea_generation|]. intros r.
    eapply related_mbind; [apply related_log_record|]. intros.
    apply IH.
Qed.

Lemma related_run_algorithm (algo : option Algo) (population : list Individual) :
  related (agree true true true) (agree true true true) (run_algorithm algo population).
Proof.
  destruct algo as [algo|]; [|apply related_mraise].
  eapply related_mbind; [apply (related_gets_config _ _ _ ngens)|]. intros ngen.
  eapply related_mbind.
  { instantiate (1 := agree true true true). destruct algo; apply related_mret. }
  intros _.
  eapply related_mbind; [apply related_ea_start|]. intros r.
  apply related_ea_generations.
Qed.

Lemma related_new_hof (f p h : bool) : related (agree f p h) (agree f p true) new_hof.
Proof.
  intros w1 w2 H. unfold new_hof. cbn [fst snd].
  split; [reflexivity|]. intros _. agree_tac.
Qed.

Lemma related_train (h : bool) :
  related (agree true true h) (agree true true true) train.
Proof.
  eapply related_mbind; [apply related_new_hof|]. intros _.
  eapply related_mbind; [apply (related_gets_config _ _ _ algorithm)|]. intros key.
  eapply related_mbind; [apply related_get_algorithm|]. intros algo.
  eapply related_mbind; [apply related_toolbox_get|]. intros population_fn.
  eapply related_mbind; [apply (related_gets_config _ _ _ population_size)|]. intros size.
  eapply related_mbind; [apply related_with_random_result|]. intros population.
  apply related_run_algorithm.
Qed.

(** C7. [fit] and [fit_gen] are [reset], then the build, then [train];
    from two worlds that share only the parameters, the penalty and the
    random state they give the same outcome, and the outcome from any
    world is the one of building and training a learner just constructed. *)
Theorem fit_from_any_state (X : DataFrame) (y : Series) (gen : Generator) (w1 w2 : World) :
  same_setup w1 w2 ->
  same_outcome (fit X y w1) (fit X y w2) /\
  same_outcome (fit_gen gen w1) (fit_gen gen w2) /\
  same_outcome (fit X y w1) ((do* build_model X y 3 in train) (constructed w1)) /\
  same_outcome (fit_gen gen w1) ((do* build_gen_model gen 3 in train) (constructed w1)).
Proof.
  intros Hsame.
  assert (Hfit : related same_setup (agree true true true) (fit X y)).
  { eapply related_mbind; [apply related_reset|]. intros _.
    eapply related_mbind; [apply related_build_model|]. intros _.
    apply related_train. }
  assert (Hgen : related same_setup (agree true true true) (fit_gen gen)).
  { eapply related_mbind; [apply related_reset|]. intros _.
    eapply related_mbind; [apply related_build_gen_model|]. intros _.
    apply related_train. }
  assert (Hfresh : agree false false false (snd (reset w1)) (constructed w1)).
  { destruct (reset_returns w1) as (_ & T1 & S1).
    unfold agree, same_setup, constructed in *. rewrite T1. world_simpl.
    destruct S1 as (? & ? & ?). repeat split; try congruence; discriminate. }
  assert (Hreset : forall {A} (k : M A), (do* reset in k) w1 = k (snd (reset w1))).
  { intros A k. unfold mbind. destruct (reset_returns w1) as (R1 & _).
    destruct (reset w1) as [[[]|e] w']; [reflexivity|discriminate]. }
  split; [exact (Hfit w1 w2 Hsame)|]. split; [exact (Hgen w1 w2 Hsame)|]. split.
  - unfold fit. rewrite Hreset.
    assert (Hk : related (agree false false false) (agree true true true)
                         (do* build_model X y 3 in train)).
    { eapply related_mbind; [apply related_build_model|]. intros _. apply related_train. }
    exact (Hk _ _ Hfresh).
  - unfold fit_gen. rewrite Hreset.
    assert (Hk : related (agree false false false) (agree true true true)
                         (do* build_gen_model gen 3 in train)).
    { eapply related_mbind; [apply related_build_gen_model|]. intros _. apply related_train. }
    exact (Hk _ _ Hfresh).
Qed.

(** ** The copy returned by [get_predicted_equation] *)

(** C9. With a hall of fame that holds its best individual,
    [get_predicted_equation] returns a reference to a new object with the
    same tree and fitness; the call leaves every object that existed as it
    was, and whatever is then done in place to the returned individual, the
    individual in the hall of fame stays as it was. *)
Theorem predicted_equation_is_a_copy (tb : gmap string Registration)
    (best : positive) (others : list positive)
    (store : gmap positive Individual) (ind : Individual) :
  is_Some (tb !! "clone") ->
  store !! best = Some ind ->
  exists (r : positive) (store' : gmap positive Individual),
    get_predicted_equation tb (Some (best :: others)) store = (Return r, store') /\
    r <> best /\
    store !! r = None /\
    store' !! r = Some ind /\
    (forall r0, r0 <> r -> store' !! r0 = store !! r0) /\
    (forall change : Individual -> Individual,
        mutate_object change r store' !! best = Some ind).
Proof.
  intros [reg Hreg] Hbest.
  pose (r := fresh (dom store)).
  assert (Hfresh : store !! r = None).
  { apply not_elem_of_dom. apply is_fresh. }
  assert (Hne : r <> best).
  { intros ->. rewrite Hbest in Hfresh. discriminate. }
  exists r, (<[r := ind]> store).
  unfold get_predicted_equation, clone. rewrite Hreg. cbn [lookup list_lookup].
  rewrite Hbest. fold r.
  split; [reflexivity|]. split; [exact Hne|]. split; [exact Hfresh|].
  split; [apply lookup_insert_eq|]. split.
  - intros r0 Hr0. now apply lookup_insert_ne.
  - intros change. unfold mutate_object.
    rewrite lookup_alter_ne by exact Hne.
    rewrite lookup_insert_ne by exact Hne. exact Hbest.
Qed.

(** For contrast: a change made through the reference the hall of fame
    itself holds is a change of its individual. *)
Lemma mutation_through_alias (best : positive) (store : gmap positive Individual)
    (ind : Individual) (change : Individual -> Individual) :
  store !! best = Some ind ->
  mutate_object change best store !! best = Some (change ind).
Proof.
  intros H. unfold mutate_object. now rewrite lookup_alter_eq, H.
Qed.

(** * Further properties *)

(** ** [reset] *)

Lemma mbind_returned {A B} (m : M A) (k : A -> M B) (w w1 : World) (a : A) :
  m w = (Return a, w1) -> mbind m k w = k a w1.
Proof. intros H. unfold mbind. now rewrite H. Qed.

Lemma mbind_raised {A B} (m : M A) (k : A -> M B) (w w1 : World) (e : exn) :
  m w = (Raise e, w1) -> mbind m k w = (Raise e, w1).
Proof. intros H. unfold mbind. now rewrite H. Qed.

(** X1. [reset] never raises and always installs a new toolbox; of the
    fitness class, the primitive set and the hall of fame it deletes those
    that come before the first missing one, in this order, and it prints
    'Already Reset' exactly when one of the three is missing.  So a hall of
    fame survives a [reset] when the fitness class or the primitive set is
    missing.  The parameters, [self.func], the penalty and the random state
    are never touched. *)
Theorem reset_deletes_up_to_first_missing (w : World) :
  let a := attrs (self w) in
  let w' := snd (reset w) in
  let a' := attrs (self w') in
  fst (reset w) = Return tt /\
  toolbox a' = Toolbox_new /\
  config a' = config a /\ func a' = func a /\
  add_func (self w') = add_func (self w) /\ random w' = random w /\
  Fitness a' = None /\
  match Fitness a, pset a, hof a with
  | Some _, Some _, Some _ =>
      pset a' = None /\ hof a' = None /\ stdout w' = stdout w
  | Some _, Some _, None =>
      pset a' = None /\ hof a' = None /\ stdout w' = stdout w ++ ["Already Reset"]
  | Some _, None, _ =>
      pset a' = None /\ hof a' = hof a /\ stdout w' = stdout w ++ ["Already Reset"]
  | None, _, _ =>
      pset a' = pset a /\ hof a' = hof a /\ stdout w' = stdout w ++ ["Already Reset"]
  end.
Proof.
  cbv zeta.
  unfold reset, try_except, delattr, getattr, gets, modify_attrs, mbind, mret,
    mraise, print.
  world_simpl.
  destruct (Fitness (attrs (self w))) eqn:EF; world_simpl;
    [destruct (pset (attrs (self w))) eqn:EP; world_simpl;
       [destruct (hof (attrs (self w))) eqn:EH; world_simpl|]|];
    repeat split; auto.
Qed.

(** X2. A second [reset] changes no attribute of the learner: it only
    prints 'Already Reset' once more. *)
Theorem reset_twice (w : World) :
  let w1 := snd (reset w) in
  let w2 := snd (reset w1) in
  attrs (self w2) = attrs (self w1) /\
  add_func (self w2) = add_func (self w1) /\
  random w2 = random w1 /\
  stdout w2 = stdout w1 ++ ["Already Reset"].
Proof.
  cbv zeta.
  unfold reset, try_except, delattr, getattr, gets, modify_attrs, mbind, mret,
    mraise, print.
  destruct w as [[[c t f p h u] af] out g sn]. world_simpl.
  destruct f as [f|]; world_simpl;
    [destruct p as [p|]; world_simpl; [destruct h as [h|]; world_simpl|]|];
    repeat split.
Qed.

(** ** A frame of another width than the model was built for *)

Lemma row_at_length (X : DataFrame) (i : nat) :
  rectangular X -> i < index X -> length (row_at X i) = length (columns X).
Proof.
  unfold rectangular, row_at. intros H Hi.
  induction H as [|c cols Hc _ IH]; [reflexivity|].
  cbn [omap list_omap]. change (list_omap ?f ?l) with (omap f l).
  destruct (snd c !! i) eqn:E.
  - cbn [length]. now rewrite IH.
  - apply lookup_ge_None in E. unfold Series in *. lia.
Qed.

Lemma map_seq_constant {A} (h : nat -> A) (v : A) (n start : nat) :
  (forall i, start <= i < start + n -> h i = v) ->
  List.map h (seq start n) = replicate n v.
Proof.
  revert start. induction n as [|n IH]; intros start H; [reflexivity|].
  cbn [seq List.map replicate]. rewrite (H start) by lia. f_equal.
  apply IH. intros i Hi. apply H. lia.
Qed.

(** X3. On a frame whose number of columns is not the arity the primitive
    set was created with, the compiled tree cannot be called on any row:
    whatever the tree, every prediction is the sentinel 9999 and the error
    is that of the constant 9999.  Nothing is raised, so scoring a model on
    a frame of another width than the training frame looks like a very bad
    fit. *)
Theorem wrong_column_count_gives_sentinel (ind : Node) (ps : PrimitiveSet)
    (X : DataFrame) (y : Series) :
  rectangular X ->
  length (columns X) <> pset_arity ps ->
  fst (get_result (compile ind ps) X y) = Return (replicate (index X) (of_Z 9999)) /\
  fst (_mse (compile ind ps) X y) =
    Return (mean (series_sq (series_sub (replicate (index X) (of_Z 9999)) y))).
Proof.
  intros Hrect Hne.
  assert (E : apply_rows X (temp (compile ind ps)) = replicate (index X) (of_Z 9999)).
  { unfold apply_rows, rows. rewrite List.map_map.
    apply map_seq_constant. intros i Hi.
    unfold temp, compile.
    rewrite (row_at_length X i Hrect) by lia.
    apply Nat.eqb_neq in Hne. now rewrite Hne. }
  rewrite _mse_eq, get_result_eq. cbn [fst]. now rewrite E.
Qed.

(** ** What [build_model] and [build_gen_model] set up *)

Lemma add_primitives_app (known rest : list string) (w : World) (ps0 : PrimitiveSet) :
  all_known known ->
  pset (attrs (self w)) = Some ps0 ->
  exists ps : PrimitiveSet,
    add_primitives (known ++ rest) w =
      add_primitives rest (with_attrs (with_pset (Some ps)) w) /\
    pset_arity ps = pset_arity ps0 /\
    forall name : string,
      context ps !! name =
        if bool_decide (name ∈ known) then func_dict !! name else context ps0 !! name.
Proof.
  intros Hk. revert w ps0.
  induction Hk as [|name known [p Hp] _ IH]; intros w ps0 Hps.
  - exists ps0. split; [|split; [reflexivity|]].
    + cbn [app]. f_equal. destruct w as [[[c tb F P H fn] af] out g sn].
      unfold with_attrs. world_simpl. now subst P.
    + intros name. rewrite bool_decide_eq_false_2; [reflexivity|apply not_elem_of_nil].
  - cbn [app add_primitives]. rewrite Hp.
    destruct (IH (with_attrs (with_pset (Some (addPrimitive ps0 name p))) w)
                 (addPrimitive ps0 name p) eq_refl) as (ps & E & Ha & Hl).
    exists ps. split; [|split; [exact Ha|]].
    + unfold mbind at 1. unfold modify_attrs at 1. cbv beta iota.
      unfold update_attrs at 1. cbv beta. rewrite Hps.
      etransitivity; [exact E|]. reflexivity.
    + intros name'. rewrite Hl.
      destruct (decide (name' = name)) as [->|Hne].
      * rewrite (bool_decide_eq_true_2 (name ∈ name :: known)) by apply list_elem_of_here.
        destruct (bool_decide (name ∈ known)); [reflexivity|].
        cbn [addPrimitive context]. now rewrite lookup_insert_eq.
      * destruct (bool_decide (name' ∈ known)) eqn:Ein.
        -- apply bool_decide_eq_true_1 in Ein.
           rewrite bool_decide_eq_true_2; [reflexivity|now apply list_elem_of_further].
        -- apply bool_decide_eq_false_1 in Ein.
           rewrite bool_decide_eq_false_2.
           ++ cbn [addPrimitive context]. now rewrite lookup_insert_ne.
           ++ intros [?|?]%elem_of_cons; contradiction.
Qed.

Lemma add_primitives_known (names : list string) (w : World) (ps0 : PrimitiveSet) :
  all_known names ->
  pset (attrs (self w)) = Some ps0 ->
  exists ps : PrimitiveSet,
    add_primitives names w = (Return tt, with_attrs (with_pset (Some ps)) w) /\
    pset_arity ps = pset_arity ps0 /\
    forall name : string,
      context ps !! name =
        if bool_decide (name ∈ names) then func_dict !! name else context ps0 !! name.
Proof.
  intros Hk Hps.
  destruct (add_primitives_app names [] w ps0 Hk Hps) as (ps & E & Ha & Hl).
  rewrite app_nil_r in E. now exists ps.
Qed.

Lemma add_primitives_missing (known rest : list string) (missing : string)
    (w : World) (ps0 : PrimitiveSet) :
  all_known known ->
  func_dict !! missing = None ->
  pset (attrs (self w)) = Some ps0 ->
  exists ps : PrimitiveSet,
    add_primitives (known ++ missing :: rest) w =
      (Raise (KeyError missing), with_attrs (with_pset (Some ps)) w) /\
    pset_arity ps = pset_arity ps0 /\
    forall name : string,
      context ps !! name =
        if bool_decide (name ∈ known) then func_dict !! name else context ps0 !! name.
Proof.
  intros Hk Hm Hps.
  destruct (add_primitives_app known (missing :: rest) w ps0 Hk Hps) as (ps & E & Ha & Hl).
  exists ps. split; [|now split].
  rewrite E. cbn [add_primitives]. now rewrite Hm.
Qed.

Lemma create_and_reg_individual_known (arity : nat) (w : World) (F : list num) :
  Fitness (attrs (self w)) = Some F ->
  all_known (func_list (config (attrs (self w)))) ->
  exists ps : PrimitiveSet,
    pset_arity ps = arity /\
    holds_primitives (func_list (config (attrs (self w)))) ps /\
    create_and_reg_individual arity w =
      (Return tt,
       with_attrs (fun a =>
         with_toolbox
           (<["individual" := mkReg (initIterate (genHalfAndHalf ps 1 2)) []]>
              (<["expr" := mkReg (genHalfAndHalf ps 1 2) []]> (toolbox a)))
           (with_pset (Some ps) a)) w).
Proof.
  intros HF Hk.
  destruct (add_primitives_known (func_list (config (attrs (self w))))
              (with_attrs (with_pset (Some (mkPset arity ∅))) w) (mkPset arity ∅) Hk eq_refl)
    as (ps & E & Ha & Hl).
  exists ps. split; [exact Ha|]. split.
  - intros name. rewrite Hl. cbn [context]. now rewrite lookup_empty.
  - unfold create_and_reg_individual.
    rewrite (mbind_returned _ _ w (with_attrs (with_pset (Some (mkPset arity ∅))) w) tt)
      by reflexivity.
    rewrite (mbind_returned _ _ _ (with_attrs (with_pset (Some (mkPset arity ∅))) w)
               (func_list (config (attrs (self w))))) by reflexivity.
    rewrite (mbind_returned _ _ _ _ tt E).
    unfold getattr, toolbox_register, toolbox_get, gets, modify_attrs, mbind, mret,
      mraise, register, with_attrs.
    world_simpl. rewrite HF. world_simpl.
    rewrite lookup_insert_eq. world_simpl. reflexivity.
Qed.

Lemma create_and_reg_individual_missing (arity : nat) (w : World)
    (known rest : list string) (missing : string) :
  func_list (config (attrs (self w))) = known ++ missing :: rest ->
  all_known known ->
  func_dict !! missing = None ->
  exists ps : PrimitiveSet,
    pset_arity ps = arity /\
    holds_primitives known ps /\
    create_and_reg_individual arity w =
      (Raise (KeyError missing), with_attrs (with_pset (Some ps)) w).
Proof.
  intros Hl Hk Hm.
  destruct (add_primitives_missing known rest missing
              (with_attrs (with_pset (Some (mkPset arity ∅))) w) (mkPset arity ∅)
              Hk Hm eq_refl)
    as (ps & E & Ha & Hc).
  exists ps. split; [exact Ha|]. split.
  - intros name. rewrite Hc. cbn [context]. now rewrite lookup_empty.
  - unfold create_and_reg_individual.
    rewrite (mbind_returned _ _ w (with_attrs (with_pset (Some (mkPset arity ∅))) w) tt)
      by reflexivity.
    rewrite (mbind_returned _ _ _ (with_attrs (with_pset (Some (mkPset arity ∅))) w)
               (func_list (config (attrs (self w))))) by reflexivity.
    rewrite Hl. now rewrite (mbind_raised _ _ _ _ _ E).
Qed.

Lemma invariant_build_model_known (arity tournsize : nat) (w : World) :
  all_known (func_list (config (attrs (self w)))) ->
  exists ps : PrimitiveSet,
    pset_arity ps = arity /\
    holds_primitives (func_list (config (attrs (self w)))) ps /\
    invariant_build_model arity tournsize w =
      (Return tt,
       with_attrs (fun a =>
         mkAttrs (config a) (built_toolbox ps tournsize (toolbox a))
                 (Some weights) (Some ps) (hof a) (func a)) w).
Proof.
  intros Hk.
  destruct (create_and_reg_individual_known arity
              (with_attrs (with_Fitness (Some weights)) w) weights eq_refl Hk)
    as (ps & Ha & Hc & E).
  exists ps. split; [exact Ha|]. split; [exact Hc|].
  unfold invariant_build_model.
  rewrite (mbind_returned _ _ w (with_attrs (with_Fitness (Some weights)) w) tt)
    by reflexivity.
  rewrite (mbind_returned _ _ _ _ tt E).
  unfold create_and_reg_population, reg_selection, reg_mutation, reg_mating,
    toolbox_register, toolbox_decorate, toolbox_get, getattr, gets, modify_attrs,
    mbind, mret, mraise, register, with_attrs, built_toolbox.
  world_simpl.
  repeat (first [rewrite lookup_insert_eq | rewrite lookup_insert_ne by discriminate];
          world_simpl).
  cbv [update_attrs with_toolbox with_pset with_Fitness attrs self toolbox config
       Fitness pset hof func add_func app].
  rewrite !insert_insert_eq. reflexivity.
Qed.

Lemma invariant_build_model_missing (arity tournsize : nat) (w : World)
    (known rest : list string) (missing : string) :
  func_list (config (attrs (self w))) = known ++ missing :: rest ->
  all_known known ->
  func_dict !! missing = None ->
  exists ps : PrimitiveSet,
    pset_arity ps = arity /\
    holds_primitives known ps /\
    invariant_build_model arity tournsize w =
      (Raise (KeyError missing),
       with_attrs (fun a => with_pset (Some ps) (with_Fitness (Some weights) a)) w).
Proof.
  intros Hl Hk Hm.
  destruct (create_and_reg_individual_missing arity
              (with_attrs (with_Fitness (Some weights)) w) known rest missing Hl Hk Hm)
    as (ps & Ha & Hc & E).
  exists ps. split; [exact Ha|]. split; [exact Hc|].
  unfold invariant_build_model.
  rewrite (mbind_returned _ _ w (with_attrs (with_Fitness (Some weights)) w) tt)
    by reflexivity.
  now rewrite (mbind_raised _ _ _ _ _ E).
Qed.

(** X4. When every name of [self.func_list] is a key of [func_dict],
    [build_model] returns: the fitness class is the single minimised
    objective, the primitive set takes as many arguments as [X] has columns
    and holds exactly the listed primitives, and the toolbox gains 'expr',
    'individual', 'population', 'select', 'expr_mut', the guarded 'mutate'
    and 'mate', and 'evaluate' bound to [X] and [y]; every other alias, the
    hall of fame, the parameters and [self.func] stay as they were and
    nothing is printed. *)
Theorem build_model_builds (X : DataFrame) (y : Series) (tournsize : nat) (w : World) :
  all_known (func_list (config (attrs (self w)))) ->
  exists ps : PrimitiveSet,
    pset_arity ps = length (columns X) /\
    holds_primitives (func_list (config (attrs (self w)))) ps /\
    build_model X y tournsize w =
      (Return tt,
       with_attrs (fun a =>
         mkAttrs (config a)
                 (<["evaluate" := mkReg (eval_helper_on X y) []]>
                    (built_toolbox ps tournsize (toolbox a)))
                 (Some weights) (Some ps) (hof a) (func a)) w).
Proof.
  intros Hk.
  destruct (invariant_build_model_known (get_arity_from_X X) tournsize w Hk)
    as (ps & Ha & Hc & E).
  exists ps. split; [exact Ha|]. split; [exact Hc|].
  unfold build_model. cbv zeta. rewrite (mbind_returned _ _ _ _ tt E).
  reflexivity.
Qed.

(** X5. [build_gen_model] draws one sample of one row from the generator and
    builds for the number of columns of that sample; the sample and its
    target are not used again, and the generator registered for the
    evaluations is the generator after this draw. *)
Theorem build_gen_model_builds (gen : Generator) (tournsize : nat) (w : World) :
  all_known (func_list (config (attrs (self w)))) ->
  exists ps : PrimitiveSet,
    pset_arity ps = length (columns (fst (fst (generate gen (Some 1))))) /\
    holds_primitives (func_list (config (attrs (self w)))) ps /\
    build_gen_model gen tournsize w =
      (Return tt,
       with_attrs (fun a =>
         mkAttrs (config a)
                 (<["evaluate" := mkReg (eval_gen (snd (generate gen (Some 1)))) []]>
                    (built_toolbox ps tournsize (toolbox a)))
                 (Some weights) (Some ps) (hof a) (func a)) w).
Proof.
  intros Hk. unfold build_gen_model.
  destruct (generate gen (Some 1)) as [[smallx smally] gen']. cbn [fst snd].
  destruct (invariant_build_model_known (get_arity_from_X smallx) tournsize w Hk)
    as (ps & Ha & Hc & E).
  exists ps. split; [exact Ha|]. split; [exact Hc|].
  rewrite (mbind_returned _ _ _ _ tt E). reflexivity.
Qed.

(** X6. When a name of [self.func_list] is not a key of [func_dict],
    [build_model] raises [KeyError] for the first such name.  By then the
    fitness class exists and the primitive set holds the primitives listed
    before that name, but no operator has been registered: the toolbox is
    as it was.  [fit] raises the same [KeyError] and does not train. *)
Theorem build_model_missing_primitive (X : DataFrame) (y : Series) (tournsize : nat)
    (w : World) (known rest : list string) (missing : string) :
  func_list (config (attrs (self w))) = known ++ missing :: rest ->
  all_known known ->
  func_dict !! missing = None ->
  (exists ps : PrimitiveSet,
     pset_arity ps = length (columns X) /\
     holds_primitives known ps /\
     build_model X y tournsize w =
       (Raise (KeyError missing),
        with_attrs (fun a => with_pset (Some ps) (with_Fitness (Some weights) a)) w)) /\
  fst (fit X y w) = Raise (KeyError missing).
Proof.
  intros Hl Hk Hm. split.
  - destruct (invariant_build_model_missing (get_arity_from_X X) tournsize w
                known rest missing Hl Hk Hm) as (ps & Ha & Hc & E).
    exists ps. split; [exact Ha|]. split; [exact Hc|].
    unfold build_model. cbv zeta. now rewrite (mbind_raised _ _ _ _ _ E).
  - destruct (reset_returns w) as (Hr & _ & Hcfg & _).
    destruct (reset w) as [r w1] eqn:Er. cbn [fst snd] in Hr, Hcfg. subst r.
    rewrite <- Hcfg in Hl.
    destruct (invariant_build_model_missing (get_arity_from_X X) 3 w1
                known rest missing Hl Hk Hm) as (ps & _ & _ & E).
    unfold fit. rewrite (mbind_returned _ _ _ _ tt Er).
    unfold build_model. cbv zeta.
    rewrite (mbind_raised _ _ _ _ (KeyError missing)
               (mbind_raised _ _ _ _ _ E)).
    reflexivity.
Qed.

(** ** Training what has not been built, or with an unknown strategy *)

Lemma get_algorithm_cases (key : string) (w : World) :
  get_algorithm key w =
    match algo_dict !! key with
    | Some a => (Return (Some a), w)
    | None =>
        (Raise (AttributeError "ea"),
         mkWorld (self w)
           (stdout w ++ [("Key " ++ key ++
              " not found out of available algorithm options. Using Simple Algorithm")%string])
           (random w) (seen w))
    end.
Proof.
  unfold get_algorithm, get_algorithm_in, mbind, mret, print, lift.
  destruct (algo_dict !! key); reflexivity.
Qed.

Lemma train_unknown_algorithm (w : World) :
  algo_dict !! algorithm (config (attrs (self w))) = None ->
  fst (train w) = Raise (AttributeError "ea") /\
  hof (attrs (self (snd (train w)))) = Some (HallOfFame_new 1).
Proof.
  intros Hkey.
  assert (E : exists out : list string,
            train w =
              (Raise (AttributeError "ea"),
               mkWorld (update_attrs (with_hof (Some (HallOfFame_new 1))) (self w))
                       out (random w) [])).
  { unfold train, new_hof, gets. unfold mbind at 1 2 3. world_simpl.
    rewrite get_algorithm_cases. world_simpl. rewrite Hkey. now eexists. }
  destruct E as [out ->]. now split.
Qed.

Lemma train_without_population (w : World) :
  toolbox (attrs (self w)) !! "population" = None ->
  fst (train w) =
    Raise (match algo_dict !! algorithm (config (attrs (self w))) with
           | Some _ => AttributeError "population"
           | None => AttributeError "ea"
           end) /\
  hof (attrs (self (snd (train w)))) = Some (HallOfFame_new 1).
Proof.
  intros Hpop.
  assert (E : exists out : list string,
            train w =
              (Raise (match algo_dict !! algorithm (config (attrs (self w))) with
                      | Some _ => AttributeError "population"
                      | None => AttributeError "ea"
                      end),
               mkWorld (update_attrs (with_hof (Some (HallOfFame_new 1))) (self w))
                       out (random w) [])).
  { unfold train, new_hof, gets, toolbox_get. unfold mbind at 1 2 3. world_simpl.
    rewrite get_algorithm_cases. world_simpl.
    destruct (algo_dict !! algorithm (config (attrs (self w)))); [|now eexists].
    unfold mbind, gets, mraise. world_simpl. rewrite Hpop. now eexists. }
  destruct E as [out ->]. now split.
Qed.

(** X7. [train] on a learner whose toolbox has no 'population' (one just
    constructed, or after [reset]) raises [AttributeError]: for the missing
    'population' when the algorithm name is a key of the dictionary, at
    [algorithms.ea] when it is not.  The hall of fame has been replaced by
    an empty one before that, so a model trained earlier is gone and [score]
    returns 0. *)
Theorem train_before_build (w : World) :
  toolbox (attrs (self w)) !! "population" = None ->
  fst (train w) =
    Raise (match algo_dict !! algorithm (config (attrs (self w))) with
           | Some _ => AttributeError "population"
           | None => AttributeError "ea"
           end) /\
  hof (attrs (self (snd (train w)))) = Some (HallOfFame_new 1) /\
  forall (X : DataFrame) (y : Series),
    fst (fst (score X y (snd (train w)))) = Return (PyInt 0).
Proof.
  intros Hpop. destruct (train_without_population w Hpop) as [Hr Hh].
  split; [exact Hr|]. split; [exact Hh|].
  intros X y. unfold score. now rewrite Hh.
Qed.

Lemma known_or_missing (names : list string) :
  all_known names \/
  exists (known : list string) (missing : string) (rest : list string),
    names = known ++ missing :: rest /\ all_known known /\ func_dict !! missing = None.
Proof.
  induction names as [|n names IH]; [left; constructor|].
  destruct (func_dict !! n) as [p|] eqn:E.
  - destruct IH as [H|(known & missing & rest & -> & Hk & Hm)].
    + left. constructor; [now exists p|exact H].
    + right. exists (n :: known), missing, rest.
      split; [reflexivity|]. split; [constructor; [now exists p|exact Hk]|exact Hm].
  - right. exists [], n, names. split; [reflexivity|]. split; [constructor|exact E].
Qed.

Lemma reset_run (w : World) :
  reset w = (Return tt, snd (reset w)) /\
  config (attrs (self (snd (reset w)))) = config (attrs (self w)).
Proof.
  destruct (reset_returns w) as (H & _ & Hc & _).
  split; [|exact Hc]. destruct (reset w) as [r w1]. cbn [fst snd] in *. now subst r.
Qed.

(** What [fit] and [fit_gen] share: [reset], a build that registers the
    evaluator, [train]. *)
Lemma build_then_train_unknown_algorithm (arity : nat) (evaluator : Function) (w : World) :
  algo_dict !! algorithm (config (attrs (self w))) = None ->
  let r := (do* reset in
            do* (do* invariant_build_model arity 3 in
                 toolbox_register "evaluate" evaluator) in
            train) w in
  fst r = Raise (AttributeError "ea") \/
  exists name : string,
    name ∈ func_list (config (attrs (self w))) /\ func_dict !! name = None /\
    fst r = Raise (KeyError name).
Proof.
  intros Hkey. cbv zeta.
  destruct (reset_run w) as [Er Hc].
  rewrite (mbind_returned _ _ _ _ tt Er).
  destruct (known_or_missing (func_list (config (attrs (self (snd (reset w)))))))
    as [Hk|(known & missing & rest & Hl & Hk & Hm)].
  - left.
    destruct (invariant_build_model_known arity 3 _ Hk) as (ps & _ & _ & E).
    rewrite (mbind_returned _ _ _ _ tt
               (eq_trans (mbind_returned _ _ _ _ tt E) eq_refl)).
    apply train_unknown_algorithm.
    unfold with_attrs. world_simpl. now rewrite Hc.
  - right. exists missing.
    split; [rewrite <- Hc, Hl; apply elem_of_app; right; apply list_elem_of_here|].
    split; [exact Hm|].
    destruct (invariant_build_model_missing arity 3 _ known rest missing Hl Hk Hm)
      as (ps & _ & _ & E).
    now rewrite (mbind_raised _ _ _ _ (KeyError missing) (mbind_raised _ _ _ _ _ E)).
Qed.

(** X8. With an algorithm name that is not one of 'simple', 'mu+lambda' and
    'mu,lambda', no training ever takes place, whatever the data and the
    state of the learner: [train] raises [AttributeError] at
    [algorithms.ea], and [fit] and [fit_gen] raise that error too, unless the
    build has already failed with the [KeyError] of a name of
    [self.func_list] that is not in [func_dict]. *)
Theorem unknown_algorithm_never_trains (X : DataFrame) (y : Series) (gen : Generator)
    (w : World) :
  algo_dict !! algorithm (config (attrs (self w))) = None ->
  fst (train w) = Raise (AttributeError "ea") /\
  (fst (fit X y w) = Raise (AttributeError "ea") \/
   exists name : string,
     name ∈ func_list (config (attrs (self w))) /\ func_dict !! name = None /\
     fst (fit X y w) = Raise (KeyError name)) /\
  (fst (fit_gen gen w) = Raise (AttributeError "ea") \/
   exists name : string,
     name ∈ func_list (config (attrs (self w))) /\ func_dict !! name = None /\
     fst (fit_gen gen w) = Raise (KeyError name)).
Proof.
  intros Hkey. split; [apply (train_unknown_algorithm w Hkey)|]. split.
  - exact (build_then_train_unknown_algorithm (get_arity_from_X X) (eval_helper_on X y)
             w Hkey).
  - unfold fit_gen, build_gen_model.
    destruct (generate gen (Some 1)) as [[smallx smally] gen'].
    exact (build_then_train_unknown_algorithm (get_arity_from_X smallx) (eval_gen gen')
             w Hkey).
Qed.

(** ** Scoring a trained model *)

(** X9. With a best individual in the hall of fame and a primitive set,
    [score] compiles the best tree, assigns it to [self.func] and returns
    the pair of the mean squared error of its predictions on [X] (which
    does not depend on the penalty) and the value of the penalty.  When the
    penalty raises, the bare [except] hides the exception: [score] prints
    'Could not find Best model' and returns 0 although there is a best
    model.  Either way the frame is left as [get_result] leaves it, and
    nothing but [self.func] changes in the learner. *)
Theorem score_with_model (X : DataFrame) (y : Series) (w : World)
    (h : HallOfFame) (best : Individual) (ps : PrimitiveSet) :
  hof (attrs (self w)) = Some h ->
  items h !! 0 = Some best ->
  pset (attrs (self w)) = Some ps ->
  let f := compile (tree best) ps in
  let w1 := with_attrs (with_func (Some f)) w in
  let X1 := snd (get_result f X y) in
  score X y w =
    match add_func (self w) (attrs (self w1)) X1 y with
    | Return violation =>
        (Return (PyTuple [mean (series_sq (series_sub (apply_rows X (temp f)) y));
                          violation]),
         w1, X1)
    | Raise _ =>
        (Return (PyInt 0),
         mkWorld (self w1) (stdout w ++ ["Could not find Best model"]) (random w) (seen w),
         X1)
    end.
Proof.
  intros Hh Hb Hps. cbv zeta. unfold score, hof_getitem.
  rewrite Hh, Hb, (ind_score_eq _ _ _ _ ps Hps). cbv zeta.
  unfold with_attrs. world_simpl.
  now destruct (add_func (self w) _ _ y).
Qed.

(** ** What training leaves alone *)

Lemma model_mret {A} (a : A) : keeps_model (mret a).
Proof. now intros w. Qed.

Lemma model_mraise {A} (e : exn) : keeps_model (@mraise A e).
Proof. now intros w. Qed.

Lemma model_lift {A} (r : result A) : keeps_model (lift r).
Proof. now intros w. Qed.

Lemma model_mbind {A B} (m : M A) (k : A -> M B) :
  keeps_model m -> (forall a, keeps_model (k a)) -> keeps_model (mbind m k).
Proof.
  intros Hm Hk w. unfold mbind. specialize (Hm w).
  destruct (m w) as [[a|e] w1]; cbn [snd] in *; [|exact Hm].
  now rewrite Hk.
Qed.

Lemma model_print (line : string) : keeps_model (print line).
Proof. now intros w. Qed.

Lemma model_gets {A} (field : Attributes -> A) : keeps_model (gets field).
Proof. now intros w. Qed.

Lemma model_record_seen (population : list Individual) :
  keeps_model (record_seen population).
Proof. now intros w. Qed.

Lemma model_new_hof : keeps_model new_hof.
Proof. now intros w. Qed.

Lemma model_set_hof (h : option HallOfFame) : keeps_model (modify_attrs (with_hof h)).
Proof. now intros w. Qed.

Lemma model_with_random {A} (f : Rng -> A * Rng) : keeps_model (with_random f).
Proof. intros w. unfold with_random. now destruct (f (random w)). Qed.

Lemma model_with_random_result {A} (f : Rng -> result A * Rng) :
  keeps_model (with_random_result f).
Proof. intros w. unfold with_random_result. now destruct (f (random w)). Qed.

Create HintDb model.

#[local] Hint Resolve model_mret model_mraise model_lift model_print model_gets
  model_record_seen model_new_hof model_set_hof model_with_random
  model_with_random_result : model.

(** A sequence of steps keeps the model when each step does. *)
Ltac model_steps :=
  repeat first
    [ solve [auto with model]
    | apply model_mbind; [|intros ?]
    | match goal with
      | |- keeps_model (match ?x with _ => _ end) => destruct x
      end ].

Lemma model_getattr {A} (name : string) (field : Attributes -> option A) :
  keeps_model (getattr name field).
Proof. unfold getattr. model_steps. Qed.

Lemma model_toolbox_get (alias : string) : keeps_model (toolbox_get alias).
Proof. unfold toolbox_get. model_steps. Qed.

(** An evaluation assigns [self.func] and nothing else. *)
Lemma eval_helper_learner (s : Learner) (ind : Node) (X : DataFrame) (y : Series) :
  let s1 := snd (fst (eval_helper s ind X y)) in
  config (attrs s1) = config (attrs s) /\ toolbox (attrs s1) = toolbox (attrs s) /\
  Fitness (attrs s1) = Fitness (attrs s) /\ pset (attrs s1) = pset (attrs s) /\
  hof (attrs s1) = hof (attrs s) /\ add_func s1 = add_func s.
Proof.
  cbv zeta. unfold eval_helper. destruct (pset (attrs s)) eqn:E.
  - destruct (_mse _ X y) as [[mse|e] X1]; [destruct (add_func _ _ _ _)|];
      cbn [fst snd]; world_simpl; rewrite E; repeat split.
  - cbn [fst snd]. rewrite E. repeat split.
Qed.

Lemma model_toolbox_evaluate (ind : Node) : keeps_model (toolbox_evaluate ind).
Proof.
  apply model_mbind; [apply model_toolbox_get|].
  intros r w. unfold model_view.
  destruct (function r); try reflexivity.
  - pose proof (eval_helper_learner (self w) ind X y) as H.
    destruct (eval_helper (self w) ind X y) as [[v s1] X1].
    cbn [fst snd] in *. destruct H as (Hc & Ht & HF & Hp & _ & Ha). world_simpl.
    now rewrite Hc, Ht, HF, Hp, Ha, delete_insert_eq.
  - destruct (generate gen None) as [[X y] gen1].
    pose proof (eval_helper_learner (self w) ind X y) as H.
    destruct (eval_helper (self w) ind X y) as [[v s1] X1].
    cbn [fst snd] in *. destruct H as (Hc & Ht & HF & Hp & _ & Ha). world_simpl.
    now rewrite Hc, Ht, HF, Hp, Ha, delete_insert_eq.
Qed.

#[local] Hint Resolve model_getattr model_toolbox_get model_toolbox_evaluate : model.

Lemma model_evaluate_invalid (population : list Individual) :
  keeps_model (evaluate_invalid population).
Proof.
  induction population as [|ind rest IH]; cbn [evaluate_invalid]; model_steps.
Qed.

Lemma model_halloffame_update (population : list Individual) :
  keeps_model (halloffame_update population).
Proof. unfold halloffame_update. model_steps. Qed.

Lemma model_toolbox_select (population : list Individual) (k : nat) :
  keeps_model (toolbox_select population k).
Proof. unfold toolbox_select. model_steps. Qed.

Lemma model_log_record (gen nevals : nat) (logbook : Logbook) :
  keeps_model (log_record gen nevals logbook).
Proof. unfold log_record. model_steps. Qed.

Lemma model_get_algorithm (key : string) : keeps_model (get_algorithm key).
Proof. unfold get_algorithm, get_algorithm_in. model_steps. Qed.

#[local] Hint Resolve model_evaluate_invalid model_halloffame_update
  model_toolbox_select model_log_record model_get_algorithm : model.

Lemma model_ea_start (population : list Individual) : keeps_model (ea_start population).
Proof. unfold ea_start. model_steps. Qed.

Lemma model_ea_generation (algo : Algo) (population : list Individual) :
  keeps_model (ea_generation algo population).
Proof. unfold ea_generation. model_steps. Qed.

#[local] Hint Resolve model_ea_start model_ea_generation : model.

Lemma model_ea_generations (algo : Algo) (gens : list nat)
    (population : list Individual) (logbook : Logbook) :
  keeps_model (ea_generations algo gens population logbook).
Proof.
  revert population logbook.
  induction gens as [|gen rest IH]; intros population logbook;
    cbn [ea_generations]; model_steps.
Qed.

#[local] Hint Resolve model_ea_generations : model.

Lemma model_run_algorithm (algo : option Algo) (population : list Individual) :
  keeps_model (run_algorithm algo population).
Proof.
  unfold run_algorithm. destruct algo as [algo|]; [|apply model_mraise].
  apply model_mbind; [apply model_gets|]. intros ngen.
  apply model_mbind.
  { destruct algo; apply model_mret. }
  intros _. model_steps.
Qed.

Lemma model_train : keeps_model train.
Proof.
  unfold train. pose proof model_run_algorithm. model_steps.
Qed.

(** ** The learner through any sequence of method calls *)

Lemma consistent_by_view (w w' : World) :
  consistent_view w' = consistent_view w -> consistent w -> consistent w'.
Proof.
  unfold consistent_view, consistent. cbv zeta.
  intros [= -> -> -> -> ->]. auto.
Qed.

Lemma consistent_mbind {A B} (m : M A) (k : A -> M B) :
  keeps_consistent m -> (forall a, keeps_consistent (k a)) -> keeps_consistent (mbind m k).
Proof.
  intros Hm Hk w Hw. unfold mbind. specialize (Hm w Hw).
  destruct (m w) as [[a|e] w1]; cbn [snd] in *; [|exact Hm].
  now apply Hk.
Qed.

Lemma consistent_register (alias : string) (f : Function) :
  alias <> "individual" -> alias <> "population" ->
  keeps_consistent (toolbox_register alias f).
Proof.
  intros H1 H2 w. apply consistent_by_view.
  unfold consistent_view, toolbox_register, modify_attrs, register. world_simpl.
  now rewrite !lookup_insert_ne by congruence.
Qed.

Lemma consistent_decorate (alias : string) (d : Decorator) :
  alias <> "individual" -> alias <> "population" ->
  keeps_consistent (toolbox_decorate alias d).
Proof.
  intros H1 H2 w. apply consistent_by_view.
  unfold consistent_view, toolbox_decorate, toolbox_get, gets, modify_attrs, mbind,
    mret, mraise.
  world_simpl. destruct (toolbox (attrs (self w)) !! alias); world_simpl; [|reflexivity].
  now rewrite !lookup_insert_ne by congruence.
Qed.

Lemma consistent_unchanged {A} (m : M A) :
  (forall w, snd (m w) = w) -> keeps_consistent m.
Proof. intros H w Hw. now rewrite H. Qed.

Lemma consistent_getattr {A} (name : string) (field : Attributes -> option A) :
  keeps_consistent (getattr name field).
Proof.
  apply consistent_unchanged. intros w. unfold getattr, gets, mbind, mret, mraise.
  now destruct (field (attrs (self w))).
Qed.

Lemma consistent_toolbox_get (alias : string) : keeps_consistent (toolbox_get alias).
Proof.
  apply consistent_unchanged. intros w. unfold toolbox_get, gets, mbind, mret, mraise.
  now destruct (toolbox (attrs (self w)) !! alias).
Qed.

Lemma consistent_create_fitness : keeps_consistent create_fitness.
Proof.
  intros w Hw. unfold consistent, create_fitness, modify_attrs in *. world_simpl.
  intros H. split; [now eexists|]. now apply Hw.
Qed.

(** Whatever happens in [create_and_reg_individual], the primitive set
    exists afterwards, and 'individual' is registered only past the read of
    [self.Fitness]. *)
Lemma consistent_create_and_reg_individual (problem_arity : nat) :
  keeps_consistent (create_and_reg_individual problem_arity).
Proof.
  intros w Hw.
  assert (Hsame : forall ps : PrimitiveSet,
            consistent (with_attrs (with_pset (Some ps)) w)).
  { intros ps. unfold consistent, with_attrs in *. world_simpl.
    intros H. split; [now apply Hw|now eexists]. }
  destruct (known_or_missing (func_list (config (attrs (self w)))))
    as [Hk|(known & missing & rest & Hl & Hk & Hm)].
  - destruct (Fitness (attrs (self w))) as [F|] eqn:HF.
    + destruct (create_and_reg_individual_known problem_arity w F HF Hk)
        as (ps & _ & _ & E).
      rewrite E. unfold consistent, with_attrs. world_simpl.
      intros _. rewrite HF. split; now eexists.
    + destruct (add_primitives_known (func_list (config (attrs (self w))))
                  (with_attrs (with_pset (Some (mkPset problem_arity ∅))) w)
                  (mkPset problem_arity ∅) Hk eq_refl) as (ps & E & _ & _).
      assert (E' : create_and_reg_individual problem_arity w =
                   (Raise (AttributeError "Fitness"), with_attrs (with_pset (Some ps)) w)).
      { unfold create_and_reg_individual.
        rewrite (mbind_returned _ _ w
                   (with_attrs (with_pset (Some (mkPset problem_arity ∅))) w) tt)
          by reflexivity.
        rewrite (mbind_returned _ _ _
                   (with_attrs (with_pset (Some (mkPset problem_arity ∅))) w)
                   (func_list (config (attrs (self w))))) by reflexivity.
        rewrite (mbind_returned _ _ _ _ tt E).
        unfold getattr, gets, mbind, mraise, with_attrs. world_simpl.
        now rewrite HF. }
      rewrite E'. apply Hsame.
  - destruct (create_and_reg_individual_missing problem_arity w known rest missing
                Hl Hk Hm) as (ps & _ & _ & E).
    rewrite E. apply Hsame.
Qed.

Lemma consistent_create_and_reg_population : keeps_consistent create_and_reg_population.
Proof.
  intros w Hw.
  unfold create_and_reg_population, toolbox_register, toolbox_get, gets, modify_attrs,
    mbind, mret, mraise, register.
  world_simpl.
  destruct (toolbox (attrs (self w)) !! "individual") as [r|] eqn:E; world_simpl;
    [|exact Hw].
  unfold consistent in *. world_simpl. intros _. apply Hw. left. rewrite E. now eexists.
Qed.

Lemma consistent_reg_selection (tournsize : nat) : keeps_consistent (reg_selection tournsize).
Proof. apply consistent_register; discriminate. Qed.

Lemma consistent_reg_mutation : keeps_consistent reg_mutation.
Proof.
  unfold reg_mutation.
  apply consistent_mbind; [apply consistent_register; discriminate|]. intros _.
  apply consistent_mbind; [apply consistent_toolbox_get|]. intros expr_mut.
  apply consistent_mbind; [apply consistent_getattr|]. intros ps.
  apply consistent_mbind; [apply consistent_register; discriminate|]. intros _.
  apply consistent_decorate; discriminate.
Qed.

Lemma consistent_reg_mating : keeps_consistent reg_mating.
Proof.
  unfold reg_mating.
  apply consistent_mbind; [apply consistent_register; discriminate|]. intros _.
  apply consistent_decorate; discriminate.
Qed.

Lemma consistent_invariant_build_model (arity tournsize : nat) :
  keeps_consistent (invariant_build_model arity tournsize).
Proof.
  unfold invariant_build_model.
  apply consistent_mbind; [apply consistent_create_fitness|]. intros _.
  apply consistent_mbind; [apply consistent_create_and_reg_individual|]. intros _.
  apply consistent_mbind; [apply consistent_create_and_reg_population|]. intros _.
  apply consistent_mbind; [apply consistent_reg_selection|]. intros _.
  apply consistent_mbind; [apply consistent_reg_mutation|]. intros _.
  apply consistent_reg_mating.
Qed.

Lemma consistent_build_model (X : DataFrame) (y : Series) (tournsize : nat) :
  keeps_consistent (build_model X y tournsize).
Proof.
  unfold build_model. cbv zeta.
  apply consistent_mbind; [apply consistent_invariant_build_model|]. intros _.
  apply consistent_register; discriminate.
Qed.

Lemma consistent_build_gen_model (gen : Generator) (tournsize : nat) :
  keeps_consistent (build_gen_model gen tournsize).
Proof.
  unfold build_gen_model. destruct (generate gen (Some 1)) as [[smallx smally] gen'].
  apply consistent_mbind; [apply consistent_invariant_build_model|]. intros _.
  apply consistent_register; discriminate.
Qed.

(** On a consistent learner [reset] leaves no individual generator and no
    trained model. *)
Lemma reset_consistent (w : World) :
  consistent w ->
  let a' := attrs (self (snd (reset w))) in
  toolbox a' = Toolbox_new /\ Fitness a' = None /\ no_trained_model (snd (reset w)).
Proof.
  intros Hw. cbv zeta. unfold no_trained_model, consistent in *.
  unfold reset, try_except, delattr, getattr, gets, modify_attrs, mbind, mret,
    mraise, print.
  world_simpl.
  destruct (Fitness (attrs (self w))) as [F|] eqn:EF; world_simpl;
    [destruct (pset (attrs (self w))) as [P|] eqn:EP; world_simpl;
       [destruct (hof (attrs (self w))) as [h|] eqn:EH; world_simpl|]|];
    rewrite ?EF, ?EP, ?EH;
    (split; [reflexivity|]); (split; [reflexivity|]); try exact I.
  - destruct (hof (attrs (self w))) as [h|] eqn:EH; [|exact I].
    destruct (items h) eqn:Ei; [reflexivity|].
    destruct Hw as [_ [? [=]]]. right. right. exists h. split; [reflexivity|].
    now rewrite Ei.
  - destruct (hof (attrs (self w))) as [h|] eqn:EH; [|exact I].
    destruct (items h) eqn:Ei; [reflexivity|].
    destruct Hw as [[? [=]] _]. right. right. exists h. split; [reflexivity|].
    now rewrite Ei.
Qed.

Lemma Toolbox_new_generators :
  Toolbox_new !! "individual" = None /\ Toolbox_new !! "population" = None.
Proof.
  unfold Toolbox_new.
  split; rewrite !lookup_insert_ne by discriminate; apply lookup_empty.
Qed.

Lemma consistent_reset : keeps_consistent reset.
Proof.
  intros w Hw. destruct (reset_consistent w Hw) as (Ht & HF & Hno).
  unfold consistent, no_trained_model in *. rewrite Ht.
  destruct Toolbox_new_generators as [-> ->].
  intros [[? [=]]|[[? [=]]|(h & Hh & Hi)]].
  rewrite Hh in Hno. contradiction.
Qed.

Lemma consistent_train : keeps_consistent train.
Proof.
  intros w Hw. pose proof (model_train w) as H. unfold model_view in H.
  injection H as _ HF Hp _ Ht.
  assert (Hlook : forall alias : string, alias <> "evaluate" ->
            toolbox (attrs (self (snd (train w)))) !! alias
            = toolbox (attrs (self w)) !! alias).
  { intros alias Hne.
    rewrite <- (lookup_delete_ne (toolbox (attrs (self (snd (train w))))) "evaluate" alias)
      by congruence.
    rewrite Ht. apply lookup_delete_ne. congruence. }
  unfold consistent in *. rewrite HF, Hp, !Hlook by discriminate.
  intros [Hi|[Hpop|(h & Hh & Hne)]]; [apply Hw; now left|apply Hw; right; now left|].
  apply Hw. right. left.
  destruct (toolbox (attrs (self w)) !! "population") eqn:E; [now eexists|].
  destruct (train_without_population w E) as [_ Hempty].
  rewrite Hempty in Hh. injection Hh as <-. now contradiction Hne.
Qed.

Lemma consistent_fit (X : DataFrame) (y : Series) : keeps_consistent (fit X y).
Proof.
  unfold fit.
  apply consistent_mbind; [apply consistent_reset|]. intros _.
  apply consistent_mbind; [apply consistent_build_model|]. intros _.
  apply consistent_train.
Qed.

Lemma consistent_fit_gen (gen : Generator) : keeps_consistent (fit_gen gen).
Proof.
  unfold fit_gen.
  apply consistent_mbind; [apply consistent_reset|]. intros _.
  apply consistent_mbind; [apply consistent_build_gen_model|]. intros _.
  apply consistent_train.
Qed.

Lemma ind_score_learner (s : Learner) (ind : Node) (X : DataFrame) (y : Series) :
  let s1 := snd (fst (ind_score s ind X y)) in
  toolbox (attrs s1) = toolbox (attrs s) /\
  Fitness (attrs s1) = Fitness (attrs s) /\ pset (attrs s1) = pset (attrs s) /\
  hof (attrs s1) = hof (attrs s).
Proof.
  cbv zeta. unfold ind_score. destruct (pset (attrs s)) eqn:E.
  - destruct (_mse _ X y) as [[mse|e] X1]; [destruct (add_func _ _ _ _)|];
      cbn [fst snd]; world_simpl; rewrite E; repeat split.
  - cbn [fst snd]. rewrite E. repeat split.
Qed.

Lemma consistent_after_call (w : World) (c : Call) :
  consistent w -> consistent (after_call w c).
Proof.
  destruct c; cbn [after_call].
  - apply consistent_create_fitness.
  - apply consistent_create_and_reg_individual.
  - apply consistent_create_and_reg_population.
  - apply consistent_reg_selection.
  - apply consistent_reg_mutation.
  - apply consistent_reg_mating.
  - apply consistent_by_view. unfold consistent_view, with_self. world_simpl.
    destruct (eval_helper_learner (self w) ind X y) as (_ & -> & -> & -> & -> & _).
    reflexivity.
  - apply (consistent_register "evaluate"); discriminate.
  - apply (consistent_register "evaluate"); discriminate.
  - apply consistent_by_view. unfold consistent_view, with_self. world_simpl.
    destruct (ind_score_learner (self w) ind X y) as (-> & -> & -> & ->).
    reflexivity.
  - now apply consistent_by_view.
  - now apply consistent_by_view.
  - apply consistent_reset.
  - apply consistent_build_model.
  - apply consistent_build_gen_model.
  - apply consistent_invariant_build_model.
  - now apply consistent_by_view.
  - apply consistent_train.
  - apply consistent_fit.
  - apply consistent_fit_gen.
  - apply consistent_by_view. unfold consistent_view, score.
    destruct (hof (attrs (self w))) as [h|] eqn:Eh; [|cbn; now rewrite Eh].
    destruct (hof_getitem h 0) as [best|e]; [|cbn; now rewrite Eh].
    pose proof (ind_score_learner (self w) (tree best) X y) as H.
    destruct (ind_score (self w) (tree best) X y) as [[[t|e] s1] X1];
      cbn [fst snd] in *; world_simpl; destruct H as (-> & -> & -> & ->);
      now rewrite Eh.
Qed.

(** X11. On a learner used through its methods only, from the constructor
    on, in any order and whether the calls returned or raised, the fitness
    class and the primitive set exist whenever individuals can be generated
    or the hall of fame holds one.  So [reset] on such a learner leaves a
    new toolbox, no fitness class and no trained model, and [score] then
    returns 0. *)
Theorem reset_after_any_calls (w0 : World) (calls : list Call)
    (X : DataFrame) (y : Series) :
  let w := after_calls (constructed w0) calls in
  let w' := snd (reset w) in
  consistent w /\
  toolbox (attrs (self w')) = Toolbox_new /\
  Fitness (attrs (self w')) = None /\
  no_trained_model w' /\
  fst (fst (score X y w')) = Return (PyInt 0).
Proof.
  cbv zeta.
  assert (Hc : consistent (after_calls (constructed w0) calls)).
  { unfold after_calls.
    assert (H0 : consistent (constructed w0)).
    { unfold consistent, constructed. world_simpl.
      destruct Toolbox_new_generators as [-> ->].
      intros [[? [=]]|[[? [=]]|(h & [=] & _)]]. }
    revert H0. generalize (constructed w0).
    induction calls as [|c calls IH]; intros w Hw; [exact Hw|].
    cbn [fold_left]. apply IH. now apply consistent_after_call. }
  split; [exact Hc|].
  destruct (reset_consistent _ Hc) as (Ht & HF & Hno).
  split; [exact Ht|]. split; [exact HF|]. split; [exact Hno|].
  unfold score. unfold no_trained_model in Hno.
  destruct (hof (attrs (self (snd (reset _))))) as [h|]; [|reflexivity].
  unfold hof_getitem. now rewrite Hno.
Qed.

(** ** The evaluator through a training run *)

Lemma toolbox_mret {A} (a : A) : keeps_toolbox (mret a).
Proof. now intros w. Qed.

Lemma toolbox_mraise {A} (e : exn) : keeps_toolbox (@mraise A e).
Proof. now intros w. Qed.

Lemma toolbox_lift {A} (r : result A) : keeps_toolbox (lift r).
Proof. now intros w. Qed.

Lemma toolbox_mbind {A B} (m : M A) (k : A -> M B) :
  keeps_toolbox m -> (forall a, keeps_toolbox (k a)) -> keeps_toolbox (mbind m k).
Proof.
  intros Hm Hk w. unfold mbind. specialize (Hm w).
  destruct (m w) as [[a|e] w1]; cbn [snd] in *; [|exact Hm].
  now rewrite Hk.
Qed.

Lemma toolbox_print (line : string) : keeps_toolbox (print line).
Proof. now intros w. Qed.

Lemma toolbox_gets {A} (field : Attributes -> A) : keeps_toolbox (gets field).
Proof. now intros w. Qed.

Lemma toolbox_record_seen (population : list Individual) :
  keeps_toolbox (record_seen population).
Proof. now intros w. Qed.

Lemma toolbox_new_hof : keeps_toolbox new_hof.
Proof. now intros w. Qed.

Lemma toolbox_set_hof (h : option HallOfFame) : keeps_toolbox (modify_attrs (with_hof h)).
Proof. now intros w. Qed.

Lemma toolbox_with_random {A} (f : Rng -> A * Rng) : keeps_toolbox (with_random f).
Proof. intros w. unfold with_random. now destruct (f (random w)). Qed.

Lemma toolbox_with_random_result {A} (f : Rng -> result A * Rng) :
  keeps_toolbox (with_random_result f).
Proof. intros w. unfold with_random_result. now destruct (f (random w)). Qed.

Create HintDb toolbox.

#[local] Hint Resolve toolbox_mret toolbox_mraise toolbox_lift toolbox_print
  toolbox_gets toolbox_record_seen toolbox_new_hof toolbox_set_hof
  toolbox_with_random toolbox_with_random_result : toolbox.

Ltac toolbox_steps :=
  repeat first
    [ solve [auto with toolbox]
    | apply toolbox_mbind; [|intros ?]
    | match goal with
      | |- keeps_toolbox (match ?x with _ => _ end) => destruct x
      end ].

Lemma toolbox_getattr {A} (name : string) (field : Attributes -> option A) :
  keeps_toolbox (getattr name field).
Proof. unfold getattr. toolbox_steps. Qed.

Lemma toolbox_toolbox_get (alias : string) : keeps_toolbox (toolbox_get alias).
Proof. unfold toolbox_get. toolbox_steps. Qed.

#[local] Hint Resolve toolbox_getattr toolbox_toolbox_get : toolbox.

Lemma toolbox_halloffame_update (population : list Individual) :
  keeps_toolbox (halloffame_update population).
Proof. unfold halloffame_update. toolbox_steps. Qed.

Lemma toolbox_toolbox_select (population : list Individual) (k : nat) :
  keeps_toolbox (toolbox_select population k).
Proof. unfold toolbox_select. toolbox_steps. Qed.

Lemma toolbox_log_record (gen nevals : nat) (logbook : Logbook) :
  keeps_toolbox (log_record gen nevals logbook).
Proof. unfold log_record. toolbox_steps. Qed.

Lemma toolbox_get_algorithm (key : string) : keeps_toolbox (get_algorithm key).
Proof. unfold get_algorithm, get_algorithm_in. toolbox_steps. Qed.

#[local] Hint Resolve toolbox_halloffame_update toolbox_toolbox_select
  toolbox_log_record toolbox_get_algorithm : toolbox.

Lemma hoare_mbind {A B} (P : World -> Prop) (Q : A -> World -> Prop)
    (R : B -> World -> Prop) (E : World -> Prop) (m : M A) (k : A -> M B) :
  hoare P m Q E -> (forall a, hoare (Q a) (k a) R E) -> hoare P (mbind m k) R E.
Proof.
  intros Hm Hk w Hw. unfold mbind. specialize (Hm w Hw).
  destruct (m w) as [[a|e] w1]; [|exact Hm].
  now apply Hk.
Qed.

Lemma hoare_mret {A} (Q : A -> World -> Prop) (E : World -> Prop) (a : A) :
  hoare (Q a) (mret a) Q E.
Proof. now intros w Hw. Qed.

Lemma hoare_weaken {A} (P P' : World -> Prop) (Q Q' : A -> World -> Prop)
    (E E' : World -> Prop) (m : M A) :
  (forall w, P' w -> P w) -> (forall a w, Q a w -> Q' a w) -> (forall w, E w -> E' w) ->
  hoare P m Q E -> hoare P' m Q' E'.
Proof.
  intros HP HQ HE Hm w Hw. specialize (Hm w (HP w Hw)).
  destruct (m w) as [[a|e] w1]; auto.
Qed.

(** A method that keeps the toolbox keeps what is read from the toolbox. *)
Lemma hoare_keeps {A} (P : World -> Prop) (m : M A) :
  toolbox_only P -> keeps_toolbox m -> hoare P m (fun _ => P) P.
Proof.
  intros HP Hm w Hw. specialize (Hm w).
  destruct (m w) as [[a|e] w1]; cbn [snd] in Hm; now apply (HP w).
Qed.

Lemma hoare_keeps_return {A} (P : World -> Prop) (m : M A) :
  toolbox_only P -> keeps_toolbox m -> hoare P m (fun _ => P) (fun _ => True).
Proof.
  intros HP Hm. eapply hoare_weaken; [| | |apply (hoare_keeps P m HP Hm)]; auto.
Qed.

Lemma toolbox_only_is (tb : gmap string Registration) : toolbox_only (toolbox_is tb).
Proof. intros w w' H Hw. unfold toolbox_is in *. congruence. Qed.

Lemma toolbox_only_drawn (gen : Generator) (n : nat) : toolbox_only (drawn gen n).
Proof. intros w w' H [ds Hw]. exists ds. now rewrite H. Qed.

(** *** Fixed data *)

Lemma eval_helper_frame_kept (s : Learner) (ind : Node) (X : DataFrame) (y : Series) :
  has_column X "result" = false -> snd (eval_helper s ind X y) = X.
Proof.
  intros H. destruct (pset (attrs s)) as [ps|] eqn:E.
  - rewrite (eval_helper_eq s ind X y ps E). cbv zeta.
    destruct (add_func s _ _ y); cbn [snd]; now apply get_result_frame_kept.
  - unfold eval_helper. now rewrite E.
Qed.

Lemma stays_mbind (tb : gmap string Registration) {A B} (m : M A) (k : A -> M B) :
  stays tb m -> (forall a, stays tb (k a)) -> stays tb (mbind m k).
Proof. intros Hm Hk. eapply hoare_mbind; [exact Hm|exact Hk]. Qed.

Lemma stays_keeps (tb : gmap string Registration) {A} (m : M A) :
  keeps_toolbox m -> stays tb m.
Proof. apply hoare_keeps, toolbox_only_is. Qed.

Lemma stays_toolbox_evaluate (tb : gmap string Registration) (ind : Node) :
  fixed_data tb -> stays tb (toolbox_evaluate ind).
Proof.
  intros Hfix w Hw. unfold toolbox_is in *. unfold fixed_data in Hfix.
  unfold toolbox_evaluate, toolbox_get, gets, mbind, mret, mraise. cbv beta iota.
  rewrite Hw.
  destruct (tb !! "evaluate") as [[f ds]|] eqn:Er; [|exact Hw].
  cbn [function decorators] in *.
  destruct f; try exact Hw; [|contradiction].
  pose proof (eval_helper_frame_kept (self w) ind X y Hfix) as HX.
  pose proof (eval_helper_learner (self w) ind X y) as (_ & Ht & _).
  destruct (eval_helper (self w) ind X y) as [[v s1] X1].
  cbn [fst snd] in *. subst X1.
  assert (Hsame : <["evaluate" := mkReg (eval_helper_on X y) ds]> (toolbox (attrs s1)) = tb)
    by (rewrite Ht, Hw; now apply insert_id).
  destruct v; world_simpl; exact Hsame.
Qed.

Create HintDb stays.

Ltac stays_steps :=
  repeat first
    [ solve [auto with stays]
    | apply stays_keeps; solve [auto with toolbox]
    | apply stays_mbind; [|intros ?]
    | match goal with
      | |- stays _ (match ?x with _ => _ end) => destruct x
      end ].

Lemma stays_evaluate_invalid (tb : gmap string Registration)
    (population : list Individual) :
  fixed_data tb -> stays tb (evaluate_invalid population).
Proof.
  intros Hfix. pose proof (stays_toolbox_evaluate tb) as He.
  induction population as [|ind rest IH]; cbn [evaluate_invalid]; stays_steps.
Qed.

Lemma stays_ea_start (tb : gmap string Registration) (population : list Individual) :
  fixed_data tb -> stays tb (ea_start population).
Proof.
  intros Hfix. pose proof (stays_evaluate_invalid tb) as He.
  unfold ea_start. stays_steps.
Qed.

Lemma stays_ea_generation (tb : gmap string Registration) (algo : Algo)
    (population : list Individual) :
  fixed_data tb -> stays tb (ea_generation algo population).
Proof.
  intros Hfix. pose proof (stays_evaluate_invalid tb) as He.
  unfold ea_generation. stays_steps.
Qed.

Lemma stays_ea_generations (tb : gmap string Registration) (algo : Algo)
    (gens : list nat) (population : list Individual) (logbook : Logbook) :
  fixed_data tb -> stays tb (ea_generations algo gens population logbook).
Proof.
  intros Hfix. pose proof (stays_ea_generation tb algo) as Hg.
  revert population logbook.
  induction gens as [|gen rest IH]; intros population logbook;
    cbn [ea_generations]; stays_steps.
Qed.

Lemma stays_run_algorithm (tb : gmap string Registration) (algo : option Algo)
    (population : list Individual) :
  fixed_data tb -> stays tb (run_algorithm algo population).
Proof.
  intros Hfix. pose proof (stays_ea_start tb) as Hs.
  pose proof (stays_ea_generations tb) as Hg.
  unfold run_algorithm. destruct algo as [algo|]; [|stays_steps].
  apply stays_mbind; [stays_steps|]. intros ngen.
  apply stays_mbind; [destruct algo; apply stays_keeps, toolbox_mret|]. intros _.
  stays_steps.
Qed.

Lemma stays_train (tb : gmap string Registration) : fixed_data tb -> stays tb train.
Proof.
  intros Hfix. pose proof (stays_run_algorithm tb) as Hr.
  unfold train. stays_steps.
Qed.

(** X10. Whether it returns or raises, [train] changes neither the
    parameters, the fitness class, the primitive set nor the penalty, and it
    leaves every registration of the toolbox as it was, the evaluator apart
    (which holds the caller's frame, or the generator).  When the evaluator
    is bound to a frame without a column labelled 'result', the whole
    toolbox is as it was: what [build_model] set up is there for another
    [train]. *)
Theorem train_keeps_model (w : World) :
  let a := attrs (self w) in
  let a' := attrs (self (snd (train w))) in
  config a' = config a /\ Fitness a' = Fitness a /\ pset a' = pset a /\
  add_func (self (snd (train w))) = add_func (self w) /\
  (forall alias : string, alias <> "evaluate" -> toolbox a' !! alias = toolbox a !! alias) /\
  (fixed_data (toolbox a) -> toolbox a' = toolbox a).
Proof.
  cbv zeta. pose proof (model_train w) as H. unfold model_view in H.
  injection H as Hc HF Hp Ha Ht. repeat split; try assumption.
  - intros alias Hne.
    rewrite <- (lookup_delete_ne (toolbox (attrs (self (snd (train w))))) "evaluate" alias)
      by congruence.
    rewrite Ht. apply lookup_delete_ne. congruence.
  - intros Hfix. pose proof (stays_train _ Hfix w eq_refl) as Hs.
    unfold toolbox_is in Hs. destruct (train w) as [[r|e] w1]; exact Hs.
Qed.

(** *** Data from a generator *)

Lemma draws_mbind (gen : Generator) {A B} (m : M A) (k : A -> M B)
    (cost : A -> nat) (cost' : B -> nat) :
  draws gen m cost ->
  (forall (a : A) (n : nat),
      hoare (drawn gen (n + cost a)) (k a) (fun b => drawn gen (n + cost' b))
            (fun _ => True)) ->
  draws gen (mbind m k) cost'.
Proof.
  intros Hm Hk n. eapply hoare_mbind; [apply Hm|]. intros a. apply Hk.
Qed.

(** A step that keeps the toolbox, before a continuation. *)
Lemma hoare_skip {A B} (P : World -> Prop) (Q : B -> World -> Prop) (m : M A)
    (k : A -> M B) :
  toolbox_only P -> keeps_toolbox m ->
  (forall a, hoare P (k a) Q (fun _ => True)) ->
  hoare P (mbind m k) Q (fun _ => True).
Proof.
  intros HP Hm Hk. eapply hoare_mbind; [apply (hoare_keeps_return P m HP Hm)|].
  exact Hk.
Qed.

Lemma hoare_return {A} (P : World -> Prop) (Q : A -> World -> Prop) (a : A) :
  (forall w, P w -> Q a w) -> hoare P (mret a) Q (fun _ => True).
Proof. intros H w Hw. now apply H. Qed.

Lemma drawn_toolbox_evaluate (gen : Generator) (ind : Node) :
  draws gen (toolbox_evaluate ind) (fun _ => 1).
Proof.
  intros n w [ds Hw].
  unfold toolbox_evaluate, toolbox_get, gets, mbind, mret, mraise. cbv beta iota.
  rewrite Hw. cbn [function decorators].
  destruct (generate (after_draws n gen) None) as [[X y] gen1] eqn:Eg.
  pose proof (eval_helper_learner (self w) ind X y) as (_ & Ht & _).
  destruct (eval_helper (self w) ind X y) as [[v s1] X1].
  cbn [fst snd] in *.
  assert (Hd : drawn gen (n + 1)
                 (mkWorld (update_attrs (fun a =>
                     with_toolbox (<["evaluate" := mkReg (eval_gen gen1) ds]> (toolbox a)) a)
                     s1) (stdout w) (random w) (seen w))).
  { exists ds. world_simpl. rewrite lookup_insert_eq.
    rewrite Nat.add_1_r.
    change (after_draws (S n) gen) with (snd (generate (after_draws n gen) None)).
    now rewrite Eg. }
  destruct v; [exact Hd|exact I].
Qed.

Lemma drawn_evaluate_invalid (gen : Generator) (population : list Individual) :
  draws gen (evaluate_invalid population) snd.
Proof.
  induction population as [|ind rest IH]; cbn [evaluate_invalid]; intros n.
  - apply hoare_return. intros w Hw. cbn [snd]. now rewrite Nat.add_0_r.
  - destruct (valid ind).
    + eapply hoare_mbind; [apply IH|]. intros r.
      apply hoare_return. intros w Hw. exact Hw.
    + eapply hoare_mbind; [apply drawn_toolbox_evaluate|]. intros fit.
      eapply hoare_mbind; [apply IH|]. intros r.
      apply hoare_return. intros w Hw. cbn [snd] in *.
      now replace (n + S (snd r)) with (n + 1 + snd r) by lia.
Qed.

Lemma hoare_log_record (P : World -> Prop) (gen nevals : nat) (logbook : Logbook) :
  toolbox_only P ->
  hoare P (log_record gen nevals logbook)
        (fun logbook1 w => logbook1 = logbook ++ [(gen, nevals)] /\ P w)
        (fun _ => True).
Proof.
  intros HP w Hw. unfold log_record, gets, mbind, mret, print. cbv beta iota.
  destruct (verbose (config (attrs (self w)))); cbv beta iota;
    (split; [reflexivity|]); now apply (HP w).
Qed.

Lemma total_nevals_app (logbook : Logbook) (gen nevals : nat) :
  total_nevals (logbook ++ [(gen, nevals)]) = total_nevals logbook + nevals.
Proof.
  unfold total_nevals. rewrite List.map_app, list_sum_app. cbn. lia.
Qed.

Lemma drawn_ea_start (gen : Generator) (population : list Individual) :
  draws gen (ea_start population) (fun r => total_nevals (snd r)).
Proof.
  intros n. unfold ea_start.
  eapply hoare_mbind; [apply drawn_evaluate_invalid|]. intros r.
  apply hoare_skip; [apply toolbox_only_drawn|apply toolbox_halloffame_update|].
  intros _.
  eapply hoare_mbind;
    [apply (hoare_log_record _ 0 (snd r) []), toolbox_only_drawn|].
  intros logbook. apply hoare_return. intros w [-> Hw]. cbn [snd].
  now rewrite total_nevals_app, Nat.add_0_l.
Qed.

Lemma drawn_ea_generation (gen : Generator) (algo : Algo) (population : list Individual) :
  draws gen (ea_generation algo population) snd.
Proof.
  intros n. unfold ea_generation.
  apply hoare_skip; [apply toolbox_only_drawn|apply toolbox_gets|]. intros cxpb.
  apply hoare_skip; [apply toolbox_only_drawn|apply toolbox_gets|]. intros mutpb.
  apply hoare_skip; [apply toolbox_only_drawn|apply toolbox_gets|]. intros tb.
  apply hoare_skip; [apply toolbox_only_drawn|destruct algo; toolbox_steps|].
  intros offspring.
  eapply hoare_mbind; [apply drawn_evaluate_invalid|]. intros r.
  apply hoare_skip; [apply toolbox_only_drawn|apply toolbox_halloffame_update|].
  intros _.
  apply hoare_skip; [apply toolbox_only_drawn|destruct algo; toolbox_steps|].
  intros population1. apply hoare_return. intros w Hw. exact Hw.
Qed.

Lemma drawn_ea_generations (gen : Generator) (algo : Algo) (gens : list nat)
    (population : list Individual) (logbook : Logbook) (n : nat) :
  hoare (drawn gen (n + total_nevals logbook))
        (ea_generations algo gens population logbook)
        (fun r => drawn gen (n + total_nevals (snd r))) (fun _ => True).
Proof.
  revert population logbook.
  induction gens as [|g rest IH]; intros population logbook; cbn [ea_generations].
  - apply hoare_return. intros w Hw. exact Hw.
  - eapply hoare_mbind; [apply drawn_ea_generation|]. intros r.
    eapply hoare_mbind; [apply hoare_log_record, toolbox_only_drawn|].
    intros logbook1 w [-> Hw].
    apply (IH (fst r) (logbook ++ [(g, snd r)]) w).
    now rewrite total_nevals_app, Nat.add_assoc.
Qed.

Lemma drawn_run_algorithm (gen : Generator) (algo : option Algo)
    (population : list Individual) :
  draws gen (run_algorithm algo population) (fun r => total_nevals (snd r)).
Proof.
  intros n. unfold run_algorithm. destruct algo as [algo|]; [|now intros w Hw].
  apply hoare_skip; [apply toolbox_only_drawn|apply toolbox_gets|]. intros ngen.
  apply hoare_skip;
    [apply toolbox_only_drawn|destruct algo; apply toolbox_mret|]. intros _.
  eapply hoare_mbind; [apply drawn_ea_start|]. intros r.
  apply drawn_ea_generations.
Qed.

Lemma drawn_train (gen : Generator) :
  draws gen train (fun r => total_nevals (snd r)).
Proof.
  intros n. unfold train.
  apply hoare_skip; [apply toolbox_only_drawn|apply toolbox_new_hof|]. intros _.
  apply hoare_skip; [apply toolbox_only_drawn|apply toolbox_gets|]. intros key.
  apply hoare_skip; [apply toolbox_only_drawn|apply toolbox_get_algorithm|]. intros algo.
  apply hoare_skip; [apply toolbox_only_drawn|apply toolbox_toolbox_get|].
  intros population_fn.
  apply hoare_skip; [apply toolbox_only_drawn|apply toolbox_gets|]. intros size.
  apply hoare_skip; [apply toolbox_only_drawn|apply toolbox_with_random_result|].
  intros population. apply drawn_run_algorithm.
Qed.

(** X12. When every name of [self.func_list] is a key of [func_dict] and
    [X] has no column labelled 'result', then after [fit(X, y)], whether
    the training returned or raised, the learner holds exactly the model
    built for [X]: the fitness class, a primitive set of as many arguments
    as [X] has columns with the listed primitives, and a new toolbox with
    the registrations of the build and the evaluator still bound to [X] and
    [y].  The parameters and the penalty are those before the call. *)
Theorem fit_leaves_built_model (X : DataFrame) (y : Series) (w : World) :
  all_known (func_list (config (attrs (self w)))) ->
  has_column X "result" = false ->
  exists ps : PrimitiveSet,
    pset_arity ps = length (columns X) /\
    holds_primitives (func_list (config (attrs (self w)))) ps /\
    let s' := self (snd (fit X y w)) in
    config (attrs s') = config (attrs (self w)) /\
    add_func s' = add_func (self w) /\
    Fitness (attrs s') = Some weights /\
    pset (attrs s') = Some ps /\
    toolbox (attrs s') =
      <["evaluate" := mkReg (eval_helper_on X y) []]> (built_toolbox ps 3 Toolbox_new).
Proof.
  intros Hk HX.
  destruct (reset_run w) as [Er Hc].
  destruct (reset_returns w) as (_ & Ht & (_ & Haf & _)).
  rewrite <- Hc in Hk.
  destruct (invariant_build_model_known (get_arity_from_X X) 3 (snd (reset w)) Hk)
    as (ps & Ha & Hp & E).
  rewrite Hc in Hp.
  exists ps. split; [exact Ha|]. split; [exact Hp|].
  unfold fit. rewrite (mbind_returned _ _ _ _ tt Er).
  unfold build_model. cbv zeta.
  rewrite (mbind_returned _ _ _ _ tt (eq_trans (mbind_returned _ _ _ _ tt E) eq_refl)).
  match goal with |- context [train ?w0] => set (w2 := w0) end.
  assert (Htb : toolbox (attrs (self w2)) =
                <["evaluate" := mkReg (eval_helper_on X y) []]>
                  (built_toolbox ps 3 Toolbox_new))
    by (unfold w2, with_attrs, reg_eval, toolbox_register, modify_attrs, register;
        world_simpl; now rewrite Ht).
  assert (Hfix : fixed_data (toolbox (attrs (self w2)))).
  { rewrite Htb. unfold fixed_data. rewrite lookup_insert_eq. exact HX. }
  pose proof (model_train w2) as Hm. unfold model_view in Hm.
  injection Hm as Hc2 HF2 Hp2 Ha2 _.
  pose proof (stays_train _ Hfix w2 eq_refl) as Hs. unfold toolbox_is in Hs.
  assert (Hs' : toolbox (attrs (self (snd (train w2)))) = toolbox (attrs (self w2)))
    by (destruct (train w2) as [[a|e] w3]; exact Hs).
  rewrite Hc2, HF2, Hp2, Ha2, Hs', Htb.
  unfold w2, with_attrs, reg_eval, toolbox_register, modify_attrs. world_simpl.
  repeat split; [exact Hc|exact Haf].
Qed.

(** X13. When [fit_gen(gen)] returns the population and the log, the
    generator has been called once for the one-row sample that gives the
    arity and then once for every fitness evaluation counted in the log
    (the sum of its [nevals]): each evaluation sees a new sample. *)
Theorem fit_gen_draws_once_per_evaluation (gen : Generator) (w w' : World)
    (population : list Individual) (logbook : Logbook) :
  fit_gen gen w = (Return (population, logbook), w') ->
  exists ds : list Decorator,
    toolbox (attrs (self w')) !! "evaluate" =
      Some (mkReg (eval_gen (after_draws (total_nevals logbook)
                                         (snd (generate gen (Some 1))))) ds).
Proof.
  unfold fit_gen, build_gen_model.
  destruct (generate gen (Some 1)) as [[smallx smally] gen']. cbn [snd].
  intros H.
  apply mbind_Return in H as ([] & w1 & _ & H).
  apply mbind_Return in H as ([] & w2 & Hb & Ht).
  apply mbind_Return in Hb as ([] & w3 & _ & Hreg).
  assert (H0 : drawn gen' 0 w2).
  { unfold reg_gen_eval, toolbox_register, modify_attrs, register in Hreg.
    injection Hreg as <-. exists []. world_simpl. apply lookup_insert_eq. }
  pose proof (drawn_train gen' 0 w2 H0) as Hd. rewrite Ht in Hd. exact Hd.
Qed.

(** ** The hall of fame across the generations *)

(** *** The order of the fitness values *)

Lemma wvalues_cases (ind : Individual) :
  wvalues ind = [] \/ exists v : num, wvalues ind = [v].
Proof.
  unfold wvalues, weights. destruct (fitness ind) as [|f [|f' fs]]; cbn; eauto.
Qed.

Lemma tuple_le_one (x y : num) : ordered_numbers -> tuple_le [x] [y] = leb x y.
Proof.
  intros (_ & _ & He). cbn. destruct (eqb x y) eqn:E; [|reflexivity].
  symmetry. now apply He.
Qed.

Lemma fitness_le_total (a b : Individual) :
  ordered_numbers -> fitness_le a b = true \/ fitness_le b a = true.
Proof.
  intros Hord. unfold fitness_le.
  destruct (wvalues_cases a) as [->|[x ->]]; [now left|].
  destruct (wvalues_cases b) as [->|[y ->]]; [now right|].
  rewrite !tuple_le_one by exact Hord. apply Hord.
Qed.

Lemma fitness_le_trans (a b c : Individual) :
  ordered_numbers ->
  fitness_le a b = true -> fitness_le b c = true -> fitness_le a c = true.
Proof.
  intros Hord. unfold fitness_le.
  destruct (wvalues_cases a) as [->|[x ->]]; [reflexivity|].
  destruct (wvalues_cases b) as [->|[y ->]]; [discriminate|].
  destruct (wvalues_cases c) as [->|[z ->]]; [discriminate|].
  rewrite !tuple_le_one by exact Hord. apply Hord.
Qed.

(** *** What a hall of fame of size 1 holds after any history *)

Lemma keep_better_either (b i : Individual) : keep_better b i = b \/ keep_better b i = i.
Proof. unfold keep_better. destruct (_ && _); auto. Qed.

Lemma keep_better_elem (inds : list Individual) (b : Individual) :
  fold_left keep_better inds b ∈ b :: inds.
Proof.
  revert b. induction inds as [|i rest IH]; intros b; cbn [fold_left].
  - apply list_elem_of_here.
  - specialize (IH (keep_better b i)). apply elem_of_cons in IH as [->|IH].
    + destruct (keep_better_either b i) as [-> | ->];
        [apply list_elem_of_here|apply list_elem_of_further, list_elem_of_here].
    + now do 2 apply list_elem_of_further.
Qed.

Lemma keep_better_le (b i : Individual) :
  ordered_numbers -> fitness_le b (keep_better b i) = true.
Proof.
  intros Hord. unfold keep_better, fitness_gt.
  destruct (fitness_le i b) eqn:E; cbn.
  - destruct (fitness_le_total b b Hord); assumption.
  - destruct (tree_eqb (tree i) (tree b)); cbn.
    + destruct (fitness_le_total b b Hord); assumption.
    + destruct (fitness_le_total b i Hord); [assumption|congruence].
Qed.

(** The holder never gets worse, and an individual that is strictly better
    than the final holder was passed over for a holder with its tree. *)
Lemma keep_better_best (inds : list Individual) (b : Individual) :
  ordered_numbers ->
  fitness_le b (fold_left keep_better inds b) = true /\
  forall i : Individual, i ∈ inds ->
    fitness_gt i (fold_left keep_better inds b) = false \/
    exists j : Individual,
      j ∈ b :: inds /\ tree_eqb (tree i) (tree j) = true /\ fitness_gt i j = true.
Proof.
  intros Hord. revert b. induction inds as [|i0 rest IH]; intros b; cbn [fold_left].
  - split; [destruct (fitness_le_total b b Hord); assumption|].
    intros i Hi. inversion Hi.
  - destruct (IH (keep_better b i0)) as [Hle Hrest].
    pose proof (keep_better_le b i0 Hord) as Hstep.
    split; [exact (fitness_le_trans _ _ _ Hord Hstep Hle)|].
    intros i [->|Hi]%elem_of_cons.
    + unfold keep_better, fitness_gt in *.
      destruct (fitness_le i0 b) eqn:E; cbn in *.
      * left. now rewrite (fitness_le_trans _ _ _ Hord E Hle).
      * destruct (tree_eqb (tree i0) (tree b)) eqn:T; cbn in *.
        -- right. exists b. split; [apply list_elem_of_here|]. split; [exact T|].
           now rewrite E.
        -- left. now rewrite Hle.
    + destruct (Hrest i Hi) as [Hno|(j & Hj & Ht & Hg)]; [now left|].
      right. exists j. split; [|now split].
      apply elem_of_cons in Hj as [->|Hj]; [|now do 2 apply list_elem_of_further].
      destruct (keep_better_either b i0) as [-> | ->];
        [apply list_elem_of_here|apply list_elem_of_further, list_elem_of_here].
Qed.

Lemma hof_history_from_holder (populations : list (list Individual)) (b : Individual) :
  fold_left (fun acc population => rbind acc (fun h => hof_update h population))
            populations (Return (mkHof 1 [b]))
  = Return (mkHof 1 [fold_left keep_better (concat populations) b]).
Proof.
  revert b. induction populations as [|p rest IH]; intros b; [reflexivity|].
  cbn [fold_left rbind concat].
  assert (E : hof_update (mkHof 1 [b]) p = Return (mkHof 1 [fold_left keep_better p b]))
    by (unfold hof_update; apply hof_update_holder).
  rewrite E, IH. now rewrite fold_left_app.
Qed.

Lemma hof_history_holder (populations : list (list Individual)) :
  hof_history populations = Return (mkHof 1 (holder (concat populations))).
Proof.
  unfold hof_history, HallOfFame_new.
  induction populations as [|p rest IH]; [reflexivity|].
  cbn [fold_left rbind concat]. destruct p as [|p0 ps].
  - exact IH.
  - rewrite hof_update_empty, hof_history_from_holder.
    cbn [app holder]. now rewrite fold_left_app.
Qed.

(** *** The populations handed to the hall of fame *)

Lemma eval_helper_one_value (s : Learner) (ind : Node) (X : DataFrame) (y : Series)
    (fit : list num) :
  fst (fst (eval_helper s ind X y)) = Return fit -> exists v : num, fit = [v].
Proof.
  unfold eval_helper. destruct (pset (attrs s)); [|discriminate].
  destruct (_mse _ X y) as [[mse|e] X1]; [|discriminate].
  destruct (add_func _ _ _ _); [|discriminate].
  cbn. intros [= <-]. eauto.
Qed.

Lemma toolbox_evaluate_valid (ind : Node) (w w' : World) (fit : list num) :
  toolbox_evaluate ind w = (Return fit, w') -> valid (mkInd ind fit) = true.
Proof.
  unfold toolbox_evaluate. intros H.
  apply mbind_Return in H as (r & w1 & _ & H).
  assert (Hone : exists v : num, fit = [v]).
  { destruct (function r); try discriminate.
    - pose proof (eval_helper_one_value (self w1) ind X y fit) as Hv.
      destruct (eval_helper (self w1) ind X y) as [[v s1] X1].
      injection H as -> _. now apply Hv.
    - destruct (generate gen None) as [[X y] gen1].
      pose proof (eval_helper_one_value (self w1) ind X y fit) as Hv.
      destruct (eval_helper (self w1) ind X y) as [[v s1] X1].
      injection H as -> _. now apply Hv. }
  destruct Hone as [v ->]. reflexivity.
Qed.

Lemma evaluate_invalid_valid (population : list Individual) (w w' : World)
    (r : list Individual * nat) :
  evaluate_invalid population w = (Return r, w') ->
  Forall (fun ind => valid ind = true) (fst r).
Proof.
  revert w w' r. induction population as [|ind rest IH]; intros w w' r;
    cbn [evaluate_invalid].
  - intros [= <- _]. constructor.
  - destruct (valid ind) eqn:V; intros H.
    + apply mbind_Return in H as (r0 & w1 & H0 & H). injection H as <- _.
      constructor; [exact V|exact (IH _ _ _ H0)].
    + apply mbind_Return in H as (fit & w1 & Hfit & H).
      apply mbind_Return in H as (r0 & w2 & H0 & H). injection H as <- _.
      constructor; [exact (toolbox_evaluate_valid _ _ _ _ Hfit)|exact (IH _ _ _ H0)].
Qed.

Lemma hoare_keeps_hof {A} (P : World -> Prop) (m : M A) :
  seen_only P -> keeps_hof m -> hoare P m (fun _ => P) (fun _ => True).
Proof.
  intros HP Hm w Hw. specialize (Hm w). unfold hof_view in Hm.
  destruct (m w) as [[a|e] w1]; [|exact I].
  cbn [snd] in Hm. injection Hm as _ Hs. now apply (HP w).
Qed.

Lemma seen_only_handed (k : nat) (last : option (list Individual)) :
  seen_only (handed k last).
Proof. intros w w' E. unfold handed. now rewrite E. Qed.

Lemma handed_forget (k : nat) (last : option (list Individual)) (w : World) :
  handed k last w -> handed k None w.
Proof. intros (Hl & Hv & _). split; [exact Hl|]. split; [exact Hv|]. discriminate. Qed.

Lemma handed_skip {A B} (k : nat) (last : option (list Individual))
    (Q : B -> World -> Prop) (m : M A) (c : A -> M B) :
  keeps_hof m ->
  (forall a, hoare (handed k last) (c a) Q (fun _ => True)) ->
  hoare (handed k last) (mbind m c) Q (fun _ => True).
Proof.
  intros Hm Hc. eapply hoare_mbind; [|exact Hc].
  apply hoare_keeps_hof; [apply seen_only_handed|exact Hm].
Qed.

Lemma handed_evaluate_invalid (k : nat) (last : option (list Individual))
    (population : list Individual) :
  hoare (handed k last) (evaluate_invalid population)
        (fun r w => Forall (fun ind => valid ind = true) (fst r) /\ handed k last w)
        (fun _ => True).
Proof.
  intros w Hw.
  pose proof (keeps_evaluate_invalid population w) as Hk. unfold hof_view in Hk.
  destruct (evaluate_invalid population w) as [[r|e] w1] eqn:E; [|exact I].
  split; [exact (evaluate_invalid_valid _ _ _ _ E)|].
  cbn [snd] in Hk. injection Hk as _ Hs. now apply (seen_only_handed k last w).
Qed.

Lemma handed_halloffame_update (k : nat) (last : option (list Individual))
    (population : list Individual) :
  Forall (fun ind => valid ind = true) population ->
  hoare (handed k last) (halloffame_update population)
        (fun _ => handed (S k) (Some population)) (fun _ => True).
Proof.
  intros Hv w (Hl & Hf & _).
  unfold halloffame_update, getattr, gets, mbind, mret, mraise, lift, modify_attrs,
    record_seen.
  cbv beta iota.
  destruct (hof (attrs (self w))) as [h|]; [|exact I].
  destruct (hof_update h population) as [h1|e]; [|exact I].
  unfold handed. cbn [seen length]. split; [now rewrite Hl|].
  split; [now constructor|]. intros p [= <-]. now exists (seen w).
Qed.

Lemma handed_log_record (k : nat) (last : option (list Individual))
    (gen nevals : nat) (logbook : Logbook) :
  hoare (handed k last) (log_record gen nevals logbook)
        (fun logbook1 w => logbook1 = logbook ++ [(gen, nevals)] /\ handed k last w)
        (fun _ => True).
Proof.
  intros w Hw. unfold log_record, gets, mbind, mret, print. cbv beta iota.
  destruct (verbose (config (attrs (self w)))); cbv beta iota;
    (split; [reflexivity|]); exact Hw.
Qed.

Lemma handed_ea_start (k : nat) (last : option (list Individual))
    (population : list Individual) :
  hoare (handed k last) (ea_start population)
        (fun r w => handed (S k) (Some (fst r)) w /\ List.map fst (snd r) = [0])
        (fun _ => True).
Proof.
  unfold ea_start.
  eapply hoare_mbind; [apply handed_evaluate_invalid|]. intros r.
  apply hoare_mbind with (Q := fun _ => handed (S k) (Some (fst r))).
  { intros w [Hv Hw]. exact (handed_halloffame_update k last (fst r) Hv w Hw). }
  intros _.
  eapply hoare_mbind; [apply handed_log_record|]. intros logbook.
  apply hoare_return. intros w [-> Hw]. now split.
Qed.

Lemma handed_ea_generation (k : nat) (last : option (list Individual)) (algo : Algo)
    (population : list Individual) :
  hoare (handed k last) (ea_generation algo population)
        (fun r => handed (S k) (newest algo (fst r))) (fun _ => True).
Proof.
  unfold ea_generation.
  apply handed_skip; [apply keeps_gets|]. intros cxpb.
  apply handed_skip; [apply keeps_gets|]. intros mutpb.
  apply handed_skip; [apply keeps_gets|]. intros tb.
  apply handed_skip.
  { destruct algo; [|apply keeps_with_random_result..].
    apply keeps_mbind; [apply keeps_toolbox_select|].
    intros; apply keeps_with_random_result. }
  intros offspring.
  eapply hoare_mbind; [apply handed_evaluate_invalid|]. intros r.
  apply hoare_mbind with (Q := fun _ => handed (S k) (Some (fst r))).
  { intros w [Hv Hw]. exact (handed_halloffame_update k last (fst r) Hv w Hw). }
  intros _.
  destruct algo; cbn [newest].
  - intros w Hw. exact Hw.
  - apply handed_skip; [apply keeps_toolbox_select|]. intros population1.
    apply hoare_return. intros w Hw. exact (handed_forget _ _ _ Hw).
  - apply handed_skip; [apply keeps_toolbox_select|]. intros population1.
    apply hoare_return. intros w Hw. exact (handed_forget _ _ _ Hw).
Qed.

Lemma handed_ea_generations (algo : Algo) (gens : list nat) (k : nat)
    (population : list Individual) (logbook : Logbook) :
  hoare (handed k (newest algo population))
        (ea_generations algo gens population logbook)
        (fun r w => handed (k + length gens) (newest algo (fst r)) w /\
                    List.map fst (snd r) = List.map fst logbook ++ gens)
        (fun _ => True).
Proof.
  revert k population logbook.
  induction gens as [|g rest IH]; intros k population logbook; cbn [ea_generations].
  - apply hoare_return. intros w Hw. cbn [fst snd length].
    rewrite Nat.add_0_r, app_nil_r. now split.
  - eapply hoare_mbind; [apply handed_ea_generation|]. intros r.
    eapply hoare_mbind; [apply handed_log_record|]. intros logbook1 w [-> Hw].
    pose proof (IH (S k) (fst r) (logbook ++ [(g, snd r)]) w Hw) as H.
    destruct (ea_generations algo rest (fst r) (logbook ++ [(g, snd r)]) w)
      as [[r'|e] w1]; [|exact I].
    destruct H as [H1 H2]. cbn [length]. rewrite Nat.add_succ_r. split; [exact H1|].
    rewrite H2, List.map_app. cbn [List.map fst]. now rewrite <- app_assoc.
Qed.

Lemma handed_generations (algo : Algo) (ngen : nat) (population : list Individual) :
  hoare (handed 0 None)
        (do* (match algo with
              | eaMuCommaLambda =>
                  if mu <=? lambda_ then mret tt else mraise AssertionError
              | _ => mret tt
              end) in
         let* r <- ea_start population in
         ea_generations algo (seq 1 ngen) (fst r) (snd r))
        (fun r w => handed (S ngen) (newest algo (fst r)) w /\
                    List.map fst (snd r) = seq 0 (S ngen))
        (fun _ => True).
Proof.
  apply handed_skip; [destruct algo; apply keeps_mret|]. intros _.
  eapply hoare_mbind; [apply handed_ea_start|]. intros r w [Hw Hlog].
  assert (Hw' : handed 1 (newest algo (fst r)) w)
    by (destruct algo; cbn [newest]; [exact Hw|exact (handed_forget _ _ _ Hw)..]).
  pose proof (handed_ea_generations algo (seq 1 ngen) 1 (fst r) (snd r) w Hw') as H.
  destruct (ea_generations algo (seq 1 ngen) (fst r) (snd r) w) as [[r'|e] w1];
    [|exact I].
  destruct H as [H1 H2]. rewrite length_seq in H1. split; [exact H1|].
  rewrite H2, Hlog. reflexivity.
Qed.

Lemma handed_run_algorithm (algo : Algo) (population : list Individual) (w : World) :
  handed 0 None w ->
  match run_algorithm (Some algo) population w with
  | (Return r, w') =>
      handed (S (ngens (config (attrs (self w))))) (newest algo (fst r)) w' /\
      List.map fst (snd r) = seq 0 (S (ngens (config (attrs (self w)))))
  | (Raise _, _) => True
  end.
Proof.
  intros Hw.
  exact (handed_generations algo (ngens (config (attrs (self w)))) population w Hw).
Qed.

Lemma handed_train (w w' : World) (r : list Individual * Logbook) (algo : Algo) :
  train w = (Return r, w') ->
  algo_dict !! algorithm (config (attrs (self w))) = Some algo ->
  handed (S (ngens (config (attrs (self w))))) (newest algo (fst r)) w' /\
  List.map fst (snd r) = seq 0 (S (ngens (config (attrs (self w))))).
Proof.
  unfold train. intros H Halgo.
  apply mbind_Return in H as ([] & w1 & H1 & H). unfold new_hof in H1.
  injection H1 as <-.
  apply mbind_Return in H as (key & w2 & H2 & H). unfold gets in H2.
  injection H2 as <- <-. world_simpl.
  apply mbind_Return in H as (a & w3 & H3 & H).
  rewrite get_algorithm_cases, Halgo in H3. injection H3 as <- <-.
  apply mbind_Return in H as (pf & w4 & H4 & H).
  unfold toolbox_get, gets, mbind, mret, mraise in H4. cbv beta iota in H4.
  destruct (toolbox _ !! "population") as [pf0|]; [|discriminate].
  injection H4 as <- <-.
  apply mbind_Return in H as (size & w5 & H5 & H). unfold gets in H5.
  injection H5 as <- <-.
  apply mbind_Return in H as (population & w6 & H6 & H).
  unfold with_random_result in H6. world_simpl.
  destruct (tools_initRepeat _ _ _) as [res g]. injection H6 as -> <-.
  match type of H with
  | run_algorithm _ _ ?w0 = _ =>
      pose proof (handed_run_algorithm algo population w0) as Hrun
  end.
  rewrite H in Hrun. world_simpl. apply Hrun.
  unfold handed. world_simpl. split; [reflexivity|]. split; [constructor|discriminate].
Qed.


End Model.

(** * A run on rational numbers

    The numbers are instantiated with the rationals and the library's
    random operators with fixed choices, so that the definitions above can
    be evaluated. *)

Module Run.

Definition Qmean (l : list Q) : Q :=
  Qred (fold_right Qplus 0%Q l / inject_Z (Z.of_nat (length l))).

#[export] Instance Q_Numeric : Numeric Q := {|
  of_Z := inject_Z;
  add := Qplus;
  sub := Qminus;
  mul := Qmult;
  mean := Qmean;
  eqb := Qeq_bool;
  ltb := fun a b => negb (Qle_bool b a);
  leb := Qle_bool
|}.

(** An unprotected division: dividing by zero raises. *)
Definition div : @Primitive Q :=
  mkPrimitive 2 (fun args =>
    match args with
    | [a; b] => if Qeq_bool b 0 then Raise ZeroDivisionError else Return (a / b)%Q
    | _ => Raise TypeError
    end).

Definition func_dict : gmap string (@Primitive Q) := <["div" := div]> ∅.

(** Two rows [(1, 2)] and [(1, 0)]; the targets are [1/2] and [0]. *)
Definition frame : @DataFrame Q :=
  mkFrame 2 [("x", [1; 1]%Q); ("z", [2; 0]%Q)].
Definition target : @Series Q := [1 # 2; 0]%Q.

(** The same data in a frame that comes with a column labelled 'result'. *)
Definition frame_with_result : @DataFrame Q :=
  mkFrame 2 [("x", [1; 1]%Q); ("z", [2; 0]%Q); ("result", [7; 7]%Q)].

(** [div(ARG0, ARG1)], [ARG0], and a tree of height [n]. *)
Definition quotient : Node := Prim "div" [Arg 0; Arg 1].
Definition first_column : Node := Arg 0.
Fixpoint chain (n : nat) : Node :=
  match n with
  | 0 => Arg 0
  | S n' => Prim "div" [chain n'; Arg 1]
  end.
Definition tall : @Individual Q := mkInd (chain 17) [].

(** Fixed choices for the generator and the random operators: the
    mutation puts the tree under one more node, the first population is
    [quotient] and [first_column], variation changes nothing. *)
Definition generate (g : unit) (no_samples : option nat)
  : @DataFrame Q * @Series Q * unit := ((frame, target), tt).
Definition mutUniform_ (ind : @Individual Q) (expr : @Function Q unit)
    (ps : @PrimitiveSet Q) (g : unit) : result (list (@Individual Q)) * unit :=
  (Return [mkInd (Prim "div" [tree ind; tree ind]) []], g).
Definition cxOnePoint_ (ind1 ind2 : @Individual Q) (g : unit)
  : result (list (@Individual Q)) * unit := (Return [ind2; ind1], g).
Definition randbelow_ (n : nat) (g : unit) : nat * unit := (0, g).
Definition initRepeat_ (f : @Function Q unit) (n : nat) (g : unit)
  : result (list (@Individual Q)) * unit :=
  (Return (take n [mkInd quotient []; mkInd first_column []]), g).
Definition selTournament_ (population : list (@Individual Q)) (k tournsize : nat)
    (g : unit) : list (@Individual Q) * unit := (take k population, g).
Definition varAnd_ (population : list (@Individual Q))
    (tb : gmap string (@Registration Q unit)) (cxpb mutpb : Q) (g : unit)
  : result (list (@Individual Q)) * unit := (Return population, g).
Definition varOr_ (population : list (@Individual Q))
    (tb : gmap string (@Registration Q unit)) (lambda_ : nat) (cxpb mutpb : Q) (g : unit)
  : result (list (@Individual Q)) * unit := (Return (take lambda_ population), g).
Definition stream (logbook : Logbook) : string := "".

Definition fit_ :=
  fit unit generate unit func_dict initRepeat_ selTournament_ varAnd_ varOr_ stream.
Definition train_ :=
  train unit generate unit initRepeat_ selTournament_ varAnd_ varOr_ stream.

(** A learner as constructed (population 2, one generation, 'simple'),
    the world around it, and the same with an algorithm name that is not
    in the dictionary. *)
Definition learner : @Learner Q unit :=
  init unit "DEAP_data" false 2 (4 # 10)%Q (4 # 10)%Q 1 "simple" ["div"].
Definition world : @World Q unit unit := mkWorld unit unit learner [] tt [].
Definition misconfigured : @World Q unit unit :=
  mkWorld unit unit (set_algorithm unit learner "random_search") [] tt [].

(** The world after [fit], the world [fit] hands to [train], and the
    world after the build alone. *)
Definition trained : @World Q unit unit := snd (fit_ frame target world).
Definition ready : @World Q unit unit :=
  snd (build_model unit unit func_dict frame target 3 (snd (reset unit unit world))).
Definition built : @World Q unit unit :=
  snd (invariant_build_model unit unit func_dict 2 3 world).

(** Learners with the primitive set in place: as built, with an empty hall
    of fame, with a filled one, and one built for three columns. *)
Definition with_primitives : @Learner Q unit := self unit unit built.
Definition before_training : @Learner Q unit :=
  update_attrs unit (with_hof unit (Some (HallOfFame_new 1))) with_primitives.
Definition after_training : @Learner Q unit :=
  update_attrs unit (with_hof unit (Some (mkHof 1 [mkInd first_column [5 # 8]%Q])))
               with_primitives.
Definition three_columns : @Learner Q unit :=
  mkLearner unit
    (mkAttrs unit (config unit (attrs unit learner)) (Toolbox_new unit) None
             (Some (mkPset 3 func_dict)) None None)
    (default_add_func unit).

(** [lambda dls, X, y: len(dls.hof)]: a penalty that reads the hall of
    fame of the learner it is handed. *)
Definition hof_size : @Attributes Q unit -> @DataFrame Q -> @Series Q -> result Q :=
  fun dls X y =>
    match hof unit dls with
    | Some h => Return (inject_Z (Z.of_nat (length (items h))))
    | None => Raise (AttributeError "hof")
    end.

(** A learner asked for a primitive that [func_dict] does not have, and
    the world of a learner whose hall of fame is filled. *)
Definition unknown_primitive : @World Q unit unit :=
  mkWorld unit unit (set_func_list unit learner ["div"; "sin"; "div"]) [] tt [].
Definition scored : @World Q unit unit := mkWorld unit unit after_training [] tt [].

(** A generator that counts its calls (its state is the number of calls so
    far) and returns the two-row frame every time, with the learner and the
    operators over it. *)
Definition counting (g : nat) (no_samples : option nat)
  : @DataFrame Q * @Series Q * nat := ((frame, target), S g).
Definition counting_initRepeat (f : @Function Q nat) (n : nat) (g : unit)
  : result (list (@Individual Q)) * unit :=
  (Return (take n [mkInd quotient []; mkInd first_column []]), g).
Definition counting_varAnd (population : list (@Individual Q))
    (tb : gmap string (@Registration Q nat)) (cxpb mutpb : Q) (g : unit)
  : result (list (@Individual Q)) * unit := (Return population, g).
Definition counting_varOr (population : list (@Individual Q))
    (tb : gmap string (@Registration Q nat)) (lambda_ : nat) (cxpb mutpb : Q) (g : unit)
  : result (list (@Individual Q)) * unit := (Return (take lambda_ population), g).
Definition counting_world : @World Q nat unit :=
  mkWorld nat unit
    (init nat "DEAP_data" false 2 (4 # 10)%Q (4 # 10)%Q 1 "simple" ["div"]) [] tt [].
Definition counting_fit_gen :=
  fit_gen nat counting unit func_dict counting_initRepeat selTournament_
          counting_varAnd counting_varOr stream.

(** A generator of one column [x = (1, 1)] whose first sample for an
    evaluation has the target [(3, 3)] and whose later samples have the
    target [(1, 1)]; a first population of the single tree [ARG0]; and a
    variation that returns the individuals it is given with their fitness
    deleted (as DEAP does after a crossover or a mutation, whether or not
    the tree changed). *)
Definition one_column : @DataFrame Q := mkFrame 2 [("x", [1; 1]%Q)].
Definition resampling (g : nat) (no_samples : option nat)
  : @DataFrame Q * @Series Q * nat :=
  ((one_column, if g =? 1 then [3; 3]%Q else [1; 1]%Q), S g).
Definition resampling_initRepeat (f : @Function Q nat) (n : nat) (g : unit)
  : result (list (@Individual Q)) * unit := (Return [mkInd first_column []], g).
Definition invalidating_varAnd (population : list (@Individual Q))
    (tb : gmap string (@Registration Q nat)) (cxpb mutpb : Q) (g : unit)
  : result (list (@Individual Q)) * unit :=
  (Return (List.map (fun ind => mkInd (tree ind) []) population), g).
Definition resampling_fit_gen :=
  fit_gen nat resampling unit func_dict resampling_initRepeat selTournament_
          invalidating_varAnd counting_varOr stream.

(** ** Evaluations *)

(** The row on which the division fails counts as 9999: the error is
    [((1/2 - 1/2)^2 + (9999 - 0)^2) / 2]. *)
Example mse_counts_the_sentinel :
  _mse (compile quotient (mkPset 2 func_dict)) frame target
  = (Return (99980001 # 2)%Q, frame).
Proof. vm_compute. reflexivity. Qed.

(** [fit] returns the population with its fitness and the log, and the
    hall of fame holds the better individual. *)
Example fit_returns :
  fst (fit_ frame target world)
  = Return ([mkInd quotient [99980001 # 2]%Q; mkInd first_column [5 # 8]%Q],
            [(0, 2); (1, 0)]).
Proof. vm_compute. reflexivity. Qed.

Example fit_hall_of_fame :
  hof unit (attrs unit (self unit unit trained))
  = Some (mkHof 1 [mkInd first_column [5 # 8]%Q]).
Proof. vm_compute. reflexivity. Qed.

(** With an algorithm name that is not in the dictionary, [fit] raises;
    the hall of fame created by [train] is left empty. *)
Example fit_unknown_algorithm_raises :
  fst (fit_ frame target misconfigured) = Raise (AttributeError "ea") /\
  stdout unit unit (snd (fit_ frame target misconfigured))
  = ["Already Reset";
     "Key random_search not found out of available algorithm options. Using Simple Algorithm"] /\
  hof unit (attrs unit (self unit unit (snd (fit_ frame target misconfigured))))
  = Some (HallOfFame_new 1).
Proof. repeat split; vm_compute; reflexivity. Qed.

(** [train] on a learner that was never built creates the hall of fame
    and then fails; a [reset] after that stops at the missing fitness class
    and leaves the hall of fame in place. *)
Example reset_after_failed_train :
  fst (train_ world) = Raise (AttributeError "population") /\
  hof unit (attrs unit (self unit unit (snd (reset unit unit (snd (train_ world))))))
  = Some (HallOfFame_new 1) /\
  stdout unit unit (snd (reset unit unit (snd (train_ world)))) = ["Already Reset"].
Proof. repeat split; vm_compute; reflexivity. Qed.

(** On the frame with a 'result' column the first evaluation sees three
    columns and removes one, the second sees two, so the compiled function
    of three arguments fails on every row: the same individual evaluates to
    [5/8] and then to [((9999 - 1/2)^2 + 9999^2) / 2]. *)
Example result_column_changes_second_evaluation :
  let first := eval_helper unit three_columns first_column frame_with_result target in
  let second := eval_helper unit (snd (fst first)) first_column (snd first) target in
  fst (fst first) = Return [Qplus (5 # 8) 0] /\
  snd first = frame /\
  fst (fst second) = Return [Qplus (799800013 # 8) 0].
Proof. vm_compute. repeat split. Qed.

(** ** Instances of the theorems *)

(** C3 on the learner as constructed. *)
Lemma score_before_training_run :
  fst (fst (score unit unit frame target world)) = Return (PyInt 0) /\
  stdout unit unit (snd (fst (score unit unit frame target world)))
  = ["Could not find Best model"].
Proof.
  destruct (score_before_training unit unit frame target world I) as [H _].
  rewrite H. split; reflexivity.
Defined.

(** C4 on the built model: the mutation of a tree of height 17 would have
    height 18, and the guard returns the parent instead. *)
Lemma offspring_height_bound_run :
  toolbox_mutate unit unit mutUniform_ randbelow_
    (toolbox unit (attrs unit (self unit unit built))) tall tt = (Return [tall], tt) /\
  Forall (fun o : @Individual Q => height (tree o) <= 17) [tall].
Proof.
  split; [vm_compute; reflexivity|].
  refine (proj2 (proj1 (offspring_height_bound unit unit func_dict mutUniform_
                          cxOnePoint_ randbelow_ 2 3 world built _)
                       tall tt tt [tall] _) _).
  - vm_compute. reflexivity.
  - vm_compute. reflexivity.
  - vm_compute. lia.
Defined.

(** C5 on the built model with the default penalty. *)
Lemma fitness_shapes_run :
  fst (fst (eval_helper unit with_primitives first_column frame target))
  = Return [Qplus (5 # 8) 0] /\
  fst (fst (ind_score unit with_primitives first_column frame target))
  = Return [(5 # 8)%Q; 0%Q].
Proof.
  pose proof (proj2 (fitness_shapes unit with_primitives first_column frame target
                       (mkPset 2 func_dict) eq_refl) eq_refl) as H.
  split; [exact (proj1 H)|exact (proj1 (proj2 H))].
Defined.

(** The rational numbers are ordered as the hall of fame needs them. *)
Lemma Q_ordered_numbers : @ordered_numbers Q Q_Numeric.
Proof.
  split; [|split]; cbn.
  - intros a b. destruct (Qlt_le_dec a b) as [H|H].
    + left. apply Qle_bool_iff. now apply Qlt_le_weak.
    + right. now apply Qle_bool_iff.
  - intros a b c Hab Hbc. apply Qle_bool_iff.
    apply Qle_bool_iff in Hab. apply Qle_bool_iff in Hbc.
    exact (Qle_trans _ _ _ Hab Hbc).
  - intros a b Hab. apply Qle_bool_iff. apply Qeq_bool_iff in Hab.
    rewrite Hab. apply Qle_refl.
Qed.



(** C7 from the learner as constructed and from the trained one. *)
Lemma fit_from_any_state_run :
  same_outcome unit unit (fit_ frame target world) (fit_ frame target trained).
Proof.
  refine (proj1 (fit_from_any_state unit generate unit func_dict initRepeat_
                   selTournament_ varAnd_ varOr_ stream frame target tt
                   world trained _)).
  repeat split.
Defined.

(** C8 (amended) on two learners that differ in their hall of fame, with
    the default penalty. *)
Lemma evaluation_repeatable_run :
  fst (fst (eval_helper unit before_training quotient frame target))
  = fst (fst (eval_helper unit after_training quotient frame target)).
Proof.
  refine (proj1 (evaluation_repeatable unit before_training after_training quotient
                   frame target eq_refl eq_refl _ eq_refl)).
  intros a a' X y Hfunc. reflexivity.
Defined.

(** C8 as stated fails: with the penalty [hof_size], the same individual on
    the same data with this same penalty evaluates to [(5/8 + 0,)] while
    the hall of fame is empty and to [(5/8 + 1,)] once it has an item. *)
Lemma evaluation_depends_on_learner_state :
  let s1 := set_add_func unit before_training hof_size in
  let s2 := set_add_func unit after_training hof_size in
  pset unit (attrs unit s1) = pset unit (attrs unit s2) /\
  add_func unit s1 = add_func unit s2 /\
  fst (fst (eval_helper unit s1 first_column frame target)) = Return [Qplus (5 # 8) 0] /\
  fst (fst (eval_helper unit s2 first_column frame target)) = Return [Qplus (5 # 8) 1] /\
  fst (fst (eval_helper unit s1 first_column frame target))
  <> fst (fst (eval_helper unit s2 first_column frame target)).
Proof.
  cbv zeta. repeat split; try (vm_compute; reflexivity).
  vm_compute. discriminate.
Qed.

(** C9 on a store with the one individual of the hall of fame. *)
Lemma predicted_equation_is_a_copy_run :
  exists (r : positive) (store' : gmap positive (@Individual Q)),
    get_predicted_equation unit (Toolbox_new unit) (Some [1%positive])
      (<[1%positive := mkInd first_column [5 # 8]%Q]> ∅) = (Return r, store') /\
    r <> 1%positive /\
    mutate_object (fun _ => mkInd quotient []) r store' !! 1%positive
    = Some (mkInd first_column [5 # 8]%Q).
Proof.
  destruct (predicted_equation_is_a_copy unit (Toolbox_new unit) 1%positive []
              (<[1%positive := mkInd first_column [5 # 8]%Q]> ∅)
              (mkInd first_column [5 # 8]%Q))
    as (r & store' & Hcall & Hne & _ & _ & _ & Hkeep).
  - eexists. vm_compute. reflexivity.
  - apply lookup_insert_eq.
  - exists r, store'. split; [exact Hcall|]. split; [exact Hne|]. apply Hkeep.
Defined.

(** ** Instances of the further properties *)

(** X3: the frame has two columns, the primitive set was created for three. *)
Lemma wrong_column_count_gives_sentinel_run :
  fst (get_result (compile quotient (mkPset 3 func_dict)) frame target)
  = Return [inject_Z 9999; inject_Z 9999].
Proof.
  refine (proj1 (wrong_column_count_gives_sentinel quotient (mkPset 3 func_dict)
                   frame target _ _)).
  - repeat constructor.
  - cbn. lia.
Defined.

(** X4 on the learner as constructed. *)
Lemma build_model_builds_run :
  exists ps : @PrimitiveSet Q,
    pset_arity ps = 2 /\
    holds_primitives func_dict ["div"] ps /\
    fst (build_model unit unit func_dict frame target 3 world) = Return tt.
Proof.
  destruct (build_model_builds unit unit func_dict frame target 3 world)
    as (ps & Ha & Hc & E).
  - repeat constructor. exists div. vm_compute. reflexivity.
  - exists ps. split; [exact Ha|]. split; [exact Hc|]. now rewrite E.
Defined.

(** X5 with the generator of the two-column frame. *)
Lemma build_gen_model_builds_run :
  exists ps : @PrimitiveSet Q,
    pset_arity ps = 2 /\
    holds_primitives func_dict ["div"] ps /\
    fst (build_gen_model unit generate unit func_dict tt 3 world) = Return tt.
Proof.
  destruct (build_gen_model_builds unit generate unit func_dict tt 3 world)
    as (ps & Ha & Hc & E).
  - repeat constructor. exists div. vm_compute. reflexivity.
  - exists ps. split; [exact Ha|]. split; [exact Hc|]. now rewrite E.
Defined.

(** X6: 'sin' is not in the dictionary. *)
Lemma build_model_missing_primitive_run :
  fst (fit_ frame target unknown_primitive) = Raise (KeyError "sin").
Proof.
  refine (proj2 (build_model_missing_primitive unit generate unit func_dict initRepeat_
                   selTournament_ varAnd_ varOr_ stream frame target 3
                   unknown_primitive ["div"] ["div"] "sin" eq_refl _ _)).
  - repeat constructor. exists div. vm_compute. reflexivity.
  - vm_compute. reflexivity.
Defined.

(** X7 on the learner as constructed. *)
Lemma train_before_build_run :
  fst (train_ world) = Raise (AttributeError "population") /\
  fst (fst (score unit unit frame target (snd (train_ world)))) = Return (PyInt 0).
Proof.
  destruct (train_before_build unit generate unit initRepeat_ selTournament_
              varAnd_ varOr_ stream world) as (Hr & _ & Hs).
  - vm_compute. reflexivity.
  - split; [exact Hr|apply Hs].
Defined.

(** X8 with the algorithm name 'random_search'. *)
Lemma unknown_algorithm_never_trains_run :
  fst (train_ misconfigured) = Raise (AttributeError "ea").
Proof.
  refine (proj1 (unknown_algorithm_never_trains unit generate unit func_dict initRepeat_
                   selTournament_ varAnd_ varOr_ stream frame target tt
                   misconfigured _)).
  vm_compute. reflexivity.
Defined.

(** X9 on the learner whose hall of fame holds [ARG0]. *)
Lemma score_with_model_run :
  fst (fst (score unit unit frame target scored)) = Return (PyTuple [(5 # 8)%Q; 0%Q]).
Proof.
  pose proof (score_with_model unit unit frame target scored
                (mkHof 1 [mkInd first_column [5 # 8]%Q])
                (mkInd first_column [5 # 8]%Q) (mkPset 2 func_dict)
                eq_refl eq_refl eq_refl) as H.
  cbv zeta in H. rewrite H. vm_compute. reflexivity.
Defined.

(** X12 on the two-column frame, from the learner as constructed. *)
Lemma fit_leaves_built_model_run :
  exists ps : @PrimitiveSet Q,
    pset_arity ps = 2 /\
    toolbox unit (attrs unit (self unit unit trained)) =
      <["evaluate" := mkReg unit (eval_helper_on unit frame target) []]>
        (built_toolbox unit ps 3 (Toolbox_new unit)).
Proof.
  destruct (fit_leaves_built_model unit generate unit func_dict initRepeat_
              selTournament_ varAnd_ varOr_ stream frame target world)
    as (ps & Ha & _ & _ & _ & _ & _ & Ht).
  - repeat constructor. exists div. vm_compute. reflexivity.
  - vm_compute. reflexivity.
  - exists ps. split; [exact Ha|exact Ht].
Defined.

(** X13 with the counting generator: one call for the arity, then the two
    evaluations of the first population; the log is [(0, 2); (1, 0)]. *)
Lemma fit_gen_draws_once_per_evaluation_run :
  exists ds : list Decorator,
    toolbox nat (attrs nat (self nat unit (snd (counting_fit_gen 0 counting_world))))
      !! "evaluate" = Some (mkReg nat (eval_gen nat 3) ds).
Proof.
  refine (fit_gen_draws_once_per_evaluation nat counting unit func_dict
            counting_initRepeat selTournament_ counting_varAnd counting_varOr stream
            0 counting_world (snd (counting_fit_gen 0 counting_world))
            [mkInd quotient [99980001 # 2]%Q; mkInd first_column [5 # 8]%Q]
            [(0, 2); (1, 0)] _).
  vm_compute. reflexivity.
Defined.

(** X10 on the built learner: training leaves the toolbox as built. *)
Lemma train_keeps_model_run :
  toolbox unit (attrs unit (self unit unit (snd (train_ ready))))
  = toolbox unit (attrs unit (self unit unit ready)).
Proof.
  refine (proj2 (proj2 (proj2 (proj2 (proj2
            (train_keeps_model unit generate unit initRepeat_ selTournament_
               varAnd_ varOr_ stream ready))))) _).
  vm_compute. reflexivity.
Defined.

End Run.
